(** * Form validation engine of [script.js] (PART 6)

    A shallow embedding of [initializeFormValidation]: the per-field rules of
    [validateField], the two gates ([updateSubmitButton] and the submit
    handler) and the delayed reset of [showSuccessMessage], together with the
    fragment of the JavaScript runtime they rely on (strings as sequences of
    UTF-16 code units, [trim], [parseInt], backtracking regular expressions,
    a document of elements looked up by id, timers).                        *)

From Stdlib Require Import ZArith NArith Ascii String List Bool Lia DecimalString.
From stdpp Require Import base decidable option list strings gmap fin_maps functions.

Open Scope string_scope.
Open Scope list_scope.
Open Scope Z_scope.

(* ===================================================================== *)
(** ** JavaScript strings                                                 *)
(* ===================================================================== *)

Module JS.

(** A JavaScript string is a finite sequence of 16-bit code units;
    [value.length] counts code units. *)
Definition jsstring := list N.

(** The code units of an ASCII literal of the script. *)
Definition lit (s : string) : jsstring :=
  List.map N_of_ascii (list_ascii_of_string s).

Definition chr (a : ascii) : N := N_of_ascii a.

Definition in_range (lo hi c : N) : bool := ((lo <=? c) && (c <=? hi))%N.

(** ECMAScript LineTerminator: LF, CR, LS, PS. *)
Definition is_line_terminator (c : N) : bool :=
  ((c =? 10) || (c =? 13) || (c =? 8232) || (c =? 8233))%N.

(** ECMAScript WhiteSpace together with LineTerminator: what [trim] strips,
    what [parseInt] skips and what [\s] matches. *)
Definition is_white_space (c : N) : bool :=
  (in_range 9 13 c || (c =? 32) || (c =? 160) || (c =? 5760)
   || in_range 8192 8202 c || (c =? 8232) || (c =? 8233) || (c =? 8239)
   || (c =? 8287) || (c =? 12288) || (c =? 65279))%N.

Fixpoint trimStart (s : jsstring) : jsstring :=
  match s with
  | c :: s' => if is_white_space c then trimStart s' else s
  | [] => []
  end.

Definition trimEnd (s : jsstring) : jsstring := rev (trimStart (rev s)).

Definition trim (s : jsstring) : jsstring := trimEnd (trimStart s).

(** [!value] on a string: true exactly for the empty string. *)
Definition is_empty (s : jsstring) : bool :=
  match s with [] => true | _ => false end.

(** [a === b] on strings. *)
Definition str_eq (a b : jsstring) : bool := bool_decide (a = b).

(* --------------------------------------------------------------------- *)
(** *** parseInt                                                          *)
(* --------------------------------------------------------------------- *)

(** The value of a code unit as a digit in radix [R], if it is one. *)
Definition radix_digit (R : Z) (c : N) : option Z :=
  let d :=
    if in_range 48 57 c then Z.of_N c - 48
    else if in_range 97 122 c then Z.of_N c - 97 + 10
    else if in_range 65 90 c then Z.of_N c - 65 + 10
    else R in
  if d <? R then Some d else None.

(** The longest prefix made of radix-[R] digits, as digit values. *)
Fixpoint digits_prefix (R : Z) (s : jsstring) : list Z :=
  match s with
  | c :: s' =>
      match radix_digit R c with
      | Some d => d :: digits_prefix R s'
      | None => []
      end
  | [] => []
  end.

Definition digits_value (R : Z) (ds : list Z) : Z :=
  fold_left (fun acc d => acc * R + d) ds 0.

(** [parseInt(string)] with the radix left undefined.  [None] is NaN.  The
    result is kept as the mathematical integer: the script only compares it
    with 13 and 120, which rounding to a double preserves. *)
Definition parseInt (input : jsstring) : option Z :=
  let S0 := trimStart input in
  let '(sign, S1) :=
    match S0 with
    | c :: rest =>
        if (c =? 45)%N then (-1, rest)
        else if (c =? 43)%N then (1, rest)
        else (1, S0)
    | [] => (1, S0)
    end in
  let '(R, S2) :=
    match S1 with
    | c0 :: c1 :: rest =>
        if ((c0 =? 48) && ((c1 =? 120) || (c1 =? 88)))%N then (16, rest)
        else (10, S1)
    | _ => (10, S1)
    end in
  match digits_prefix R S2 with
  | [] => None
  | ds => Some (sign * digits_value R ds)
  end.

(* --------------------------------------------------------------------- *)
(** *** Regular expressions                                               *)
(* --------------------------------------------------------------------- *)

(** Members of a bracket class. *)
Inductive class_atom :=
  | CChar (c : ascii)            (* a literal character *)
  | CRange (lo hi : ascii)       (* lo-hi *)
  | CDigit                       (* \d *)
  | CSpace.                      (* \s *)

Inductive charset :=
  | CSet (atoms : list class_atom)    (* [...] *)
  | CNot (atoms : list class_atom)    (* [^...] *)
  | CDot.                             (* . without the s flag *)

Definition in_atom (a : class_atom) (c : N) : bool :=
  match a with
  | CChar x => (c =? chr x)%N
  | CRange lo hi => in_range (chr lo) (chr hi) c
  | CDigit => in_range 48 57 c
  | CSpace => is_white_space c
  end.

Definition in_charset (cs : charset) (c : N) : bool :=
  match cs with
  | CSet atoms => existsb (fun a => in_atom a c) atoms
  | CNot atoms => negb (existsb (fun a => in_atom a c) atoms)
  | CDot => negb (is_line_terminator c)
  end.

(** The fragment of the pattern language the script uses.  Every quantifier
    of the script applies to a single-character atom. *)
Inductive regex :=
  | RBol                                              (* ^ *)
  | REol                                              (* $ *)
  | RChar (c : ascii)                                 (* literal *)
  | RSet (cs : charset)                               (* class, once *)
  | RRep (cs : charset) (lo : nat) (hi : option nat)  (* greedy {lo,hi} *)
  | RSeq (r1 r2 : regex)
  | RLook (r : regex)                                 (* (?=r) *)
  | RGroup (r : regex).                               (* (r) *)

Definition star cs := RRep cs 0 None.
Definition plus cs := RRep cs 1 None.
Definition opt cs := RRep cs 0 (Some 1%nat).
Definition exactly n cs := RRep cs n (Some n).
Definition at_least n cs := RRep cs n None.

Fixpoint seq_of (rs : list regex) : regex :=
  match rs with
  | [] => RRep CDot 0 (Some 0%nat)
  | [r] => r
  | r :: rs' => RSeq r (seq_of rs')
  end.

(** A matcher position: whether it is the start of the input, and the
    input that remains. *)
Definition position := (bool * jsstring)%type.

(** All ways a greedy repetition of one-character matches can end, the
    longest first. *)
Fixpoint rep (p : N -> bool) (lo : nat) (hi : option nat)
    (bos : bool) (s : jsstring) : list position :=
  let stop := match lo with O => [(bos, s)] | _ => [] end in
  match hi with
  | Some O => stop
  | _ =>
      match s with
      | c :: s' =>
          if p c then rep p (Nat.pred lo) (Nat.pred <$> hi) false s' ++ stop
          else stop
      | [] => stop
      end
  end.

(** Backtracking semantics: the positions at which a match of [r] started
    at [pos] can end, in the order a backtracking matcher tries them. *)
Fixpoint rmatch (r : regex) (pos : position) : list position :=
  match r with
  | RBol => if pos.1 then [pos] else []
  | REol => match pos.2 with [] => [pos] | _ => [] end
  | RChar x =>
      match pos.2 with
      | c :: s' => if (c =? chr x)%N then [(false, s')] else []
      | [] => []
      end
  | RSet cs =>
      match pos.2 with
      | c :: s' => if in_charset cs c then [(false, s')] else []
      | [] => []
      end
  | RRep cs lo hi => rep (in_charset cs) lo hi pos.1 pos.2
  | RSeq r1 r2 => flat_map (rmatch r2) (rmatch r1 pos)
  | RLook r' => match rmatch r' pos with [] => [] | _ => [pos] end
  | RGroup r' => rmatch r' pos
  end.

Definition matches_at (r : regex) (pos : position) : bool :=
  match rmatch r pos with [] => false | _ => true end.

(** [r.test(s)] for a pattern without flags: a match may start anywhere. *)
Fixpoint test_from (r : regex) (bos : bool) (s : jsstring) : bool :=
  matches_at r (bos, s) ||
  match s with
  | _ :: s' => test_from r false s'
  | [] => false
  end.

Definition test (r : regex) (s : jsstring) : bool := test_from r true s.

End JS.

Import JS.

(* ===================================================================== *)
(** ** The rules of [validateField]                                       *)
(* ===================================================================== *)

(** [/^[a-zA-Z\s]+$/] *)
Definition fullnameRegex : regex :=
  seq_of [RBol; plus (CSet [CRange "a" "z"; CRange "A" "Z"; CSpace]); REol].

(** [/^[^\s@]+@[^\s@]+\.[^\s@]+$/] *)
Definition emailRegex : regex :=
  seq_of [RBol; plus (CNot [CSpace; CChar "@"]); RChar "@";
          plus (CNot [CSpace; CChar "@"]); RChar ".";
          plus (CNot [CSpace; CChar "@"]); REol].

(** The symbols of the password pattern: [@$!%*?&]. *)
Definition password_symbols : list class_atom :=
  [CChar "@"; CChar "$"; CChar "!"; CChar "%"; CChar "*"; CChar "?"; CChar "&"].

(** [/^(?=.*[a-z])(?=.*[A-Z])(?=.*\d)(?=.*[@$!%*?&])[A-Za-z\d@$!%*?&]{8,}$/] *)
Definition passwordRegex : regex :=
  seq_of [RBol;
          RLook (RSeq (star CDot) (RSet (CSet [CRange "a" "z"])));
          RLook (RSeq (star CDot) (RSet (CSet [CRange "A" "Z"])));
          RLook (RSeq (star CDot) (RSet (CSet [CDigit])));
          RLook (RSeq (star CDot) (RSet (CSet password_symbols)));
          at_least 8 (CSet ([CRange "A" "Z"; CRange "a" "z"; CDigit]
                            ++ password_symbols));
          REol].

(** [/^\(?([0-9]{3})\)?[-. ]?([0-9]{3})[-. ]?([0-9]{4})$/] *)
Definition phoneRegex : regex :=
  seq_of [RBol; opt (CSet [CChar "("]);
          RGroup (exactly 3 (CSet [CRange "0" "9"]));
          opt (CSet [CChar ")"]);
          opt (CSet [CChar "-"; CChar "."; CChar " "]);
          RGroup (exactly 3 (CSet [CRange "0" "9"]));
          opt (CSet [CChar "-"; CChar "."; CChar " "]);
          RGroup (exactly 4 (CSet [CRange "0" "9"]));
          REol].

(** Each case of the [switch]: the pair [(isValid, errorMessage)] it leaves. *)

Definition check_fullname (value : jsstring) : bool * string :=
  if (length (trim value) <? 2)%nat then
    (false, "Full name must be at least 2 characters long.")
  else if negb (test fullnameRegex (trim value)) then
    (false, "Full name can only contain letters and spaces.")
  else (true, "").

Definition check_email (value : jsstring) : bool * string :=
  if is_empty (trim value) then (false, "Email address is required.")
  else if negb (test emailRegex value) then
    (false, "Please enter a valid email address.")
  else (true, "").

Definition check_password (value : jsstring) : bool * string :=
  if (length value <? 8)%nat then
    (false, "Password must be at least 8 characters long.")
  else if negb (test passwordRegex value) then
    (false, "Password must contain uppercase, lowercase, number, and special character.")
  else (true, "").

Definition check_confirmPassword (value passwordValue : jsstring)
    : bool * string :=
  if is_empty value then (false, "Please confirm your password.")
  else if negb (str_eq value passwordValue) then
    (false, "Passwords do not match.")
  else (true, "").

Definition check_age (value : jsstring) : bool * string :=
  let ageNum := parseInt value in
  if is_empty value then (false, "Age is required.")
  else if match ageNum with
          | None => true
          | Some n => (n <? 13) || (n >? 120)
          end then
    (false, "Age must be between 13 and 120.")
  else (true, "").

Definition check_phone (value : jsstring) : bool * string :=
  if str_eq (trim value) [] then (true, "")
  else if negb (test phoneRegex value) then
    (false, "Please enter a valid phone number (e.g., (123) 456-7890).")
  else (true, "").

(* ===================================================================== *)
(** ** The password pattern, read as a predicate                          *)
(* ===================================================================== *)

Definition is_lower (c : N) : bool := in_range 97 122 c.
Definition is_upper (c : N) : bool := in_range 65 90 c.
Definition is_digit (c : N) : bool := in_range 48 57 c.

(** One of [@ $ ! % * ? &]. *)
Definition is_symbol (c : N) : bool := existsb (N.eqb c) (lit "@$!%*?&").

(** An ASCII letter, a digit or one of the seven symbols. *)
Definition is_password_char (c : N) : bool :=
  is_upper c || is_lower c || is_digit c || is_symbol c.

Definition password_ok (s : jsstring) : bool :=
  (8 <=? length s)%nat && forallb is_password_char s
  && existsb is_lower s && existsb is_upper s
  && existsb is_digit s && existsb is_symbol s.

(* ===================================================================== *)
(** ** The page: elements, the validation state, timers                   *)
(* ===================================================================== *)

(** The properties of a DOM element the script reads or writes. *)
Record Element := mkElement {
  value : jsstring;          (* input.value *)
  defaultValue : jsstring;   (* what form.reset() restores *)
  classList : list string;
  textContent : string;
  disabled : bool;
  display : string           (* style.display *)
}.

Definition set_value v e :=
  mkElement v (defaultValue e) (classList e) (textContent e) (disabled e) (display e).
Definition set_classList c e :=
  mkElement (value e) (defaultValue e) c (textContent e) (disabled e) (display e).
Definition set_textContent t e :=
  mkElement (value e) (defaultValue e) (classList e) t (disabled e) (display e).
Definition set_disabled b e :=
  mkElement (value e) (defaultValue e) (classList e) (textContent e) b (display e).
Definition set_display d e :=
  mkElement (value e) (defaultValue e) (classList e) (textContent e) (disabled e) d.

(** [classList.add(c)] and [classList.remove(c1, c2, ...)]. *)
Definition class_add (c : string) (e : Element) : Element :=
  set_classList (if bool_decide (c ∈ classList e) then classList e
                 else classList e ++ [c]) e.
Definition class_remove (cs : list string) (e : Element) : Element :=
  set_classList (filter (fun c => c ∉ cs) (classList e)) e.

(** A JavaScript object with string keys: insertion order is kept, an
    assignment to an existing key updates it in place, to a new key
    appends. *)
Definition object (V : Type) := list (string * V).

Fixpoint obj_get {V} (k : string) (o : object V) : option V :=
  match o with
  | (k', v) :: o' => if String.eqb k k' then Some v else obj_get k o'
  | [] => None
  end.

Fixpoint obj_set {V} (k : string) (v : V) (o : object V) : object V :=
  match o with
  | (k', v') :: o' =>
      if String.eqb k k' then (k', v) :: o' else (k', v') :: obj_set k v o'
  | [] => [(k, v)]
  end.

Definition keys {V} (o : object V) : list string := List.map fst o.

(** The callbacks the script hands to [setTimeout]. *)
Inductive Task :=
  | RemoveShake     (* () => form.classList.remove('shake') *)
  | ResetForm.      (* the reset closure of showSuccessMessage *)

Record State := mkState {
  document : gmap string Element;      (* elements by id *)
  validationState : object bool;
  timers : list (nat * Task)           (* pending timeouts, with their delay *)
}.

Definition with_document d st := mkState d (validationState st) (timers st).
Definition with_validationState vs st := mkState (document st) vs (timers st).
Definition with_timers ts st := mkState (document st) (validationState st) ts.

(* --------------------------------------------------------------------- *)
(** *** Handlers run in a state monad that can throw                      *)
(* --------------------------------------------------------------------- *)

(** A handler either returns, or throws a TypeError; the effects done
    before the throw stay. *)
Inductive outcome (A : Type) :=
  | Returns (a : A) (st : State)
  | Throws (st : State).
Arguments Returns {A} a st.
Arguments Throws {A} st.

Definition M (A : Type) := State -> outcome A.

Definition ret {A} (a : A) : M A := fun st => Returns a st.
Definition bind {A B} (m : M A) (k : A -> M B) : M B :=
  fun st => match m st with
            | Returns a st' => k a st'
            | Throws st' => Throws st'
            end.

Declare Scope js_scope.
Delimit Scope js_scope with js.
Notation "x <- m ;; k" := (bind m (fun x => k))
  (at level 100, m at next level, k at level 200, right associativity) : js_scope.
Notation "m ;; k" := (bind m (fun _ => k))
  (at level 100, k at level 200, right associativity) : js_scope.
Open Scope js_scope.

(** A reference to an element: [None] is null or undefined. *)
Definition ref := option string.

(** [document.getElementById(id)]: null when no element has the id. *)
Definition getElementById (id : string) : M ref :=
  fun st => Returns (match document st !! id with
                     | Some _ => Some id
                     | None => None
                     end) st.

(** Reading a property of [r]; a TypeError on null. *)
Definition read {A} (r : ref) (prop : Element -> A) : M A :=
  fun st => match r ≫= (fun id => document st !! id) with
            | Some e => Returns (prop e) st
            | None => Throws st
            end.

(** Writing to [r] (a property assignment or a classList call); a
    TypeError on null. *)
Definition write (r : ref) (f : Element -> Element) : M unit :=
  fun st => match r with
            | Some id =>
                match document st !! id with
                | Some e => Returns tt (with_document (<[id := f e]> (document st)) st)
                | None => Throws st
                end
            | None => Throws st
            end.

Definition setTimeout (t : Task) (delay : nat) : M unit :=
  fun st => Returns tt (with_timers (timers st ++ [(delay, t)]) st).

(** [xs.forEach(x => body(x))]. *)
Fixpoint forEach {A} (xs : list A) (body : A -> M unit) : M unit :=
  match xs with
  | [] => ret tt
  | x :: xs' => body x ;; forEach xs' body
  end.

(* ===================================================================== *)
(** ** initializeFormValidation                                           *)
(* ===================================================================== *)

Definition form : ref := Some "user-form".
Definition submitBtn : ref := Some "submit-btn".
Definition successMessage : ref := Some "form-success".

(** [fields]: field name to the element looked up for it. *)
Definition fields : object string :=
  [("fullname", "fullname"); ("email", "email"); ("password", "password");
   ("confirmPassword", "confirm-password"); ("age", "age"); ("phone", "phone")].

(** [fields[fieldName]]. *)
Definition field_ref (fieldName : string) : ref := obj_get fieldName fields.

(** The initial [validationState]. *)
Definition initialValidationState : object bool :=
  [("fullname", false); ("email", false); ("password", false);
   ("confirmPassword", false); ("age", false);
   ("phone", true)].

Definition updateFieldAppearance (field errorElement : ref)
    (isValid : bool) (errorMessage : string) : M unit :=
  write field (class_remove ["valid"; "invalid"]) ;;
  v <- read field value ;;
  if negb (is_empty (trim v)) then
    if isValid then
      write field (class_add "valid") ;;
      write errorElement (set_textContent "")
    else
      write field (class_add "invalid") ;;
      write errorElement (set_textContent errorMessage)
  else
    write errorElement (set_textContent "").

(** The [switch] of [validateField]: [(isValid, errorMessage)]. *)
Definition check (fieldName : string) (v : jsstring) : M (bool * string) :=
  if String.eqb fieldName "fullname" then ret (check_fullname v)
  else if String.eqb fieldName "email" then ret (check_email v)
  else if String.eqb fieldName "password" then ret (check_password v)
  else if String.eqb fieldName "confirmPassword" then
    passwordValue <- read (field_ref "password") value ;;
    ret (check_confirmPassword v passwordValue)
  else if String.eqb fieldName "age" then ret (check_age v)
  else if String.eqb fieldName "phone" then ret (check_phone v)
  else ret (false, "").

Definition errorElementId (fieldName : string) : string :=
  if String.eqb fieldName "confirmPassword" then "confirm-password-error"
  else fieldName ++ "-error".

Definition validateField (fieldName : string) (v : jsstring) : M bool :=
  let field := field_ref fieldName in
  errorElement <- getElementById (errorElementId fieldName) ;;
  r <- check fieldName v ;;
  let '(isValid, errorMessage) := r in
  updateFieldAppearance field errorElement isValid errorMessage ;;
  (fun st => Returns tt
     (with_validationState (obj_set fieldName isValid (validationState st)) st)) ;;
  ret isValid.

Definition requiredFields : list string :=
  ["fullname"; "email"; "password"; "confirmPassword"; "age"].

(** [validationState[field]] as a condition: undefined is falsy. *)
Definition truthy (b : option bool) : bool := default false b.

Definition allRequiredValid (vs : object bool) : bool :=
  forallb (fun f => truthy (obj_get f vs)) requiredFields.

Definition updateSubmitButton : M unit :=
  fun st =>
    let ok := allRequiredValid (validationState st) in
    (write submitBtn (set_disabled (negb ok)) ;;
     if ok then write submitBtn (set_textContent "✅ Submit Form")
     else write submitBtn (set_textContent "📋 Complete Required Fields")) st.

(** The listener installed for both 'input' and 'blur' on each field. *)
Definition on_field_event (fieldName : string) : M unit :=
  v <- read (field_ref fieldName) value ;;
  validateField fieldName v ;;
  updateSubmitButton.

(** [form.reset()]: every control of the form goes back to its default. *)
Definition form_reset : M unit :=
  write form (fun e => e) ;;
  fun st =>
    Returns tt
      (with_document
         (fold_right (fun id d => alter (fun e => set_value (defaultValue e) e) id d)
                     (document st) (List.map snd fields)) st).

(** The body of the loop over [Object.keys(validationState)] in the reset
    closure. *)
Definition reset_entry (field : string) : M unit :=
  (fun st => Returns tt
     (with_validationState (obj_set field false (validationState st)) st)) ;;
  write (field_ref field) (class_remove ["valid"; "invalid"]) ;;
  e <- getElementById (field ++ "-error") ;;
  write e (set_textContent "").

(** The closure scheduled by [showSuccessMessage]. *)
Definition resetForm : M unit :=
  form_reset ;;
  write form (set_display "block") ;;
  write successMessage (set_display "none") ;;
  ks <- (fun st => Returns (keys (validationState st)) st) ;;
  forEach ks reset_entry ;;
  updateSubmitButton.

Definition showSuccessMessage : M unit :=
  write form (set_display "none") ;;
  write successMessage (set_display "block") ;;
  setTimeout ResetForm 5000.

(** The loop of the submit listener: validates every field and leaves
    [allValid]. *)
Fixpoint validate_all (names : list string) (allValid : bool) : M bool :=
  match names with
  | [] => ret allValid
  | fieldName :: rest =>
      v <- read (field_ref fieldName) value ;;
      isValid <- validateField fieldName v ;;
      validate_all rest (if negb isValid then false else allValid)
  end.

(** The 'submit' listener. *)
Definition on_submit : M unit :=
  allValid <- validate_all (keys fields) true ;;
  if allValid then showSuccessMessage
  else
    write form (class_add "shake") ;;
    setTimeout RemoveShake 500.

Definition run_task (t : Task) : M unit :=
  match t with
  | RemoveShake => write form (class_remove ["shake"])
  | ResetForm => resetForm
  end.

(** The [i]-th pending timeout fires and leaves the queue (which one is
    due first depends on elapsed time, which is not modelled). *)
Definition fire_timer (i : nat) : M unit :=
  fun st =>
    match timers st !! i with
    | None => Returns tt st
    | Some (_, t) => run_task t (with_timers (delete i (timers st)) st)
    end.

(** The user edits a field: the control takes the new value, then the
    'input' listener runs. *)
Definition input_event (fieldName : string) (v : jsstring) : M unit :=
  write (field_ref fieldName) (set_value v) ;;
  on_field_event fieldName.

Definition blur_event (fieldName : string) : M unit :=
  on_field_event fieldName.

(** State left by a handler, whether it returned or threw. *)
Definition final {A} (o : outcome A) : State :=
  match o with Returns _ st => st | Throws st => st end.

Definition returned {A} (o : outcome A) : bool :=
  match o with Returns _ _ => true | Throws _ => false end.

(* --------------------------------------------------------------------- *)
(** *** A concrete page                                                   *)
(* --------------------------------------------------------------------- *)

Definition blank : Element := mkElement [] [] [] "" false "".

(** Ids of the elements the script looks up while wiring and validating. *)
Definition page_ids : list string :=
  ["user-form"; "submit-btn"; "form-success";
   "fullname"; "email"; "password"; "confirm-password"; "age"; "phone";
   "fullname-error"; "email-error"; "password-error";
   "confirm-password-error"; "age-error"; "phone-error"].

(** A document with exactly those elements, and the state right after
    [initializeFormValidation] ran on it. *)
Definition page : gmap string Element :=
  list_to_map (List.map (fun id => (id, blank)) page_ids).

Definition mount : State := mkState page initialValidationState [].

(** Running a sequence of events, each from the state the previous left. *)
Definition after (evs : list (M unit)) (st : State) : State :=
  fold_left (fun s ev => final (ev s)) evs st.

Definition stored (fieldName : string) (st : State) : option bool :=
  obj_get fieldName (validationState st).

Definition value_of (fieldName : string) (st : State) : jsstring :=
  default [] (value <$> (field_ref fieldName ≫= fun id => document st !! id)).

(* ===================================================================== *)
(** ** Vocabulary of the statements                                       *)
(* ===================================================================== *)

(** The page has every element the script looks up. *)
Definition page_ok (st : State) : Prop :=
  Forall (fun id => is_Some (document st !! id)) page_ids.

(** The controls hold the same text in both states (and the same elements
    exist). *)
Definition same_values (st st' : State) : Prop :=
  forall id, value <$> (document st !! id) = value <$> (document st' !! id).

(** Only decorations moved: timers and control values are as before. *)
Definition keeps (st st' : State) : Prop :=
  timers st' = timers st /\ same_values st st'.

(** The validity the [switch] computes for a field from what the page
    currently holds. *)
Definition verdict (fieldName : string) (st : State) : bool :=
  match check fieldName (value_of fieldName st) st with
  | Returns r _ => r.1
  | Throws _ => false
  end.

(** [validationState] after [validateField] ran for each of [names]. *)
Definition revalidated (names : list string) (st : State)
    (vs : object bool) : object bool :=
  fold_left (fun o n => obj_set n (verdict n st) o) names vs.

(** The value of [allValid] when the submit listener reaches its [if]. *)
Definition submit_allValid (st : State) : bool :=
  match validate_all (keys fields) true st with
  | Returns b _ => b
  | Throws _ => false
  end.

Ltac in_list := cbn; repeat (first [left; reflexivity | right]).

(** The same elements exist in both states. *)
Definition same_elements (st st' : State) : Prop :=
  forall id, document st !! id = None <-> document st' !! id = None.

(** The leading run of decimal digits of a string. *)
Fixpoint leading_digits (s : jsstring) : jsstring :=
  match s with
  | c :: s' => if is_digit c then c :: leading_digits s' else []
  | [] => []
  end.

(** The number a run of decimal digits denotes. *)
Definition decimal_value (ds : jsstring) : Z :=
  fold_left (fun acc c => acc * 10 + (Z.of_N c - 48)) ds 0.

(** A verdict comes with an empty message when valid and a non-empty one
    when invalid. *)
Definition result_ok (r : bool * string) : Prop :=
  if r.1 then r.2 = "" else r.2 <> "".

(* --------------------------------------------------------------------- *)
(** *** Scenarios on the concrete page                                    *)
(* --------------------------------------------------------------------- *)

(** All five required fields filled in validly, the phone left blank. *)
Definition filled : State :=
  after [input_event "fullname" (lit "Jo");
         input_event "email" (lit "a@b.co");
         input_event "password" (lit "Abcd12!@");
         input_event "confirmPassword" (lit "Abcd12!@");
         input_event "age" (lit "13")] mount.

(** ... then a malformed phone number is typed. *)
Definition filled_bad_phone : State :=
  after [input_event "phone" (lit "12345")] filled.

(** ... or the password is edited after it was confirmed. *)
Definition password_edited : State :=
  after [input_event "password" (lit "Abcd12!@x")] filled.

(** ... or the form is submitted. *)
Definition submitted : State := after [on_submit] filled.

(* ===================================================================== *)
(** ** What a pattern denotes                                             *)
(* ===================================================================== *)

(** A repetition count allowed by the upper bound of a quantifier. *)
Definition within (hi : option nat) (n : nat) : Prop :=
  match hi with Some h => (n <= h)%nat | None => True end.

(** [denote r bos pre rest]: the pattern [r] can consume exactly [pre] when
    [rest] follows it; [bos] tells whether [pre] starts the input. *)
Fixpoint denote (r : regex) (bos : bool) (pre rest : jsstring) : Prop :=
  match r with
  | RBol => pre = [] /\ bos = true
  | REol => pre = [] /\ rest = []
  | RChar x => pre = [chr x]
  | RSet cs => exists c, pre = [c] /\ in_charset cs c = true
  | RRep cs lo hi =>
      forallb (in_charset cs) pre = true /\ (lo <= length pre)%nat /\
      within hi (length pre)
  | RSeq r1 r2 =>
      exists p1 p2, pre = p1 ++ p2 /\ denote r1 bos p1 (p2 ++ rest) /\
                    denote r2 (bos && is_empty p1) p2 rest
  | RLook r' =>
      pre = [] /\ exists p rest', rest = p ++ rest' /\ denote r' bos p rest'
  | RGroup r' => denote r' bos pre rest
  end.

(** An ASCII letter or a white space: the class of the full-name pattern. *)
Definition is_name_char (c : N) : bool :=
  is_lower c || is_upper c || is_white_space c.

(** Neither white space nor [@]: the class of the e-mail pattern. *)
Definition is_email_char (c : N) : bool :=
  negb (is_white_space c || (c =? chr "@")%N).

(** [local@domain.tld] with three non-empty runs of e-mail characters. *)
Definition email_shape (v : jsstring) : Prop :=
  exists loc dom tld,
    v = loc ++ lit "@" ++ dom ++ lit "." ++ tld /\
    loc <> [] /\ dom <> [] /\ tld <> [] /\
    forallb is_email_char loc = true /\ forallb is_email_char dom = true /\
    forallb is_email_char tld = true.

(** One of [-], [.], space: the separators of the phone pattern. *)
Definition is_phone_sep (c : N) : bool :=
  (c =? chr "-")%N || (c =? chr ".")%N || (c =? chr " ")%N.

(** At most one code unit, satisfying [p]. *)
Definition optional (p : N -> bool) (s : jsstring) : Prop :=
  s = [] \/ exists c, s = [c] /\ p c = true.

(** Exactly [n] decimal digits. *)
Definition digit_run (n : nat) (s : jsstring) : Prop :=
  length s = n /\ forallb is_digit s = true.

(** An optional [(], three digits, an optional [)], an optional separator,
    three digits, an optional separator, four digits. *)
Definition phone_shape (v : jsstring) : Prop :=
  exists op a cl s1 b s2 d,
    v = op ++ a ++ cl ++ s1 ++ b ++ s2 ++ d /\
    optional (N.eqb (chr "(")) op /\ digit_run 3 a /\
    optional (N.eqb (chr ")")) cl /\ optional is_phone_sep s1 /\
    digit_run 3 b /\ optional is_phone_sep s2 /\ digit_run 4 d.

(** How many code units of [s] satisfy [p]. *)
Definition count_if (p : N -> bool) (s : jsstring) : nat :=
  length (List.filter p s).

(* ===================================================================== *)
(** ** What a handler leaves alone                                        *)
(* ===================================================================== *)

(** Whatever state [m] starts from, the state it ends in (returning or
    throwing) is related to it by [R]. *)
Definition preserves {A} (R : State -> State -> Prop) (m : M A) : Prop :=
  forall st, R st (final (m st)).

(** Writes through [r] that keep [value] respect [R]. *)
Definition writes_ok (R : State -> State -> Prop) (r : ref) : Prop :=
  forall f, (forall e, value (f e) = value e) -> preserves R (write r f).

(** The element [id] is exactly as it was. *)
Definition untouched (id : string) (st st' : State) : Prop :=
  document st' !! id = document st !! id.




Definition button_disabled (st : State) : option bool :=
  disabled <$> (document st !! "submit-btn").

Definition button_label (st : State) : option string :=
  textContent <$> (document st !! "submit-btn").


(** The label [updateSubmitButton] gives the button. *)
Definition label_for (ok : bool) : string :=
  if ok then "✅ Submit Form" else "📋 Complete Required Fields".

(** The value of a run of hexadecimal digits at the head of a string. *)
Definition hex_value (s : jsstring) : Z := digits_value 16 (digits_prefix 16 s).

(* ===================================================================== *)
(** ** The other widgets of the page                                      *)
(* ===================================================================== *)

(** [classList.add(c)] and [classList.remove(...)] on a list of classes. *)
Definition tokens_add (c : string) (l : list string) : list string :=
  if bool_decide (c ∈ l) then l else l ++ [c].
Definition tokens_remove (cs : list string) (l : list string) : list string :=
  filter (fun c => c ∉ cs) l.

(** [String(n)] for an integer-valued number (below 1e21 in magnitude). *)
Definition Number_toString (n : Z) : string :=
  NilZero.string_of_int (Z.to_int n).

(* --------------------------------------------------------------------- *)
(** *** PART 1: the theme toggle                                          *)
(* --------------------------------------------------------------------- *)

Module Theme.

(** What [initializeThemeToggle] reads and writes: the [data-theme]
    attribute of the body (absent is [None]), the local storage, the text
    and classes of the toggle button, the pending timeouts (each removes
    the [bounce] class). *)
Record state := mk {
  data_theme : option string;
  localStorage : gmap string string;
  toggle_text : string;
  toggle_classes : list string;
  pending : list nat
}.

Definition setTheme (theme : string) (s : state) : state :=
  mk (Some theme) (<["theme" := theme]> (localStorage s))
     (if String.eqb theme "dark" then "☀️ Light Mode" else "🌙 Dark Mode")
     (toggle_classes s) (pending s).

(** [localStorage.getItem('theme') || 'light']: a missing or empty item
    gives the default. *)
Definition savedTheme (s : state) : string :=
  match localStorage s !! "theme" with
  | Some t => if String.eqb t "" then "light" else t
  | None => "light"
  end.

Definition initializeThemeToggle (s : state) : state :=
  setTheme (savedTheme s) s.

(** The 'click' listener of the toggle. *)
Definition on_click (s : state) : state :=
  let currentTheme := data_theme s in
  let newTheme :=
    match currentTheme with
    | Some t => if String.eqb t "dark" then "light" else "dark"
    | None => "dark"
    end in
  let s1 := setTheme newTheme s in
  mk (data_theme s1) (localStorage s1) (toggle_text s1)
     (tokens_add "bounce" (toggle_classes s1)) (pending s1 ++ [500%nat]).

(** The [i]-th pending timeout fires: the [bounce] class is removed. *)
Definition fire (i : nat) (s : state) : state :=
  match pending s !! i with
  | None => s
  | Some _ =>
      mk (data_theme s) (localStorage s) (toggle_text s)
         (tokens_remove ["bounce"] (toggle_classes s)) (delete i (pending s))
  end.

Inductive event := Click | Timeout (i : nat).

Definition step (s : state) (e : event) : state :=
  match e with Click => on_click s | Timeout i => fire i s end.

Definition run (evs : list event) (s : state) : state := fold_left step evs s.

(** The page is loaded again: a fresh document [page], the storage kept. *)
Definition reload (page s : state) : state :=
  initializeThemeToggle
    (mk (data_theme page) (localStorage s) (toggle_text page)
        (toggle_classes page) []).

(** The attribute, the stored item and the label agree on a non-empty
    theme name. *)
Definition agrees (s : state) (t : string) : Prop :=
  data_theme s = Some t /\ localStorage s !! "theme" = Some t /\ t <> "" /\
  toggle_text s
  = (if String.eqb t "dark" then "☀️ Light Mode" else "🌙 Dark Mode").

End Theme.

(* --------------------------------------------------------------------- *)
(** *** PART 3: the counter                                               *)
(* --------------------------------------------------------------------- *)

Module Counter.

Inductive task :=
  | ScaleBack        (* () => display.style.transform = 'scale(1)' *)
  | ClearAnimation.  (* () => display.classList.remove('bounce', 'shake') *)

(** The closure variable [count], the text and colour of the counter value
    and the classes and transform of its parent, the display. *)
Record state := mk {
  count : Z;
  value_text : string;
  value_color : string;
  display_classes : list string;
  display_transform : string;
  pending : list (nat * task)
}.

Definition updateCounter (s : state) : state :=
  mk (count s) (Number_toString (count s))
     (if count s >? 0 then "#27ae60"
      else if count s <? 0 then "#e74c3c"
      else "#3498db")
     (display_classes s) (display_transform s) (pending s).

Definition animateCounter (action : string) (s : state) : state :=
  let s1 :=
    if String.eqb action "increment" then
      mk (count s) (value_text s) (value_color s)
         (tokens_add "bounce" (display_classes s)) (display_transform s)
         (pending s)
    else if String.eqb action "decrement" then
      mk (count s) (value_text s) (value_color s)
         (tokens_add "shake" (display_classes s)) (display_transform s)
         (pending s)
    else if String.eqb action "reset" then
      mk (count s) (value_text s) (value_color s) (display_classes s)
         "scale(1.2)" (pending s ++ [(200%nat, ScaleBack)])
    else s in
  mk (count s1) (value_text s1) (value_color s1) (display_classes s1)
     (display_transform s1) (pending s1 ++ [(500%nat, ClearAnimation)]).

Definition with_count (c : Z) (s : state) : state :=
  mk c (value_text s) (value_color s) (display_classes s)
     (display_transform s) (pending s).

Definition increment (s : state) : state :=
  animateCounter "increment" (updateCounter (with_count (count s + 1) s)).
Definition decrement (s : state) : state :=
  animateCounter "decrement" (updateCounter (with_count (count s - 1) s)).
Definition reset (s : state) : state :=
  animateCounter "reset" (updateCounter (with_count 0 s)).

Definition run_task (t : task) (s : state) : state :=
  match t with
  | ScaleBack =>
      mk (count s) (value_text s) (value_color s) (display_classes s)
         "scale(1)" (pending s)
  | ClearAnimation =>
      mk (count s) (value_text s) (value_color s)
         (tokens_remove ["bounce"; "shake"] (display_classes s))
         (display_transform s) (pending s)
  end.

Definition fire (i : nat) (s : state) : state :=
  match pending s !! i with
  | None => s
  | Some (_, t) =>
      run_task t (mk (count s) (value_text s) (value_color s)
                     (display_classes s) (display_transform s)
                     (delete i (pending s)))
  end.

Inductive event := Increment | Decrement | Reset | Timeout (i : nat).

Definition step (s : state) (e : event) : state :=
  match e with
  | Increment => increment s
  | Decrement => decrement s
  | Reset => reset s
  | Timeout i => fire i s
  end.

Definition run (evs : list event) (s : state) : state := fold_left step evs s.



(** Every animation state still has its clean-up pending. *)
Definition cleanup_pending (s : state) : Prop :=
  (("bounce" ∈ display_classes s \/ "shake" ∈ display_classes s) ->
   exists d, (d, ClearAnimation) ∈ pending s) /\
  (display_transform s = "scale(1.2)" -> exists d, (d, ScaleBack) ∈ pending s).


End Counter.

(* --------------------------------------------------------------------- *)
(** *** PART 2: the event log                                             *)
(* --------------------------------------------------------------------- *)

Module EventDemo.

(** The closure variable [clickCount], the children of the output area
    (the [innerHTML] of each), the two styles the listeners set and the
    pending timeouts (each sets the click button's transform back). *)
Record state := mk {
  clickCount : Z;
  children : list jsstring;
  click_transform : string;
  hover_background : string;
  pending : list nat
}.

(** [while (output.children.length > 11) output.removeChild(output.children[1])],
    on the children after the first, one iteration per step. *)
Fixpoint prune_after_first (rest : list jsstring) : list jsstring :=
  match rest with
  | c :: rest' =>
      if (11 <? S (length rest))%nat then prune_after_first rest' else rest
  | [] => []
  end.

Definition prune (cs : list jsstring) : list jsstring :=
  match cs with
  | [] => []
  | c0 :: rest => c0 :: prune_after_first rest
  end.

(** The [innerHTML] given to a new line. *)
Definition line (timestamp message : jsstring) : jsstring :=
  lit "<strong>[" ++ timestamp ++ lit "]</strong> " ++ message.

(** [addEventMessage(message)], the clock reading [timestamp] given. *)
Definition addEventMessage (timestamp message : jsstring) (s : state) : state :=
  mk (clickCount s) (prune (children s ++ [line timestamp message]))
     (click_transform s) (hover_background s) (pending s).

(** The events the listeners react to, with what they read from the event
    and the clock. *)
Inductive event :=
  | Click (timestamp : jsstring)
  | MouseEnter (timestamp clientX clientY : jsstring)
  | MouseLeave (timestamp : jsstring)
  | KeyUp (timestamp timestamp2 key value : jsstring)
  | Focus (timestamp : jsstring)
  | Blur (timestamp : jsstring)
  | Timeout (i : nat).

Definition digits (n : Z) : jsstring := lit (Number_toString n).

Definition on_click (ts : jsstring) (s : state) : state :=
  let s1 := mk (clickCount s + 1) (children s) (click_transform s)
               (hover_background s) (pending s) in
  let s2 := addEventMessage ts
              ([55357; 56753; 65039]%N ++ lit " Button clicked "
               ++ digits (clickCount s1) ++ lit " time(s)! Event type: "
               ++ lit "click") s1 in
  mk (clickCount s2) (children s2) "scale(0.95)" (hover_background s2)
     (pending s2 ++ [100%nat]).

Definition on_mouseenter (ts x y : jsstring) (s : state) : state :=
  let s1 := addEventMessage ts
              ([55357; 56365]%N
               ++ lit " Mouse entered the hover button! Coordinates: ("
               ++ x ++ lit ", " ++ y ++ lit ")") s in
  mk (clickCount s1) (children s1) (click_transform s1) "#e74c3c" (pending s1).

Definition on_mouseleave (ts : jsstring) (s : state) : state :=
  let s1 := addEventMessage ts
              ([55357; 56395]%N ++ lit " Mouse left the hover button!") s in
  mk (clickCount s1) (children s1) (click_transform s1) "#3498db" (pending s1).

Definition on_keyup (ts ts2 key value : jsstring) (s : state) : state :=
  let s1 := addEventMessage ts
              ([9000; 65039]%N ++ lit " Key pressed: " ++ [34%N] ++ key
               ++ [34%N] ++ lit " | Current text: " ++ [34%N] ++ value
               ++ [34%N] ++ lit " | Text length: "
               ++ digits (Z.of_nat (length value))) s in
  if str_eq key (lit "Enter") then
    addEventMessage ts2
      ([55356; 57263]%N ++ lit " Enter key detected! Form submission simulation.")
      s1
  else s1.

Definition on_focus (ts : jsstring) (s : state) : state :=
  addEventMessage ts
    ([55356; 57263]%N ++ lit " Input field focused - ready for typing!") s.

Definition on_blur (ts : jsstring) (s : state) : state :=
  addEventMessage ts ([55357; 56884]%N ++ lit " Input field lost focus.") s.

Definition fire (i : nat) (s : state) : state :=
  match pending s !! i with
  | None => s
  | Some _ =>
      mk (clickCount s) (children s) "scale(1)" (hover_background s)
         (delete i (pending s))
  end.

Definition step (s : state) (e : event) : state :=
  match e with
  | Click ts => on_click ts s
  | MouseEnter ts x y => on_mouseenter ts x y s
  | MouseLeave ts => on_mouseleave ts s
  | KeyUp ts ts2 key value => on_keyup ts ts2 key value s
  | Focus ts => on_focus ts s
  | Blur ts => on_blur ts s
  | Timeout i => fire i s
  end.

Definition run (evs : list event) (s : state) : state := fold_left step evs s.

(** The last [n] elements of a list. *)
Definition last_n {A} (n : nat) (l : list A) : list A := drop (length l - n) l.


End EventDemo.

(* --------------------------------------------------------------------- *)
(** *** PART 5: the tabs                                                  *)
(* --------------------------------------------------------------------- *)

Module Tabs.

(** What the script finds in the document: the [.tab-btn] and [.tab-panel]
    elements, the [data-tab] attribute of an element (absent is [None]) and
    the element with a given id.  Elements are named by a key of their own
    (for an element with an id, its id). *)
Record page := mkPage {
  tabButtons : list string;
  tabPanels : list string;
  data_tab : string -> option string;
  element_by_id : string -> option string
}.

Record state := mk {
  classes : string -> list string;       (* classList of each element *)
  transform : string -> string;          (* style.transform of each element *)
  pending : list (nat * string)          (* timeouts: the button to set back *)
}.

(** A listener returns or throws a TypeError; the effects before stay. *)
Inductive outcome := Returns (s : state) | Throws (s : state).

Definition final (o : outcome) : state :=
  match o with Returns s => s | Throws s => s end.

Definition remove_active (k : string) (s : state) : state :=
  mk (<[k := tokens_remove ["active"] (classes s k)]> (classes s))
     (transform s) (pending s).

Definition add_active (k : string) (s : state) : state :=
  mk (<[k := tokens_add "active" (classes s k)]> (classes s))
     (transform s) (pending s).

(** The 'click' listener of the button [this]. *)
Definition on_click (p : page) (this : string) (s : state) : outcome :=
  let targetTab := data_tab p this in
  let s1 := fold_left (fun s btn => remove_active btn s) (tabButtons p) s in
  let s2 := fold_left (fun s panel => remove_active panel s) (tabPanels p) s1 in
  let s3 := add_active this s2 in
  match element_by_id p (default "null" targetTab) with
  | None => Throws s3
  | Some target =>
      let s4 := add_active target s3 in
      Returns (mk (classes s4) (<[this := "scale(0.95)"]> (transform s4))
                  (pending s4 ++ [(100%nat, this)]))
  end.

Definition fire (i : nat) (s : state) : state :=
  match pending s !! i with
  | None => s
  | Some (_, btn) =>
      mk (classes s) (<[btn := "scale(1)"]> (transform s)) (delete i (pending s))
  end.

Definition is_active (s : state) (k : string) : Prop := "active" ∈ classes s k.

End Tabs.

(* --------------------------------------------------------------------- *)
(** *** PART 4: the FAQ accordion                                         *)
(* --------------------------------------------------------------------- *)

Module FAQ.

(** What the script finds in the document: the [.faq-question] elements,
    the parent of an element, the first [.faq-answer] inside an item and
    the first [.faq-icon] inside a question ([None] when there is none). *)
Record page := mkPage {
  faqQuestions : list string;
  parentElement : string -> string;
  faq_answer : string -> option string;
  faq_icon : string -> option string
}.

Record state := mk {
  classes : string -> list string;
  text : string -> string                (* textContent of each element *)
}.

Inductive outcome := Returns (s : state) | Throws (s : state).

Definition final (o : outcome) : state :=
  match o with Returns s => s | Throws s => s end.

Definition remove_active (k : string) (s : state) : state :=
  mk (<[k := tokens_remove ["active"] (classes s k)]> (classes s)) (text s).

Definition add_active (k : string) (s : state) : state :=
  mk (<[k := tokens_add "active" (classes s k)]> (classes s)) (text s).

Definition set_text (k : string) (t : string) (s : state) : state :=
  mk (classes s) (<[k := t]> (text s)).

(** The inner [forEach]: every other item is closed. *)
Fixpoint close_others (p : page) (faqItem : string) (qs : list string)
    (s : state) : outcome :=
  match qs with
  | [] => Returns s
  | otherQuestion :: qs' =>
      let otherItem := parentElement p otherQuestion in
      let otherAnswer := faq_answer p otherItem in
      let otherIcon := faq_icon p otherQuestion in
      if bool_decide (otherItem <> faqItem) then
        let s1 := remove_active otherItem s in
        match otherAnswer with
        | None => Throws s1
        | Some a =>
            let s2 := remove_active a s1 in
            match otherIcon with
            | None => Throws s2
            | Some i => close_others p faqItem qs' (set_text i "+" s2)
            end
        end
      else close_others p faqItem qs' s
  end.

(** The 'click' listener of the question [this]. *)
Definition on_click (p : page) (this : string) (s : state) : outcome :=
  let faqItem := parentElement p this in
  let answer := faq_answer p faqItem in
  let icon := faq_icon p this in
  let isActive := bool_decide ("active" ∈ classes s faqItem) in
  match close_others p faqItem (faqQuestions p) s with
  | Throws s' => Throws s'
  | Returns s0 =>
      if negb isActive then
        let s1 := add_active faqItem s0 in
        match answer with
        | None => Throws s1
        | Some a =>
            let s2 := add_active a s1 in
            match icon with
            | None => Throws s2
            | Some i => Returns (set_text i "−" s2)
            end
        end
      else
        let s1 := remove_active faqItem s0 in
        match answer with
        | None => Throws s1
        | Some a =>
            let s2 := remove_active a s1 in
            match icon with
            | None => Throws s2
            | Some i => Returns (set_text i "+" s2)
            end
        end
  end.

Definition is_active (s : state) (k : string) : Prop := "active" ∈ classes s k.

(** Every question has its own answer and icon: answers are not items, and
    different items have different answers and icons. *)
Definition well_formed (p : page) : Prop :=
  (forall q, In q (faqQuestions p) ->
     is_Some (faq_answer p (parentElement p q)) /\ is_Some (faq_icon p q)) /\
  (forall q1 q2, In q1 (faqQuestions p) -> In q2 (faqQuestions p) ->
     faq_answer p (parentElement p q1) <> Some (parentElement p q2)) /\
  (forall q1 q2, In q1 (faqQuestions p) -> In q2 (faqQuestions p) ->
     parentElement p q1 <> parentElement p q2 ->
     faq_answer p (parentElement p q1) <> faq_answer p (parentElement p q2) /\
     faq_icon p q1 <> faq_icon p q2).

End FAQ.

(** A page with three questions, each in its own item with an answer and
    an icon. *)
Definition faq_example : FAQ.page :=
  FAQ.mkPage ["q1"; "q2"; "q3"]
    (fun k => if String.eqb k "q1" then "item1"
              else if String.eqb k "q2" then "item2"
              else if String.eqb k "q3" then "item3" else "body")
    (fun k => if String.eqb k "item1" then Some "answer1"
              else if String.eqb k "item2" then Some "answer2"
              else if String.eqb k "item3" then Some "answer3" else None)
    (fun k => if String.eqb k "q1" then Some "icon1"
              else if String.eqb k "q2" then Some "icon2"
              else if String.eqb k "q3" then Some "icon3" else None).

(** The default value of the control of a field. *)
Definition default_of (fieldName : string) (st : State) : jsstring :=
  default [] (defaultValue <$> (field_ref fieldName ≫= fun id => document st !! id)).

(* ===================================================================== *)
(** ** The rules on examples                                              *)
(* ===================================================================== *)

Example fullname_examples :
  (check_fullname (lit "Jo")).1 = true /\
  (check_fullname (lit "J")).1 = false /\
  (check_fullname (lit "John3")).1 = false /\
  (check_fullname (lit "  Mary Ann ")).1 = true.
Proof. vm_compute. repeat split. Qed.

Example email_examples :
  (check_email (lit "a@b.co")).1 = true /\
  (check_email (lit "")).1 = false /\
  (check_email (lit "a@b")).1 = false /\
  (check_email (lit "a@b@c.d")).1 = false.
Proof. vm_compute. repeat split. Qed.

Example phone_examples :
  (check_phone (lit "")).1 = true /\
  (check_phone (lit "(123) 456-7890")).1 = true /\
  (check_phone (lit "123.456.7890")).1 = true /\
  (check_phone (lit "12345")).1 = false.
Proof. vm_compute. repeat split. Qed.

Example password_examples :
  (check_password (lit "Abc12345")).1 = false /\
  (check_password (lit "Abcd12!@")).1 = true /\
  (check_password (lit "short1!")).1 = false /\
  (check_password (lit "Abcd12!@#")).1 = false.
Proof. vm_compute. repeat split. Qed.

Example age_examples :
  parseInt (lit "13") = Some 13 /\ parseInt (lit "abc") = None /\
  parseInt (lit " -12x") = Some (-12) /\ parseInt (lit "0x1F") = Some 31 /\
  parseInt (lit "15.5") = Some 15 /\ parseInt (lit "") = None.
Proof. vm_compute. repeat split. Qed.

(* ===================================================================== *)
(** ** Facts about the matcher                                            *)
(* ===================================================================== *)

Section MatcherFacts.

Implicit Types (p : N -> bool) (s pre rest : jsstring) (pos q : position).

(** Where an unbounded greedy repetition can stop: after any prefix of at
    least [lo] code units that all satisfy [p]. *)
Lemma rep_unbounded_spec p lo bos s q :
  In q (rep p lo None bos s) <->
  exists pre, s = pre ++ q.2 /\ forallb p pre = true /\
              (lo <= length pre)%nat /\ q.1 = bos && is_empty pre.
Proof.
  revert lo bos. induction s as [|c s IH]; intros lo bos.
  - cbn [rep]. split.
    + destruct lo; cbn; [|tauto]. intros [<-|[]]. exists []. cbn.
      rewrite andb_true_r. auto with arith.
    + intros (pre & Hs & _ & Hlo & Hb).
      symmetry in Hs. apply app_eq_nil in Hs as [-> Hq]. cbn in *.
      destruct lo; [|lia]. left. destruct q as [b r]; cbn in *.
      rewrite andb_true_r in Hb. congruence.
  - cbn [rep]. destruct (p c) eqn:Hc.
    + rewrite in_app_iff, IH. split.
      * intros [(pre & Hs & Hp & Hlo & Hb)|Hstop].
        -- exists (c :: pre). cbn. rewrite Hc, Hp, Hs, andb_false_r.
           cbn in Hb. repeat split; [lia | done].
        -- destruct lo; cbn in Hstop; [|tauto]. destruct Hstop as [<-|[]].
           exists []. cbn. rewrite andb_true_r. auto with arith.
      * intros (pre & Hs & Hp & Hlo & Hb). destruct pre as [|c' pre].
        -- right. cbn in *. destruct lo; [|lia]. left.
           destruct q as [b r]; cbn in *. rewrite andb_true_r in Hb. congruence.
        -- left. cbn in Hs, Hp, Hlo, Hb. injection Hs as <- Hs.
           apply andb_true_iff in Hp as [_ Hp]. rewrite andb_false_r in Hb.
           exists pre. cbn. repeat split; [done|done|lia|done].
    + split.
      * destruct lo; cbn; [|tauto]. intros [<-|[]]. exists []. cbn.
        rewrite andb_true_r. auto with arith.
      * intros (pre & Hs & Hp & Hlo & Hb). destruct pre as [|c' pre].
        -- cbn in *. destruct lo; [|lia]. left.
           destruct q as [b r]; cbn in *. rewrite andb_true_r in Hb. congruence.
        -- cbn in Hs, Hp. injection Hs as <- Hs. rewrite Hc in Hp. done.
Qed.

Lemma matches_at_true r pos :
  matches_at r pos = true <-> exists q, In q (rmatch r pos).
Proof.
  unfold matches_at. destruct (rmatch r pos) as [|q l]; split.
  - done.
  - intros [q []].
  - exists q. now left.
  - done.
Qed.

(** A pattern that opens with [^] cannot match from a later position. *)
Lemma bol_anchor r s : test_from (RSeq RBol r) false s = false.
Proof. induction s as [|c s IH]; cbn; [done | exact IH]. Qed.

Lemma test_anchored r s :
  test (RSeq RBol r) s = matches_at r (true, s).
Proof.
  unfold test. destruct s as [|c s]; cbn [test_from].
  - unfold matches_at. cbn. rewrite app_nil_r, orb_false_r. done.
  - rewrite bol_anchor, orb_false_r. unfold matches_at. cbn.
    rewrite app_nil_r. done.
Qed.

(** A lookahead in front of [r] filters the start position without moving. *)
Lemma look_seq_spec l r pos q :
  In q (rmatch (RSeq (RLook l) r) pos) <->
  matches_at l pos = true /\ In q (rmatch r pos).
Proof.
  cbn [rmatch]. unfold matches_at. destruct (rmatch l pos); cbn.
  - split; [tauto | intros [? _]; done].
  - rewrite app_nil_r. tauto.
Qed.

(** [(?=.*[cs])]: some code unit of the class lies ahead, with no line
    terminator before it. *)
Lemma dot_star_then_spec cs bos s :
  matches_at (RSeq (star CDot) (RSet cs)) (bos, s) = true <->
  exists pre c rest, s = pre ++ c :: rest /\
    forallb (in_charset CDot) pre = true /\ in_charset cs c = true.
Proof.
  rewrite matches_at_true. cbn [rmatch star fst snd]. split.
  - intros (q & Hq). apply in_flat_map in Hq as (m & Hm & Hq).
    apply rep_unbounded_spec in Hm as (pre & Hs & Hp & _ & _).
    cbn in Hq. destruct m.2 as [|c rest] eqn:Hm2; [done|].
    destruct (in_charset cs c) eqn:Hc; [|done].
    exists pre, c, rest. done.
  - intros (pre & c & rest & Hs & Hp & Hc).
    exists (false, rest). apply in_flat_map.
    exists (bos && is_empty pre, c :: rest). split.
    + apply rep_unbounded_spec. exists pre. cbn. repeat split; [done|done|lia].
    + cbn. rewrite Hc. now left.
Qed.

(** [[cs]{n,}$]: the whole remaining input, at least [n] long, is in the
    class. *)
Lemma at_least_eol_spec cs n bos s :
  matches_at (RSeq (at_least n cs) REol) (bos, s) = true <->
  forallb (in_charset cs) s = true /\ (n <= length s)%nat.
Proof.
  rewrite matches_at_true. cbn [rmatch at_least fst snd]. split.
  - intros (q & Hq). apply in_flat_map in Hq as (m & Hm & Hq).
    apply rep_unbounded_spec in Hm as (pre & Hs & Hp & Hn & _).
    cbn in Hq. destruct m.2; [|done]. rewrite app_nil_r in Hs. now subst.
  - intros [Hp Hn]. exists (bos && is_empty s, []). apply in_flat_map.
    exists (bos && is_empty s, []). split; [|now left].
    apply rep_unbounded_spec. exists s. cbn. rewrite app_nil_r. done.
Qed.

End MatcherFacts.

(* ===================================================================== *)
(** ** What the password pattern decides                                  *)
(* ===================================================================== *)

Lemma password_char_not_terminator c :
  is_password_char c = true -> in_charset CDot c = true.
Proof.
  unfold is_password_char, is_upper, is_lower, is_digit, is_symbol, in_range.
  cbn. unfold is_line_terminator.
  rewrite !orb_true_iff, !andb_true_iff, !N.leb_le, !N.eqb_eq.
  intros H. apply negb_true_iff. rewrite !orb_false_iff, !N.eqb_neq. lia.
Qed.

Lemma class_ahead_exists cs (f : N -> bool) s :
  (forall c, in_charset cs c = f c) ->
  forallb is_password_char s = true ->
  ((exists pre c rest, s = pre ++ c :: rest /\
      forallb (in_charset CDot) pre = true /\ in_charset cs c = true)
   <-> existsb f s = true).
Proof.
  intros Hf Hall. rewrite existsb_exists. split.
  - intros (pre & c & rest & -> & _ & Hc). exists c. rewrite <- Hf.
    split; [|done]. apply in_or_app. right. now left.
  - intros (c & Hin & Hc). apply in_split in Hin as (pre & rest & ->).
    exists pre, c, rest. rewrite Hf. repeat split; [|done].
    rewrite forallb_app in Hall. apply andb_true_iff in Hall as [Hpre _].
    rewrite forallb_forall in *. intros x Hx.
    apply password_char_not_terminator. auto.
Qed.

Lemma password_class_is_password_char c :
  in_charset (CSet ([CRange "A" "Z"; CRange "a" "z"; CDigit]
                    ++ password_symbols)) c = is_password_char c.
Proof.
  cbn. unfold is_password_char, is_upper, is_lower, is_digit, is_symbol.
  cbn. rewrite !orb_assoc. done.
Qed.

Lemma forallb_congr {A} (f g : A -> bool) (l : list A) :
  (forall x, f x = g x) -> forallb f l = forallb g l.
Proof. intros E. induction l as [|x l IH]; cbn; [done | now rewrite E, IH]. Qed.

(** What [passwordRegex.test] decides. *)
Lemma test_passwordRegex s : test passwordRegex s = password_ok s.
Proof.
  apply eq_true_iff_eq. unfold passwordRegex. cbn [seq_of].
  rewrite test_anchored, matches_at_true.
  setoid_rewrite look_seq_spec. setoid_rewrite look_seq_spec.
  setoid_rewrite look_seq_spec. setoid_rewrite look_seq_spec.
  unfold password_ok. rewrite !andb_true_iff, Nat.leb_le.
  split.
  - intros (q & Hlo & Hup & Hdi & Hsy & Hq).
    assert (Hm : matches_at (RSeq (at_least 8 (CSet ([CRange "A" "Z";
              CRange "a" "z"; CDigit] ++ password_symbols))) REol) (true, s)
              = true) by (apply matches_at_true; eauto).
    apply at_least_eol_spec in Hm as [Hall Hlen].
    rewrite (forallb_congr _ _ s password_class_is_password_char) in Hall.
    apply dot_star_then_spec in Hlo, Hup, Hdi, Hsy.
    apply (class_ahead_exists _ is_lower) in Hlo;
      [|intros; cbn; apply orb_false_r|done].
    apply (class_ahead_exists _ is_upper) in Hup;
      [|intros; cbn; apply orb_false_r|done].
    apply (class_ahead_exists _ is_digit) in Hdi;
      [|intros; cbn; apply orb_false_r|done].
    apply (class_ahead_exists _ is_symbol) in Hsy; [|done|done].
    tauto.
  - intros [[[[[Hlen Hall] Hlo] Hup] Hdi] Hsy].
    pose proof Hall as Hall'.
    rewrite <- (forallb_congr _ _ s password_class_is_password_char) in Hall'.
    assert (Hm : matches_at (RSeq (at_least 8 (CSet ([CRange "A" "Z";
              CRange "a" "z"; CDigit] ++ password_symbols))) REol) (true, s)
              = true) by (apply at_least_eol_spec; done).
    apply matches_at_true in Hm as [q Hq]. exists q.
    repeat split; [| | | |exact Hq]; apply dot_star_then_spec.
    + apply (class_ahead_exists _ is_lower);
        [intros; cbn; apply orb_false_r|done|done].
    + apply (class_ahead_exists _ is_upper);
        [intros; cbn; apply orb_false_r|done|done].
    + apply (class_ahead_exists _ is_digit);
        [intros; cbn; apply orb_false_r|done|done].
    + apply (class_ahead_exists _ is_symbol); done.
Qed.

(* ===================================================================== *)
(** ** How handlers move the state                                        *)
(* ===================================================================== *)

Section Steps.

Implicit Types (st : State) (id : string) (f : Element -> Element).

Lemma keeps_refl st : keeps st st.
Proof. split; [done | intros id; done]. Qed.

Lemma keeps_trans st1 st2 st3 : keeps st1 st2 -> keeps st2 st3 -> keeps st1 st3.
Proof.
  intros [T1 V1] [T2 V2]. split; [congruence|].
  intros id. rewrite V1. apply V2.
Qed.

Lemma keeps_present st st' id :
  keeps st st' -> is_Some (document st !! id) -> is_Some (document st' !! id).
Proof.
  intros [_ V] [e He]. specialize (V id). rewrite He in V.
  destruct (document st' !! id); [eauto | discriminate].
Qed.

Lemma keeps_page_ok st st' : keeps st st' -> page_ok st -> page_ok st'.
Proof.
  intros K. unfold page_ok. rewrite !List.Forall_forall.
  intros H id Hid. eapply keeps_present; eauto.
Qed.

Lemma same_values_present st st' id :
  same_values st st' -> is_Some (document st !! id) ->
  is_Some (document st' !! id).
Proof.
  intros V [e He]. specialize (V id). rewrite He in V.
  destruct (document st' !! id); [eauto | discriminate].
Qed.

Lemma same_values_value_of st st' name :
  same_values st st' -> value_of name st' = value_of name st.
Proof.
  intros V. unfold value_of. destruct (field_ref name) as [id|]; [|done].
  cbn. now rewrite (V id).
Qed.

Lemma bind_returns {A B} (m : M A) (k : A -> M B) st a st' :
  m st = Returns a st' -> bind m k st = k a st'.
Proof. unfold bind. now intros ->. Qed.

Lemma bind_throws {A B} (m : M A) (k : A -> M B) st st' :
  m st = Throws st' -> bind m k st = Throws st'.
Proof. unfold bind. now intros ->. Qed.

Lemma write_returns id f st e :
  document st !! id = Some e ->
  write (Some id) f st
  = Returns tt (with_document (<[id := f e]> (document st)) st).
Proof. unfold write. now intros ->. Qed.

Lemma write_null f st : write None f st = Throws st.
Proof. done. Qed.

(** A write that leaves [value] alone only moves decorations. *)
Lemma write_keeps id f st :
  is_Some (document st !! id) -> (forall e, value (f e) = value e) ->
  exists st', write (Some id) f st = Returns tt st' /\ keeps st st' /\
              validationState st' = validationState st.
Proof.
  intros [e He] Hf. eexists. split; [apply write_returns, He|].
  split; [|done]. split; [done|]. intros id'. cbn.
  destruct (decide (id = id')) as [<-|Hne].
  - rewrite lookup_insert_eq, He. cbn. now rewrite Hf.
  - now rewrite lookup_insert_ne.
Qed.

Lemma read_returns {A} id (prop : Element -> A) st e :
  document st !! id = Some e -> read (Some id) prop st = Returns (prop e) st.
Proof. unfold read. cbn. now intros ->. Qed.

Lemma read_value_of name id st :
  field_ref name = Some id -> is_Some (document st !! id) ->
  read (field_ref name) value st = Returns (value_of name st) st.
Proof.
  intros Hr [e He]. unfold value_of. rewrite Hr. cbn.
  erewrite read_returns by eassumption. now rewrite He.
Qed.

Lemma getElementById_present id st :
  is_Some (document st !! id) -> getElementById id st = Returns (Some id) st.
Proof. intros [e He]. unfold getElementById. now rewrite He. Qed.

Lemma getElementById_missing id st :
  document st !! id = None -> getElementById id st = Returns None st.
Proof. intros He. unfold getElementById. now rewrite He. Qed.

(** [updateFieldAppearance] touches classes and the message only. *)
Lemma updateFieldAppearance_keeps fid eid isValid msg st :
  is_Some (document st !! fid) -> is_Some (document st !! eid) ->
  exists st', updateFieldAppearance (Some fid) (Some eid) isValid msg st
              = Returns tt st' /\ keeps st st' /\
              validationState st' = validationState st.
Proof.
  intros Hf He. unfold updateFieldAppearance.
  destruct (write_keeps fid (class_remove ["valid"; "invalid"]) st Hf)
    as (s1 & E1 & K1 & V1); [done|].
  rewrite (bind_returns _ _ _ _ _ E1).
  pose proof (keeps_present _ _ _ K1 Hf) as [e1 Hf1].
  rewrite (bind_returns _ _ _ _ _ (read_returns fid value s1 e1 Hf1)).
  assert (He1 : is_Some (document s1 !! eid)) by eauto using keeps_present.
  destruct (negb (is_empty (trim (value e1)))); [destruct isValid|].
  - destruct (write_keeps fid (class_add "valid") s1) as (s2 & E2 & K2 & V2);
      [eauto|done|].
    rewrite (bind_returns _ _ _ _ _ E2).
    destruct (write_keeps eid (set_textContent "") s2) as (s3 & E3 & K3 & V3);
      [eauto using keeps_present|done|].
    exists s3. split; [done|]. split; [eauto using keeps_trans | congruence].
  - destruct (write_keeps fid (class_add "invalid") s1) as (s2 & E2 & K2 & V2);
      [eauto|done|].
    rewrite (bind_returns _ _ _ _ _ E2).
    destruct (write_keeps eid (set_textContent msg) s2) as (s3 & E3 & K3 & V3);
      [eauto using keeps_present|done|].
    exists s3. split; [done|]. split; [eauto using keeps_trans | congruence].
  - destruct (write_keeps eid (set_textContent "") s1) as (s3 & E3 & K3 & V3);
      [eauto|done|].
    exists s3. split; [done|]. split; [eauto using keeps_trans | congruence].
Qed.

(** The [switch] never throws once the password control exists, and does
    not touch the state. *)
Lemma check_returns name v st :
  is_Some (document st !! "password") ->
  exists r, check name v st = Returns r st.
Proof.
  intros [e He]. unfold check.
  repeat (match goal with
          | |- context [String.eqb ?a ?b] => destruct (String.eqb a b)
          end; [eexists; reflexivity|]).
  destruct (String.eqb name "confirmPassword").
  - unfold field_ref. cbn [obj_get fields String.eqb Ascii.eqb Bool.eqb].
    cbn. unfold bind, read. cbn. rewrite He. eexists; reflexivity.
  - repeat (match goal with
            | |- context [String.eqb ?a ?b] => destruct (String.eqb a b)
            end; [eexists; reflexivity|]).
    eexists; reflexivity.
Qed.

Lemma check_confirmPassword_at v st :
  is_Some (document st !! "password") ->
  check "confirmPassword" v st
  = Returns (check_confirmPassword v (value_of "password" st)) st.
Proof.
  intros [e He]. unfold check, value_of, field_ref. cbn.
  unfold bind, read. cbn. now rewrite He.
Qed.

Lemma check_same_values name v st st' :
  same_values st st' -> is_Some (document st !! "password") ->
  forall r, check name v st = Returns r st -> check name v st' = Returns r st'.
Proof.
  intros K Hp r. unfold check.
  repeat (match goal with
          | |- context [String.eqb ?a ?b] => destruct (String.eqb a b)
          end; [unfold ret; congruence|]).
  destruct (String.eqb name "confirmPassword").
  - change (check "confirmPassword" v st = Returns r st ->
            check "confirmPassword" v st' = Returns r st').
    rewrite !check_confirmPassword_at by eauto using same_values_present.
    rewrite (same_values_value_of _ _ _ K). congruence.
  - repeat (match goal with
            | |- context [String.eqb ?a ?b] => destruct (String.eqb a b)
            end; [unfold ret; congruence|]).
    unfold ret; congruence.
Qed.

Lemma verdict_same_values name st st' :
  same_values st st' -> is_Some (document st !! "password") ->
  verdict name st' = verdict name st.
Proof.
  intros K Hp. unfold verdict. rewrite (same_values_value_of _ _ _ K).
  destruct (check_returns name (value_of name st) st Hp) as [r Hr].
  rewrite Hr, (check_same_values _ _ _ _ K Hp _ Hr). done.
Qed.

Lemma verdict_keeps name st st' :
  keeps st st' -> is_Some (document st !! "password") ->
  verdict name st' = verdict name st.
Proof. intros [_ V]. now apply verdict_same_values. Qed.

End Steps.

(* --------------------------------------------------------------------- *)
(** *** Objects                                                           *)
(* --------------------------------------------------------------------- *)

Section Objects.

Context {V : Type}.
Implicit Types (o : object V) (k : string) (v : V).

Lemma obj_get_set_eq k v o : obj_get k (obj_set k v o) = Some v.
Proof.
  induction o as [|[k' v'] o IH]; cbn.
  - now rewrite String.eqb_refl.
  - destruct (String.eqb k k') eqn:E; cbn; rewrite E; [done | exact IH].
Qed.

Lemma obj_get_set_ne k k' v o :
  k <> k' -> obj_get k (obj_set k' v o) = obj_get k o.
Proof.
  intros Hne. induction o as [|[k0 v0] o IH]; cbn.
  - apply String.eqb_neq in Hne. now rewrite Hne.
  - destruct (String.eqb k' k0) eqn:E; cbn.
    + apply String.eqb_eq in E as ->.
      apply String.eqb_neq in Hne. now rewrite Hne.
    + now rewrite IH.
Qed.

(** Storing what is already stored changes nothing. *)
Lemma obj_set_same k v o : obj_get k o = Some v -> obj_set k v o = o.
Proof.
  induction o as [|[k' v'] o IH]; cbn; [done|].
  destruct (String.eqb k k'); [congruence|]. intros H. now rewrite IH.
Qed.

End Objects.

(** The optional field plays no part in the button's condition. *)
Lemma allRequiredValid_phone b vs :
  allRequiredValid (obj_set "phone" b vs) = allRequiredValid vs.
Proof.
  unfold allRequiredValid. cbn [forallb requiredFields].
  now rewrite !obj_get_set_ne by discriminate.
Qed.

(* --------------------------------------------------------------------- *)
(** *** The listeners                                                     *)
(* --------------------------------------------------------------------- *)

Section Handlers.

Implicit Types (st : State) (name : string) (v : jsstring).

Lemma page_ok_has st id : page_ok st -> In id page_ids -> is_Some (document st !! id).
Proof. unfold page_ok. rewrite List.Forall_forall. auto. Qed.

Lemma field_elements st name :
  page_ok st -> In name (keys fields) ->
  exists fid, field_ref name = Some fid /\ is_Some (document st !! fid) /\
              is_Some (document st !! errorElementId name).
Proof.
  intros Hp Hin. cbn in Hin.
  repeat (destruct Hin as [<-|Hin];
          [eexists; split; [reflexivity|];
           split; apply (page_ok_has _ _ Hp); in_list|]).
  destruct Hin.
Qed.

Lemma page_ok_password st : page_ok st -> is_Some (document st !! "password").
Proof. intros Hp. apply (page_ok_has _ _ Hp). in_list. Qed.

Lemma validateField_spec name v st :
  page_ok st -> In name (keys fields) ->
  exists r st', check name v st = Returns r st /\
    validateField name v st = Returns r.1 st' /\ keeps st st' /\
    validationState st' = obj_set name r.1 (validationState st).
Proof.
  intros Hp Hin.
  destruct (field_elements _ _ Hp Hin) as (fid & Hr & Hf & He).
  destruct (check_returns name v st (page_ok_password _ Hp)) as [[b msg] Hc].
  destruct (updateFieldAppearance_keeps fid (errorElementId name) b msg st Hf He)
    as (s1 & E1 & K1 & V1).
  exists (b, msg), (with_validationState (obj_set name b (validationState s1)) s1).
  split; [done|]. split; [|split; [exact K1 | cbn; now rewrite V1]].
  unfold validateField.
  rewrite (bind_returns _ _ _ _ _ (getElementById_present _ _ He)).
  rewrite (bind_returns _ _ _ _ _ Hc). cbn beta iota.
  rewrite Hr, (bind_returns _ _ _ _ _ E1). done.
Qed.

Lemma validateField_verdict name st :
  page_ok st -> In name (keys fields) ->
  exists st', validateField name (value_of name st) st
              = Returns (verdict name st) st' /\ keeps st st' /\
    validationState st' = obj_set name (verdict name st) (validationState st).
Proof.
  intros Hp Hin.
  destruct (validateField_spec name (value_of name st) st Hp Hin)
    as (r & st' & Hc & Hv & K & Vs).
  exists st'. unfold verdict. rewrite Hc. done.
Qed.

Lemma updateSubmitButton_spec st :
  is_Some (document st !! "submit-btn") ->
  exists st', updateSubmitButton st = Returns tt st' /\ keeps st st' /\
    validationState st' = validationState st /\
    disabled <$> (document st' !! "submit-btn")
    = Some (negb (allRequiredValid (validationState st))).
Proof.
  intros Hb. unfold updateSubmitButton, submitBtn.
  set (ok := allRequiredValid (validationState st)).
  destruct Hb as [e He].
  destruct (write_keeps "submit-btn" (set_disabled (negb ok)) st)
    as (s1 & E1 & K1 & V1); [eauto|done|].
  rewrite (bind_returns _ _ _ _ _ E1).
  rewrite (write_returns _ _ _ _ He) in E1. injection E1 as E1.
  assert (H1 : document s1 !! "submit-btn" = Some (set_disabled (negb ok) e)).
  { subst s1. cbn. apply lookup_insert_eq. }
  destruct ok.
  - destruct (write_keeps "submit-btn" (set_textContent "✅ Submit Form") s1)
      as (s2 & E2 & K2 & V2); [eauto|done|].
    exists s2. split; [done|]. split; [eauto using keeps_trans|].
    split; [congruence|].
    rewrite (write_returns _ _ _ _ H1) in E2. injection E2 as <-.
    cbn. now rewrite lookup_insert_eq.
  - destruct (write_keeps "submit-btn"
                (set_textContent "📋 Complete Required Fields") s1)
      as (s2 & E2 & K2 & V2); [eauto|done|].
    exists s2. split; [done|]. split; [eauto using keeps_trans|].
    split; [congruence|].
    rewrite (write_returns _ _ _ _ H1) in E2. injection E2 as <-.
    cbn. now rewrite lookup_insert_eq.
Qed.

(** One 'input' or 'blur' on a field: that field's entry takes its fresh
    verdict, the others stay, and the button follows the stored entries. *)
Lemma on_field_event_spec name st :
  page_ok st -> In name (keys fields) ->
  exists st', on_field_event name st = Returns tt st' /\ keeps st st' /\
    validationState st' = obj_set name (verdict name st) (validationState st) /\
    disabled <$> (document st' !! "submit-btn")
    = Some (negb (allRequiredValid (validationState st'))).
Proof.
  intros Hp Hin.
  destruct (field_elements _ _ Hp Hin) as (fid & Hr & Hf & He).
  destruct (validateField_verdict name st Hp Hin) as (s1 & E1 & K1 & V1).
  destruct (updateSubmitButton_spec s1) as (s2 & E2 & K2 & V2 & D2).
  { apply (page_ok_has s1); [eauto using keeps_page_ok | in_list]. }
  exists s2. unfold on_field_event.
  rewrite (bind_returns _ _ _ _ _ (read_value_of _ _ _ Hr Hf)).
  rewrite (bind_returns _ _ _ _ _ E1).
  split; [done|]. split; [eauto using keeps_trans|].
  split; [congruence|]. rewrite D2, V2. done.
Qed.

Lemma revalidated_keeps names st st' vs :
  keeps st st' -> is_Some (document st !! "password") ->
  revalidated names st' vs = revalidated names st vs.
Proof.
  intros K Hp. unfold revalidated. revert vs.
  induction names as [|n names IH]; intros vs; cbn; [done|].
  now rewrite IH, (verdict_keeps _ _ _ K Hp).
Qed.

Lemma validate_all_spec names st :
  page_ok st -> (forall n, In n names -> In n (keys fields)) ->
  forall acc, exists st',
    validate_all names acc st
    = Returns (acc && forallb (fun n => verdict n st) names) st' /\
    keeps st st' /\
    validationState st' = revalidated names st (validationState st).
Proof.
  revert st. induction names as [|n names IH]; intros st Hp Hin acc.
  - exists st. cbn. rewrite andb_true_r. auto using keeps_refl.
  - destruct (field_elements st n Hp) as (fid & Hr & Hf & He);
      [apply Hin; now left|].
    destruct (validateField_verdict n st Hp) as (s1 & E1 & K1 & V1);
      [apply Hin; now left|].
    destruct (IH s1 (keeps_page_ok _ _ K1 Hp) (fun m Hm => Hin m (or_intror Hm))
                (if negb (verdict n st) then false else acc))
      as (s2 & E2 & K2 & V2).
    exists s2. cbn [validate_all].
    rewrite (bind_returns _ _ _ _ _ (read_value_of _ _ _ Hr Hf)).
    rewrite (bind_returns _ _ _ _ _ E1), E2.
    pose proof (page_ok_password _ Hp) as Hpw.
    split; [|split; [eauto using keeps_trans|]].
    + f_equal. cbn [forallb].
      rewrite (forallb_congr _ (fun m => verdict m st) names
                 (fun m => verdict_keeps m _ _ K1 Hpw)).
      destruct (verdict n st), acc; done.
    + rewrite V2, V1, (revalidated_keeps _ _ _ _ K1 Hpw). done.
Qed.

Lemma submit_allValid_spec st :
  page_ok st ->
  submit_allValid st = forallb (fun n => verdict n st) (keys fields).
Proof.
  intros Hp. unfold submit_allValid.
  destruct (validate_all_spec (keys fields) st Hp (fun n H => H) true)
    as (s1 & E1 & _). now rewrite E1.
Qed.

Lemma class_add_elem c e : c ∈ classList (class_add c e).
Proof.
  unfold class_add. cbn. case_bool_decide; [done|].
  apply elem_of_app. right. apply list_elem_of_singleton. done.
Qed.

(** The submit listener: every entry is recomputed, then one of the two
    branches runs. *)
Lemma on_submit_spec st :
  page_ok st ->
  exists st', on_submit st = Returns tt st' /\ same_values st st' /\
    validationState st' = revalidated (keys fields) st (validationState st) /\
    (submit_allValid st = true ->
       timers st' = timers st ++ [(5000%nat, ResetForm)] /\
       display <$> (document st' !! "user-form") = Some "none") /\
    (submit_allValid st = false ->
       timers st' = timers st ++ [(500%nat, RemoveShake)] /\
       exists e, document st' !! "user-form" = Some e /\ "shake" ∈ classList e).
Proof.
  intros Hp. unfold on_submit, submit_allValid.
  destruct (validate_all_spec (keys fields) st Hp (fun n H => H) true)
    as (s1 & E1 & K1 & V1).
  rewrite E1, (bind_returns _ _ _ _ _ E1). cbn [andb].
  pose proof (keeps_page_ok _ _ K1 Hp) as Hp1.
  assert (Hform : is_Some (document s1 !! "user-form"))
    by (apply (page_ok_has _ _ Hp1); in_list).
  destruct Hform as [e He].
  destruct (forallb (fun n => verdict n st) (keys fields)).
  - unfold showSuccessMessage, form, successMessage.
    destruct (write_keeps "user-form" (set_display "none") s1)
      as (s2 & E2 & K2 & V2); [eauto|done|].
    rewrite (bind_returns _ _ _ _ _ E2).
    destruct (write_keeps "form-success" (set_display "block") s2)
      as (s3 & E3 & K3 & V3); [|done|].
    { eapply keeps_present; [exact K2|]. apply (page_ok_has _ _ Hp1). in_list. }
    rewrite (bind_returns _ _ _ _ _ E3).
    eexists. split; [reflexivity|].
    pose proof (keeps_trans _ _ _ K1 (keeps_trans _ _ _ K2 K3)) as [T V].
    split; [exact V|]. split; [rewrite <- V1, <- V2, <- V3; reflexivity|].
    split; [|done].
    intros _. split; [cbn; now rewrite T|]. cbn.
    rewrite (write_returns _ _ _ _ He) in E2. injection E2 as <-.
    assert (H2 : document (with_document
               (<["user-form" := set_display "none" e]> (document s1)) s1)
               !! "form-success" = document s1 !! "form-success")
      by (cbn; now rewrite lookup_insert_ne).
    destruct (page_ok_has _ "form-success" Hp1) as [e' He']; [in_list|].
    rewrite He' in H2. rewrite (write_returns _ _ _ _ H2) in E3.
    injection E3 as <-. cbn.
    rewrite lookup_insert_ne by done. now rewrite lookup_insert_eq.
  - unfold form.
    destruct (write_keeps "user-form" (class_add "shake") s1)
      as (s2 & E2 & K2 & V2); [eauto|done|].
    rewrite (bind_returns _ _ _ _ _ E2).
    eexists. split; [reflexivity|].
    pose proof (keeps_trans _ _ _ K1 K2) as [T V].
    split; [exact V|]. split; [rewrite <- V1, <- V2; reflexivity|].
    split; [done|].
    intros _. split; [cbn; now rewrite T|]. cbn.
    rewrite (write_returns _ _ _ _ He) in E2. injection E2 as <-.
    exists (class_add "shake" e). cbn.
    split; [apply lookup_insert_eq | apply class_add_elem].
Qed.

(** After the listener's loop every entry holds its fresh verdict. *)
Lemma revalidated_get n st vs :
  In n (keys fields) ->
  obj_get n (revalidated (keys fields) st vs) = Some (verdict n st).
Proof.
  intros Hin. unfold revalidated. cbn [keys fields List.map fst fold_left].
  cbn in Hin.
  repeat (destruct Hin as [<-|Hin];
          [rewrite ?obj_get_set_ne by discriminate; apply obj_get_set_eq|]).
  destruct Hin.
Qed.

End Handlers.

(* --------------------------------------------------------------------- *)
(** *** The delayed reset                                                 *)
(* --------------------------------------------------------------------- *)

Section Reset.

Implicit Types (st : State) (id field : string).

Lemma same_elements_trans st1 st2 st3 :
  same_elements st1 st2 -> same_elements st2 st3 -> same_elements st1 st3.
Proof. intros H1 H2 id. rewrite (H1 id). apply H2. Qed.

Lemma same_elements_present st st' id :
  same_elements st st' -> is_Some (document st !! id) ->
  is_Some (document st' !! id).
Proof.
  intros H Hs. apply not_eq_None_Some. intros Hn. apply H in Hn.
  rewrite Hn in Hs. now destruct Hs.
Qed.

Lemma same_elements_missing st st' id :
  same_elements st st' -> document st !! id = None -> document st' !! id = None.
Proof. intros H. apply H. Qed.

Lemma write_elements id (f : Element -> Element) st :
  is_Some (document st !! id) ->
  exists st', write (Some id) f st = Returns tt st' /\ same_elements st st' /\
              validationState st' = validationState st.
Proof.
  intros [e He]. eexists. split; [apply write_returns, He|]. split; [|done].
  intros id'. cbn. destruct (decide (id = id')) as [<-|Hne].
  - rewrite lookup_insert_eq, He. done.
  - now rewrite lookup_insert_ne.
Qed.

Lemma alter_all_elements (f : Element -> Element) ids (d : gmap string Element) id :
  fold_right (fun i m => alter f i m) d ids !! id = None <-> d !! id = None.
Proof.
  induction ids as [|i ids IH]; cbn; [tauto|].
  rewrite <- IH. destruct (decide (i = id)) as [<-|Hne].
  - rewrite lookup_alter_eq. apply fmap_None.
  - now rewrite lookup_alter_ne.
Qed.

Lemma form_reset_elements st :
  is_Some (document st !! "user-form") ->
  exists st', form_reset st = Returns tt st' /\ same_elements st st' /\
              validationState st' = validationState st.
Proof.
  intros Hf. unfold form_reset, form.
  destruct (write_elements "user-form" (fun e => e) st Hf) as (s1 & E1 & S1 & V1).
  rewrite (bind_returns _ _ _ _ _ E1). eexists. split; [reflexivity|].
  split; [|exact V1]. intros id. rewrite (S1 id). symmetry.
  exact (alter_all_elements _ (List.map snd fields) (document s1) id).
Qed.

(** An entry whose message element exists is reset and the loop goes on. *)
Lemma reset_entry_returns field fid st :
  field_ref field = Some fid -> is_Some (document st !! fid) ->
  is_Some (document st !! (field ++ "-error")%string) ->
  exists st', reset_entry field st = Returns tt st' /\ same_elements st st' /\
    validationState st' = obj_set field false (validationState st).
Proof.
  intros Hr Hf He. unfold reset_entry.
  set (s0 := with_validationState (obj_set field false (validationState st)) st).
  change (exists st',
    (write (field_ref field) (class_remove ["valid"; "invalid"]) ;;
     e <- getElementById (field ++ "-error")%string ;;
     write e (set_textContent "")) s0 = Returns tt st' /\
    same_elements st st' /\ validationState st' = validationState s0).
  rewrite Hr.
  destruct (write_elements fid (class_remove ["valid"; "invalid"]) s0 Hf)
    as (s1 & E1 & S1 & V1).
  rewrite (bind_returns _ _ _ _ _ E1).
  assert (He1 : is_Some (document s1 !! (field ++ "-error")%string))
    by (eapply same_elements_present; [exact S1 | exact He]).
  rewrite (bind_returns _ _ _ _ _ (getElementById_present _ _ He1)).
  destruct (write_elements (field ++ "-error")%string (set_textContent "") s1 He1)
    as (s2 & E2 & S2 & V2).
  exists s2. split; [exact E2|]. split; [|congruence].
  eapply same_elements_trans; [exact S1 | exact S2].
Qed.

(** An entry whose message element is missing: the entry is stored, then
    the assignment to [textContent] of null throws. *)
Lemma reset_entry_throws field fid st :
  field_ref field = Some fid -> is_Some (document st !! fid) ->
  document st !! (field ++ "-error")%string = None ->
  exists st', reset_entry field st = Throws st' /\ same_elements st st' /\
    validationState st' = obj_set field false (validationState st).
Proof.
  intros Hr Hf He. unfold reset_entry.
  set (s0 := with_validationState (obj_set field false (validationState st)) st).
  change (exists st',
    (write (field_ref field) (class_remove ["valid"; "invalid"]) ;;
     e <- getElementById (field ++ "-error")%string ;;
     write e (set_textContent "")) s0 = Throws st' /\
    same_elements st st' /\ validationState st' = validationState s0).
  rewrite Hr.
  destruct (write_elements fid (class_remove ["valid"; "invalid"]) s0 Hf)
    as (s1 & E1 & S1 & V1).
  rewrite (bind_returns _ _ _ _ _ E1).
  assert (He1 : document s1 !! (field ++ "-error")%string = None)
    by (eapply same_elements_missing; [exact S1 | exact He]).
  rewrite (bind_returns _ _ _ _ _ (getElementById_missing _ _ He1)).
  exists s1. split; [apply write_null|]. split; [exact S1 | exact V1].
Qed.

(** The part of the reset closure before its loop. *)
Lemma reset_prologue st :
  page_ok st ->
  exists st', same_elements st st' /\ validationState st' = validationState st /\
    forall A (k : M A),
      (form_reset ;; write form (set_display "block") ;;
       write successMessage (set_display "none") ;; k) st = k st'.
Proof.
  intros Hp.
  destruct (form_reset_elements st) as (s1 & E1 & S1 & V1);
    [apply (page_ok_has _ _ Hp); in_list|].
  unfold form, successMessage.
  destruct (write_elements "user-form" (set_display "block") s1)
    as (s2 & E2 & S2 & V2).
  { eapply same_elements_present; [exact S1|].
    apply (page_ok_has _ _ Hp); in_list. }
  destruct (write_elements "form-success" (set_display "none") s2)
    as (s3 & E3 & S3 & V3).
  { eapply same_elements_present; [|apply (page_ok_has _ _ Hp); in_list].
    eapply same_elements_trans; [exact S1 | exact S2]. }
  exists s3. split; [eauto using same_elements_trans|]. split; [congruence|].
  intros A k.
  rewrite (bind_returns _ _ _ _ _ E1), (bind_returns _ _ _ _ _ E2).
  now rewrite (bind_returns _ _ _ _ _ E3).
Qed.

End Reset.

(* ===================================================================== *)
(** ** parseInt on a leading run of decimal digits                        *)
(* ===================================================================== *)

Section ParseInt.

Lemma radix10_digit c :
  radix_digit 10 c = if is_digit c then Some (Z.of_N c - 48) else None.
Proof.
  unfold radix_digit, is_digit, in_range.
  destruct (48 <=? c)%N eqn:E1, (c <=? 57)%N eqn:E2; cbn [andb];
    try (apply N.leb_le in E1); try (apply N.leb_le in E2);
    try (apply N.leb_gt in E1); try (apply N.leb_gt in E2).
  - destruct (Z.ltb_spec (Z.of_N c - 48) 10); [done | lia].
  - destruct ((97 <=? c)%N && (c <=? 122)%N) eqn:E3.
    + apply andb_true_iff in E3 as [E3 E4]. apply N.leb_le in E3.
      destruct (Z.ltb_spec (Z.of_N c - 97 + 10) 10); [lia | done].
    + destruct ((65 <=? c)%N && (c <=? 90)%N) eqn:E5.
      * apply andb_true_iff in E5 as [E5 E6]. apply N.leb_le in E5.
        destruct (Z.ltb_spec (Z.of_N c - 65 + 10) 10); [lia | done].
      * done.
  - assert (H1 : ((97 <=? c)%N && (c <=? 122)%N) = false).
    { apply andb_false_iff. left. apply N.leb_gt. lia. }
    assert (H2 : ((65 <=? c)%N && (c <=? 90)%N) = false).
    { apply andb_false_iff. left. apply N.leb_gt. lia. }
    rewrite H1, H2. done.
  - lia.
Qed.

Lemma digits_prefix_decimal s :
  digits_prefix 10 s
  = List.map (fun c => Z.of_N c - 48) (leading_digits s).
Proof.
  induction s as [|c s IH]; cbn; [done|]. rewrite radix10_digit.
  destruct (is_digit c); cbn; [now rewrite IH | done].
Qed.

Lemma digits_value_decimal ds :
  digits_value 10 (List.map (fun c => Z.of_N c - 48) ds) = decimal_value ds.
Proof.
  unfold digits_value, decimal_value. generalize 0.
  induction ds as [|d ds IH]; intros acc; cbn; [done | apply IH].
Qed.

Lemma digit_plain c :
  is_digit c = true ->
  is_white_space c = false /\ (c =? 45)%N = false /\ (c =? 43)%N = false.
Proof.
  unfold is_digit, is_white_space, in_range.
  rewrite andb_true_iff, !N.leb_le. intros [H1 H2].
  rewrite !orb_false_iff, !andb_false_iff, !N.leb_gt, !N.eqb_neq. lia.
Qed.

(** A string that opens with decimal digits worth at least 13 parses to
    the value of that run, whatever follows it. *)
Lemma parseInt_leading_digits s :
  13 <= decimal_value (leading_digits s) ->
  parseInt s = Some (decimal_value (leading_digits s)).
Proof.
  intros H. destruct s as [|c s]; [cbn in H; lia|].
  destruct (is_digit c) eqn:Hc; [|cbn in H; rewrite Hc in H; cbn in H; lia].
  destruct (digit_plain c Hc) as (Hw & Hm & Hp).
  unfold parseInt. cbn [trimStart]. rewrite Hw, Hm, Hp.
  assert (Hnohex : match s with
                   | c1 :: _ => ((c =? 48) && ((c1 =? 120) || (c1 =? 88)))%N
                   | [] => false
                   end = false).
  { destruct s as [|c1 rest]; [done|].
    destruct ((c =? 48) && ((c1 =? 120) || (c1 =? 88)))%N eqn:E; [|done].
    exfalso. apply andb_true_iff in E as [E0 E1]. apply N.eqb_eq in E0 as ->.
    assert (Hd : is_digit c1 = false).
    { apply orb_true_iff in E1 as [E1|E1]; apply N.eqb_eq in E1 as ->; done. }
    cbn in H. rewrite Hd in H. cbn in H. lia. }
  assert (Hgo : match digits_prefix 10 (c :: s) with
                | [] => None
                | ds => Some (1 * digits_value 10 ds)
                end = Some (decimal_value (leading_digits (c :: s)))).
  { rewrite digits_prefix_decimal.
    rewrite <- (digits_value_decimal (leading_digits (c :: s))).
    cbn [leading_digits]. rewrite Hc. cbn [List.map].
    now rewrite Z.mul_1_l. }
  destruct s as [|c1 rest]; [exact Hgo|].
  rewrite Hnohex. exact Hgo.
Qed.

End ParseInt.

(* ===================================================================== *)
(** ** Shape of a rule's result, loops                                    *)
(* ===================================================================== *)

Section Shapes.

Lemma check_fullname_shape v : result_ok (check_fullname v).
Proof.
  unfold check_fullname.
  destruct (_ <? _)%nat; [done|]. destruct (negb _); done.
Qed.

Lemma check_email_shape v : result_ok (check_email v).
Proof.
  unfold check_email.
  destruct (is_empty _); [done|]. destruct (negb _); done.
Qed.

Lemma check_password_shape v : result_ok (check_password v).
Proof.
  unfold check_password.
  destruct (_ <? _)%nat; [done|]. destruct (negb _); done.
Qed.

Lemma check_confirmPassword_shape v pw : result_ok (check_confirmPassword v pw).
Proof.
  unfold check_confirmPassword.
  destruct (is_empty _); [done|]. destruct (negb _); done.
Qed.

Lemma check_age_shape v : result_ok (check_age v).
Proof.
  unfold check_age. destruct (is_empty _); [done|].
  destruct (parseInt v) as [n|]; [|done].
  destruct ((n <? 13) || (n >? 120)); done.
Qed.

Lemma check_phone_shape v : result_ok (check_phone v).
Proof.
  unfold check_phone.
  destruct (str_eq _ _); [done|]. destruct (negb _); done.
Qed.

Lemma check_shape name v st r :
  In name (keys fields) -> check name v st = Returns r st -> result_ok r.
Proof.
  intros Hin. cbn in Hin.
  destruct Hin as [<-|[<-|[<-|[<-|[<-|[<-|[]]]]]]].
  - intros [= <-]. apply check_fullname_shape.
  - intros [= <-]. apply check_email_shape.
  - intros [= <-]. apply check_password_shape.
  - unfold check, field_ref, bind, read. cbn.
    destruct (document st !! "password"); [|done].
    intros [= <-]. apply check_confirmPassword_shape.
  - intros [= <-]. apply check_age_shape.
  - intros [= <-]. apply check_phone_shape.
Qed.

Lemma revalidated_same names st vs :
  (forall n, In n names -> obj_get n vs = Some (verdict n st)) ->
  revalidated names st vs = vs.
Proof.
  unfold revalidated. induction names as [|n names IH]; intros H; cbn; [done|].
  rewrite (obj_set_same n (verdict n st) vs) by (apply H; now left).
  apply IH. intros m Hm. apply H. now right.
Qed.

Lemma forEach_cons_returns {A} (body : A -> M unit) x xs st st' :
  body x st = Returns tt st' -> forEach (x :: xs) body st = forEach xs body st'.
Proof. intros E. cbn [forEach]. now rewrite (bind_returns _ _ _ _ _ E). Qed.

Lemma forEach_cons_throws {A} (body : A -> M unit) x xs st st' :
  body x st = Throws st' -> forEach (x :: xs) body st = Throws st'.
Proof. intros E. cbn [forEach]. now rewrite (bind_throws _ _ _ _ E). Qed.

End Shapes.

Lemma mount_page_ok : page_ok mount.
Proof.
  unfold page_ok. repeat constructor; vm_compute; eexists; reflexivity.
Qed.

Lemma filled_page_ok : page_ok filled.
Proof.
  unfold page_ok. repeat constructor; vm_compute; eexists; reflexivity.
Qed.

(* ===================================================================== *)
(** ** The claims                                                         *)
(* ===================================================================== *)

(** C1, as stated, fails: with the five required fields valid and a
    malformed phone number typed in, the button is enabled and every
    required entry is (and stays) true, yet the submit listener takes its
    rejection branch. *)
Lemma C1_phone_blocks_submit :
  allRequiredValid (validationState filled_bad_phone) = true /\
  disabled <$> (document filled_bad_phone !! "submit-btn") = Some false /\
  returned (on_submit filled_bad_phone) = true /\
  allRequiredValid (validationState (final (on_submit filled_bad_phone))) = true /\
  submit_allValid filled_bad_phone = false /\
  timers (final (on_submit filled_bad_phone)) = [(500%nat, RemoveShake)].
Proof. vm_compute. repeat split. Qed.

(** C1 (amended): [updateSubmitButton] enables the button exactly when the
    five required entries of the form state are true, whatever the phone
    entry holds; the submit listener, after revalidating every field,
    accepts (schedules the reset) exactly when the five required entries
    are then true and the phone value is itself valid, that is blank or
    matching the phone pattern. *)
Theorem C1_submission_gating st :
  page_ok st ->
  (exists st', updateSubmitButton st = Returns tt st' /\
     disabled <$> (document st' !! "submit-btn")
     = Some (negb (allRequiredValid (validationState st)))) /\
  (allRequiredValid (validationState st) = true <->
     forall n, In n requiredFields -> stored n st = Some true) /\
  (forall b, allRequiredValid (obj_set "phone" b (validationState st))
             = allRequiredValid (validationState st)) /\
  (exists st', on_submit st = Returns tt st' /\
     (timers st' = timers st ++ [(5000%nat, ResetForm)] <->
        submit_allValid st = true) /\
     submit_allValid st
     = allRequiredValid (validationState st')
       && (check_phone (value_of "phone" st)).1).
Proof.
  intros Hp. split; [|split; [|split]].
  - destruct (updateSubmitButton_spec st) as (st' & E & _ & _ & D).
    { apply (page_ok_has _ _ Hp). in_list. }
    eauto.
  - unfold allRequiredValid, stored. rewrite forallb_forall. split.
    + intros H n Hn. specialize (H n Hn).
      destruct (obj_get n (validationState st)) as [[]|]; done.
    + intros H n Hn. now rewrite (H n Hn).
  - intros b. apply allRequiredValid_phone.
  - destruct (on_submit_spec st Hp) as (st' & E & V & Vs & Hyes & Hno).
    exists st'. split; [exact E|]. split.
    + destruct (submit_allValid st) eqn:Ha.
      * destruct (Hyes eq_refl) as [T _]. tauto.
      * destruct (Hno eq_refl) as [T _]. split; [|done].
        rewrite T. intros H. apply app_inv_head in H. discriminate.
    + rewrite (submit_allValid_spec st Hp), Vs. unfold allRequiredValid.
      cbn [forallb requiredFields].
      rewrite !revalidated_get by in_list. cbn. rewrite !andb_true_r.
      rewrite <- !andb_assoc. done.
Qed.

Lemma C1_submission_gating_witness :
  page_ok filled /\
  exists st', on_submit filled = Returns tt st' /\
    (timers st' = timers filled ++ [(5000%nat, ResetForm)] <->
       submit_allValid filled = true) /\
    submit_allValid filled
    = allRequiredValid (validationState st')
      && (check_phone (value_of "phone" filled)).1.
Proof.
  split; [exact filled_page_ok|].
  exact (proj2 (proj2 (proj2 (C1_submission_gating filled filled_page_ok)))).
Defined.

(** C2, as stated, fails: after the password is edited behind an already
    confirmed confirmation, a submit is rejected and flips the stored
    confirmPassword entry from true to false. *)
Lemma C2_rejected_submit_changes_state :
  submit_allValid password_edited = false /\
  returned (on_submit password_edited) = true /\
  stored "confirmPassword" password_edited = Some true /\
  stored "confirmPassword" (final (on_submit password_edited)) = Some false /\
  validationState (final (on_submit password_edited))
  <> validationState password_edited.
Proof. vm_compute. repeat split. discriminate. Qed.

(** C2 (amended): on its rejection branch the submit listener adds the
    shake class to the form, schedules its removal, leaves the field values
    alone and leaves in the form state, for each field, the validity just
    recomputed from the current values; the form state is therefore
    unchanged when every entry already agreed with the current values. *)
Theorem C2_rejected_submit st :
  page_ok st -> submit_allValid st = false ->
  exists st', on_submit st = Returns tt st' /\
    timers st' = timers st ++ [(500%nat, RemoveShake)] /\
    (exists e, document st' !! "user-form" = Some e /\ "shake" ∈ classList e) /\
    same_values st st' /\
    (forall n, In n (keys fields) -> stored n st' = Some (verdict n st)) /\
    validationState st' = revalidated (keys fields) st (validationState st) /\
    ((forall n, In n (keys fields) -> stored n st = Some (verdict n st)) ->
     validationState st' = validationState st).
Proof.
  intros Hp Hrej.
  destruct (on_submit_spec st Hp) as (st' & E & V & Vs & _ & Hno).
  destruct (Hno Hrej) as [T Hshake].
  exists st'. repeat split; [exact E | exact T | exact Hshake | exact V | | exact Vs |].
  - intros n Hn. unfold stored. rewrite Vs. now apply revalidated_get.
  - intros Hsame. rewrite Vs. now apply revalidated_same.
Qed.

Lemma C2_rejected_submit_witness :
  page_ok mount /\ submit_allValid mount = false /\
  exists st', on_submit mount = Returns tt st' /\
    timers st' = timers mount ++ [(500%nat, RemoveShake)] /\
    (exists e, document st' !! "user-form" = Some e /\ "shake" ∈ classList e) /\
    same_values mount st' /\
    (forall n, In n (keys fields) -> stored n st' = Some (verdict n mount)) /\
    validationState st' = revalidated (keys fields) mount (validationState mount) /\
    ((forall n, In n (keys fields) -> stored n mount = Some (verdict n mount)) ->
     validationState st' = validationState mount).
Proof.
  split; [exact mount_page_ok|]. split; [reflexivity|].
  apply (C2_rejected_submit mount mount_page_ok). reflexivity.
Defined.

(** C3 at the failing input: with every field valid the form is submitted
    and the reset fires.  The closure throws; the age and phone entries are
    still true and the button was not recomputed (it stays enabled over an
    emptied form); and on a page that did have an element with the id the
    loop asks for, the phone entry would end false, not its mount value. *)
Theorem C3_reset_after_success :
  timers submitted = [(5000%nat, ResetForm)] /\
  returned (fire_timer 0 submitted) = false /\
  validationState (final (fire_timer 0 submitted))
  = [("fullname", false); ("email", false); ("password", false);
     ("confirmPassword", false); ("age", true); ("phone", true)] /\
  disabled <$> (document (final (fire_timer 0 submitted)) !! "submit-btn")
  = Some false /\
  (let st := with_document
               (<["confirmPassword-error" := blank]> (document submitted))
               submitted in
   returned (fire_timer 0 st) = true /\
   stored "phone" (final (fire_timer 0 st)) = Some false /\
   stored "phone" mount = Some true).
Proof. vm_compute. repeat split. Qed.

(** C4, as stated, fails: an 'input' (or a 'blur') on the password field
    does not re-evaluate confirmPassword; its stored entry stays true
    although the two values now differ. *)
Lemma C4_password_edit_leaves_confirm_stale :
  password_edited = final (input_event "password" (lit "Abcd12!@x") filled) /\
  returned (input_event "password" (lit "Abcd12!@x") filled) = true /\
  stored "confirmPassword" password_edited = Some true /\
  stored "confirmPassword" (final (blur_event "password" password_edited))
  = Some true /\
  value_of "confirmPassword" password_edited = lit "Abcd12!@" /\
  value_of "password" password_edited = lit "Abcd12!@x" /\
  verdict "confirmPassword" password_edited = false.
Proof. vm_compute. repeat split. Qed.

(** C4 (amended): confirmPassword is valid iff its value is non-empty and
    equal to the password field's current value; its stored entry is
    re-evaluated by the listener of the confirmPassword field itself
    ('input' or 'blur') and by a submit, after which it reflects the
    current pair of values, while the listener of the password field leaves
    it as it was. *)
Theorem C4_confirm_password_rule st :
  page_ok st ->
  (forall v pw, (check_confirmPassword v pw).1
                = negb (is_empty v) && str_eq v pw) /\
  verdict "confirmPassword" st
  = (negb (is_empty (value_of "confirmPassword" st))
     && str_eq (value_of "confirmPassword" st) (value_of "password" st)) /\
  (exists st', on_field_event "confirmPassword" st = Returns tt st' /\
     stored "confirmPassword" st' = Some (verdict "confirmPassword" st')) /\
  (exists st', on_submit st = Returns tt st' /\
     stored "confirmPassword" st' = Some (verdict "confirmPassword" st')) /\
  (exists st', on_field_event "password" st = Returns tt st' /\
     stored "confirmPassword" st' = stored "confirmPassword" st).
Proof.
  intros Hp. pose proof (page_ok_password _ Hp) as Hpw.
  assert (Hrule : forall v pw, (check_confirmPassword v pw).1
                               = negb (is_empty v) && str_eq v pw).
  { intros v pw. unfold check_confirmPassword.
    destruct (is_empty v); [done|]. destruct (str_eq v pw); done. }
  split; [exact Hrule|]. split; [|split; [|split]].
  - unfold verdict. rewrite (check_confirmPassword_at _ _ Hpw). apply Hrule.
  - destruct (on_field_event_spec "confirmPassword" st Hp)
      as (st' & E & K & Vs & _); [in_list|].
    exists st'. split; [exact E|]. unfold stored.
    rewrite Vs, obj_get_set_eq, (verdict_keeps _ _ _ K Hpw). done.
  - destruct (on_submit_spec st Hp) as (st' & E & V & Vs & _).
    exists st'. split; [exact E|]. unfold stored.
    rewrite Vs, revalidated_get by in_list.
    now rewrite (verdict_same_values _ _ _ V Hpw).
  - destruct (on_field_event_spec "password" st Hp)
      as (st' & E & K & Vs & _); [in_list|].
    exists st'. split; [exact E|]. unfold stored.
    rewrite Vs. now apply obj_get_set_ne.
Qed.

Lemma C4_confirm_password_rule_witness :
  page_ok filled /\
  exists st', on_field_event "confirmPassword" filled = Returns tt st' /\
    stored "confirmPassword" st' = Some (verdict "confirmPassword" st').
Proof.
  split; [exact filled_page_ok|].
  exact (proj1 (proj2 (proj2 (C4_confirm_password_rule filled filled_page_ok)))).
Defined.

(** C5, as stated, fails: a password of nine code units with a lowercase
    letter, an uppercase letter, a digit and an allowed symbol is rejected
    because it also holds a [#]. *)
Lemma C5_four_classes_not_enough :
  let v := lit "Abcd12!@#" in
  (8 <= length v)%nat /\ existsb is_lower v = true /\
  existsb is_upper v = true /\ existsb is_digit v = true /\
  existsb is_symbol v = true /\
  check_password v
  = (false, "Password must contain uppercase, lowercase, number, and special character.").
Proof. vm_compute. repeat split. lia. Qed.

(** C5 (amended): [validateField] on the password field returns invalid
    with the length message when the value has fewer than 8 code units;
    otherwise it returns valid when the value contains a lowercase letter,
    an uppercase letter, a digit and one of [@$!%*?&] and consists only of
    ASCII letters, digits and those symbols, and invalid with the
    requirements message in every other case.  "Abc12345" and "short1!"
    are invalid, "Abcd12!@" is valid. *)
Theorem C5_password_rule v st :
  page_ok st ->
  (exists st', validateField "password" v st
               = Returns (check_password v).1 st') /\
  check "password" v st = Returns (check_password v) st /\
  check_password v
  = (if (length v <? 8)%nat then
       (false, "Password must be at least 8 characters long.")
     else if forallb is_password_char v && existsb is_lower v
             && existsb is_upper v && existsb is_digit v
             && existsb is_symbol v then (true, "")
     else (false, "Password must contain uppercase, lowercase, number, and special character.")) /\
  (check_password (lit "Abc12345")).1 = false /\
  (check_password (lit "Abcd12!@")).1 = true /\
  (check_password (lit "short1!")).1 = false.
Proof.
  intros Hp. split; [|split; [reflexivity|split; [|by vm_compute]]].
  - destruct (validateField_spec "password" v st Hp) as (r & st' & Hc & Hv & _);
      [in_list|].
    injection Hc as <-. eauto.
  - unfold check_password. rewrite test_passwordRegex. unfold password_ok.
    destruct (Nat.ltb_spec (length v) 8) as [Hlt|Hge]; [done|].
    apply Nat.leb_le in Hge. rewrite Hge. cbn [andb].
    destruct (forallb is_password_char v && existsb is_lower v
              && existsb is_upper v && existsb is_digit v
              && existsb is_symbol v); done.
Qed.

Lemma C5_password_rule_witness :
  page_ok mount /\
  exists st', validateField "password" (lit "Abcd12!@") mount
              = Returns (check_password (lit "Abcd12!@")).1 st'.
Proof.
  split; [exact mount_page_ok|].
  exact (proj1 (C5_password_rule (lit "Abcd12!@") mount mount_page_ok)).
Defined.

(** C6: [validateField] on the age field returns invalid iff the value is
    empty, or [parseInt] gives NaN, or the parsed number is below 13 or
    above 120; otherwise valid.  "13" and "120" are valid; "12", "121" and
    "abc" are invalid. *)
Theorem C6_age_rule v st :
  page_ok st ->
  (exists st', validateField "age" v st = Returns (check_age v).1 st') /\
  ((check_age v).1 = false <->
     v = [] \/ parseInt v = None \/
     exists n, parseInt v = Some n /\ (n < 13 \/ 120 < n)) /\
  ((check_age v).1 = true <->
     v <> [] /\ exists n, parseInt v = Some n /\ 13 <= n <= 120) /\
  (check_age (lit "13")).1 = true /\ (check_age (lit "120")).1 = true /\
  (check_age (lit "12")).1 = false /\ (check_age (lit "121")).1 = false /\
  (check_age (lit "abc")).1 = false.
Proof.
  intros Hp. split; [|split; [|split; [|by vm_compute]]].
  - destruct (validateField_spec "age" v st Hp) as (r & st' & Hc & Hv & _);
      [in_list|].
    injection Hc as <-. eauto.
  - unfold check_age. destruct v as [|c v]; cbn [is_empty fst]; [tauto|].
    destruct (parseInt (c :: v)) as [n|]; cbn [fst].
    + destruct (Z.ltb_spec n 13), (Z.gtb_spec n 120); cbn; split;
        try done; try (intros _; right; right; exists n; split; [done|lia]).
      intros [H1|[H1|(m & [= <-] & Hm)]]; [done|done|lia].
    + split; [tauto | done].
  - unfold check_age. destruct v as [|c v]; cbn [is_empty fst].
    { split; [done | intros [H _]; done]. }
    destruct (parseInt (c :: v)) as [n|]; cbn [fst].
    + destruct (Z.ltb_spec n 13), (Z.gtb_spec n 120); cbn; split;
        try done; try (intros [_ (m & [= <-] & Hm)]; lia).
      intros _. split; [done|]. exists n. split; [done|lia].
    + split; [done | intros [_ (m & Hm & _)]; done].
Qed.

Lemma C6_age_rule_witness :
  page_ok mount /\
  exists st', validateField "age" (lit "120") mount
              = Returns (check_age (lit "120")).1 st'.
Proof.
  split; [exact mount_page_ok|].
  exact (proj1 (C6_age_rule (lit "120") mount mount_page_ok)).
Defined.

(** C7: for each of the six declared fields and every string,
    [validateField] returns: the [switch] yields a validity and a message
    (empty when valid, non-empty when invalid) and the call ends normally
    with that validity; no input makes it throw. *)
Theorem C7_validateField_total name v st :
  page_ok st -> In name (keys fields) ->
  exists isValid errorMessage st',
    check name v st = Returns (isValid, errorMessage) st /\
    validateField name v st = Returns isValid st' /\
    (if isValid then errorMessage = "" else errorMessage <> "").
Proof.
  intros Hp Hin.
  destruct (validateField_spec name v st Hp Hin)
    as ([b msg] & st' & Hc & Hv & _).
  exists b, msg, st'. split; [exact Hc|]. split; [exact Hv|].
  exact (check_shape name v st (b, msg) Hin Hc).
Qed.

Lemma C7_validateField_total_witness :
  page_ok mount /\ In "email" (keys fields) /\
  exists isValid errorMessage st',
    check "email" [26085; 26412; 35486; 8232; 55357; 56832]%N mount
    = Returns (isValid, errorMessage) mount /\
    validateField "email" [26085; 26412; 35486; 8232; 55357; 56832]%N mount
    = Returns isValid st' /\
    (if isValid then errorMessage = "" else errorMessage <> "").
Proof.
  split; [exact mount_page_ok|]. split; [in_list|].
  apply (C7_validateField_total "email" _ mount mount_page_ok). in_list.
Defined.

(** C8: the reset closure looks the message element up under
    [field + "-error"], which for confirmPassword is not the id
    [validateField] uses; on a page without an element of that id, with the
    entries in declaration order, the loop throws at the confirmPassword
    entry (after storing false for it), and the age and phone entries keep
    whatever they held. *)
Theorem C8_reset_faults_at_confirmPassword st b1 b2 b3 b4 b5 b6 :
  page_ok st ->
  document st !! "confirmPassword-error" = None ->
  validationState st
  = [("fullname", b1); ("email", b2); ("password", b3);
     ("confirmPassword", b4); ("age", b5); ("phone", b6)] ->
  ("confirmPassword" ++ "-error")%string <> errorElementId "confirmPassword" /\
  getElementById ("confirmPassword" ++ "-error")%string st = Returns None st /\
  exists st', resetForm st = Throws st' /\
    validationState st'
    = [("fullname", false); ("email", false); ("password", false);
       ("confirmPassword", false); ("age", b5); ("phone", b6)] /\
    stored "age" st' = stored "age" st /\
    stored "phone" st' = stored "phone" st.
Proof.
  intros Hp Hmiss Hvs. split; [done|].
  split; [now apply getElementById_missing|].
  destruct (reset_prologue st Hp) as (s0 & S0 & V0 & E0).
  assert (Hhas : forall s id, same_elements st s -> In id page_ids ->
                              is_Some (document s !! id)).
  { intros s id Hs Hid. eapply same_elements_present; [exact Hs|].
    now apply (page_ok_has _ _ Hp). }
  destruct (reset_entry_returns "fullname" "fullname" s0)
    as (s1 & E1 & S1 & V1); [done | apply Hhas; [done|in_list] ..|].
  pose proof (same_elements_trans _ _ _ S0 S1) as S01.
  destruct (reset_entry_returns "email" "email" s1)
    as (s2 & E2 & S2 & V2); [done | apply Hhas; [done|in_list] ..|].
  pose proof (same_elements_trans _ _ _ S01 S2) as S02.
  destruct (reset_entry_returns "password" "password" s2)
    as (s3 & E3 & S3 & V3); [done | apply Hhas; [done|in_list] ..|].
  pose proof (same_elements_trans _ _ _ S02 S3) as S03.
  destruct (reset_entry_throws "confirmPassword" "confirm-password" s3)
    as (s4 & E4 & S4 & V4);
    [done | apply Hhas; [done|in_list] | now apply (S03 _)|].
  exists s4.
  assert (Hfinal : validationState s4
    = [("fullname", false); ("email", false); ("password", false);
       ("confirmPassword", false); ("age", b5); ("phone", b6)]).
  { rewrite V4, V3, V2, V1, V0, Hvs. reflexivity. }
  split; [|split; [exact Hfinal|]].
  - unfold resetForm. rewrite E0.
    unfold bind at 1. rewrite V0, Hvs. cbn [keys List.map fst].
    apply bind_throws.
    rewrite (forEach_cons_returns _ _ _ _ _ E1).
    rewrite (forEach_cons_returns _ _ _ _ _ E2).
    rewrite (forEach_cons_returns _ _ _ _ _ E3).
    exact (forEach_cons_throws _ _ _ _ _ E4).
  - unfold stored. rewrite Hfinal, Hvs. split; reflexivity.
Qed.

Lemma C8_reset_faults_at_confirmPassword_witness :
  page_ok submitted /\
  document submitted !! "confirmPassword-error" = None /\
  exists st', resetForm submitted = Throws st' /\
    validationState st'
    = [("fullname", false); ("email", false); ("password", false);
       ("confirmPassword", false); ("age", true); ("phone", true)].
Proof.
  assert (Hp : page_ok submitted).
  { unfold page_ok. repeat constructor; vm_compute; eexists; reflexivity. }
  split; [exact Hp|]. split; [reflexivity|].
  destruct (C8_reset_faults_at_confirmPassword submitted
              true true true true true true Hp eq_refl eq_refl)
    as (_ & _ & st' & E & V & _).
  exists st'. split; [exact E | exact V].
Defined.

(** C9: whenever the leading run of decimal digits of the value denotes a
    number from 13 to 120, [validateField] on the age field returns valid,
    whatever follows the digits: "13abc" and "15.5" are accepted. *)
Theorem C9_age_numeric_prefix v st :
  page_ok st ->
  13 <= decimal_value (leading_digits v) <= 120 ->
  parseInt v = Some (decimal_value (leading_digits v)) /\
  check_age v = (true, "") /\
  exists st', validateField "age" v st = Returns true st'.
Proof.
  intros Hp [Hlo Hhi].
  pose proof (parseInt_leading_digits v Hlo) as Hparse.
  assert (Hcheck : check_age v = (true, "")).
  { unfold check_age. rewrite Hparse.
    destruct v as [|c v]; [cbn in Hlo; lia|]. cbn [is_empty].
    destruct (Z.ltb_spec (decimal_value (leading_digits (c :: v))) 13); [lia|].
    destruct (Z.gtb_spec (decimal_value (leading_digits (c :: v))) 120); [lia|].
    done. }
  split; [exact Hparse|]. split; [exact Hcheck|].
  destruct (validateField_spec "age" v st Hp) as (r & st' & Hc & Hv & _);
    [in_list|].
  injection Hc as <-. rewrite Hcheck in Hv. eauto.
Qed.

Lemma C9_age_numeric_prefix_witness :
  (page_ok mount /\
   13 <= decimal_value (leading_digits (lit "13abc")) <= 120 /\
   exists st', validateField "age" (lit "13abc") mount = Returns true st') /\
  (13 <= decimal_value (leading_digits (lit "15.5")) <= 120 /\
   exists st', validateField "age" (lit "15.5") mount = Returns true st').
Proof.
  split.
  - split; [exact mount_page_ok|]. split; [vm_compute; split; discriminate|].
    apply (C9_age_numeric_prefix (lit "13abc") mount mount_page_ok).
    vm_compute; split; discriminate.
  - split; [vm_compute; split; discriminate|].
    apply (C9_age_numeric_prefix (lit "15.5") mount mount_page_ok).
    vm_compute; split; discriminate.
Defined.

(** C10: a password that [validateField] accepts consists only of ASCII
    letters, digits and the symbols [@ $ ! % * ? &]; so a value holding any
    other code unit is rejected, however long it is and whatever else it
    contains. *)
Theorem C10_password_alphabet v st st' :
  page_ok st ->
  validateField "password" v st = Returns true st' ->
  (forall c, In c v -> is_password_char c = true) /\
  (check_password (lit "Abcd12!@#")).1 = false /\
  (check_password (lit "Abcd 12!@")).1 = false.
Proof.
  intros Hp Hv. split; [|by vm_compute].
  destruct (validateField_spec "password" v st Hp) as (r & s & Hc & Hv' & _);
    [in_list|].
  injection Hc as <-. rewrite Hv in Hv'. injection Hv' as Hok _.
  symmetry in Hok. unfold check_password in Hok.
  destruct (length v <? 8)%nat; [done|].
  rewrite test_passwordRegex in Hok.
  destruct (password_ok v) eqn:Hpw; [|done].
  unfold password_ok in Hpw. rewrite !andb_true_iff in Hpw.
  destruct Hpw as [[[[[_ Hall] _] _] _] _].
  now apply forallb_forall.
Qed.

Lemma C10_password_alphabet_witness :
  page_ok mount /\
  validateField "password" (lit "Abcd12!@") mount
  = Returns true (final (validateField "password" (lit "Abcd12!@") mount)) /\
  forall c, In c (lit "Abcd12!@") -> is_password_char c = true.
Proof.
  split; [exact mount_page_ok|].
  assert (H : validateField "password" (lit "Abcd12!@") mount
              = Returns true
                  (final (validateField "password" (lit "Abcd12!@") mount)))
    by (vm_compute; reflexivity).
  split; [exact H|].
  exact (proj1 (C10_password_alphabet _ mount _ mount_page_ok H)).
Defined.

(* ===================================================================== *)
(** ** The matcher against what patterns denote                           *)
(* ===================================================================== *)

Section Adequacy.

Implicit Types (p : N -> bool) (s pre rest : jsstring) (q : position).

Lemma rep_spec p lo hi bos s q :
  In q (rep p lo hi bos s) <->
  exists pre, s = pre ++ q.2 /\ forallb p pre = true /\
              (lo <= length pre)%nat /\ within hi (length pre) /\
              q.1 = bos && is_empty pre.
Proof.
  assert (Hstop : forall lo bos s,
    In q (match lo with O => [(bos, s)] | _ => [] end) <->
    lo = O /\ q = (bos, s)).
  { intros [|n] b t; cbn; [|split; [tauto | intros [? _]; lia]].
    split; [intros [<-|[]]; done | intros [_ ->]; now left]. }
  assert (Hnil : forall lo hi bos s,
    (lo = O /\ q = (bos, s)) ->
    exists pre, s = pre ++ q.2 /\ forallb p pre = true /\
                (lo <= length pre)%nat /\ within hi (length pre) /\
                q.1 = bos && is_empty pre).
  { intros l h b t [-> ->]. exists []. cbn. rewrite andb_true_r.
    repeat split; [lia | destruct h; cbn; [lia | done]]. }
  revert lo hi bos. induction s as [|c s IH]; intros lo hi bos.
  - assert (E : rep p lo hi bos [] = match lo with O => [(bos, [])] | _ => [] end)
      by (destruct hi as [[|h]|]; reflexivity).
    rewrite E, Hstop. split; [apply Hnil|].
    intros (pre & Hs & _ & Hlo & _ & Hb).
    symmetry in Hs. apply app_eq_nil in Hs as [-> Hq]. cbn in *.
    rewrite andb_true_r in Hb. split; [lia|].
    destruct q as [b r]; cbn in *. congruence.
  - destruct (decide (hi = Some O)) as [->|Hhi].
    + cbn [rep]. rewrite Hstop. split; [apply Hnil|].
      intros (pre & Hs & _ & Hlo & Hh & Hb). cbn in Hh.
      destruct pre; [|cbn in Hh; lia]. cbn in *.
      rewrite andb_true_r in Hb. split; [lia|].
      destruct q as [b r]; cbn in *. congruence.
    + assert (E : rep p lo hi bos (c :: s)
                  = if p c then rep p (Nat.pred lo) (Nat.pred <$> hi) false s
                                 ++ match lo with O => [(bos, c :: s)] | _ => [] end
                    else match lo with O => [(bos, c :: s)] | _ => [] end).
      { destruct hi as [[|h]|]; [done | reflexivity | reflexivity]. }
      rewrite E. destruct (p c) eqn:Hc.
      * rewrite in_app_iff, IH, Hstop. split.
        -- intros [(pre & Hs & Hp & Hlo & Hh & Hb)|Hst]; [|now apply Hnil].
           exists (c :: pre). cbn. rewrite Hc, Hp, Hs, andb_false_r.
           cbn in Hb. repeat split; [lia | | done].
           destruct hi as [[|h]|]; cbn in *; [done | lia | done].
        -- intros (pre & Hs & Hp & Hlo & Hh & Hb). destruct pre as [|c' pre].
           ++ right. cbn in *. rewrite andb_true_r in Hb. split; [lia|].
              destruct q as [b r]; cbn in *. congruence.
           ++ left. cbn in Hs, Hp, Hlo, Hh, Hb. injection Hs as <- Hs.
              apply andb_true_iff in Hp as [_ Hp]. rewrite andb_false_r in Hb.
              exists pre. cbn. repeat split; [done | done | lia | | done].
              destruct hi as [[|h]|]; cbn in *; [done | lia | done].
      * rewrite Hstop. split; [apply Hnil|].
        intros (pre & Hs & Hp & Hlo & Hh & Hb). destruct pre as [|c' pre].
        -- cbn in *. rewrite andb_true_r in Hb. split; [lia|].
           destruct q as [b r]; cbn in *. congruence.
        -- cbn in Hs, Hp. injection Hs as <- Hs. rewrite Hc in Hp. done.
Qed.

Lemma is_empty_app s1 s2 : is_empty (s1 ++ s2) = is_empty s1 && is_empty s2.
Proof. destruct s1; [done | reflexivity]. Qed.

(** The positions the backtracking matcher reaches are exactly those the
    pattern denotes. *)
Lemma rmatch_denote r : forall bos s q,
  In q (rmatch r (bos, s)) <->
  exists pre, s = pre ++ q.2 /\ denote r bos pre q.2 /\
              q.1 = bos && is_empty pre.
Proof.
  induction r as [| |x|cs|cs lo hi|r1 IH1 r2 IH2|r IH|r IH]; intros bos s q.
  - cbn. destruct bos; cbn.
    + split.
      * intros [<-|[]]. exists []. done.
      * intros (pre & Hs & [-> _] & Hb). left.
        destruct q as [b t]; cbn in *. congruence.
    + split; [tauto|]. intros (pre & _ & [_ ?] & _). done.
  - cbn. destruct s as [|c s]; cbn.
    + split.
      * intros [<-|[]]. exists []. cbn. now rewrite andb_true_r.
      * intros (pre & Hs & [-> Hr] & Hb). left. cbn in Hb.
        rewrite andb_true_r in Hb. destruct q as [b t]; cbn in *. congruence.
    + split; [tauto|]. intros (pre & Hs & [-> Hr] & _).
      cbn in Hs. rewrite Hr in Hs. done.
  - cbn. destruct s as [|c s]; cbn.
    + split; [tauto|]. intros (pre & Hs & -> & _). done.
    + destruct (N.eqb_spec c (chr x)) as [->|Hne]; cbn.
      * split.
        -- intros [<-|[]]. exists [chr x]. cbn. now rewrite andb_false_r.
        -- intros (pre & Hs & -> & Hb). left.
           destruct q as [b t]. cbn [fst snd is_empty app] in Hs, Hb.
           rewrite andb_false_r in Hb. injection Hs as Hs. now subst.
      * split; [tauto|]. intros (pre & Hs & -> & _). cbn in Hs. congruence.
  - cbn. destruct s as [|c s]; cbn.
    + split; [tauto|]. intros (pre & Hs & (c & -> & _) & _). done.
    + destruct (in_charset cs c) eqn:Hc; cbn.
      * split.
        -- intros [<-|[]]. exists [c]. cbn. rewrite andb_false_r. eauto.
        -- intros (pre & Hs & (c' & -> & _) & Hb). left.
           destruct q as [b t]. cbn [fst snd is_empty app] in Hs, Hb.
           rewrite andb_false_r in Hb. injection Hs as _ Hs. now subst.
      * split; [tauto|]. intros (pre & Hs & (c' & -> & Hc') & _).
        cbn in Hs. congruence.
  - cbn [rmatch fst snd denote]. rewrite rep_spec. split.
    + intros (pre & ? & ? & ? & ? & ?). exists pre. done.
    + intros (pre & ? & (? & ? & ?) & ?). exists pre. done.
  - cbn [rmatch denote]. rewrite in_flat_map. split.
    + intros ([b1 s1] & H1 & H2).
      apply IH1 in H1 as (p1 & Hs1 & D1 & Hb1).
      apply IH2 in H2 as (p2 & Hs2 & D2 & Hb2). cbn in *.
      exists (p1 ++ p2). rewrite <- app_assoc, <- Hs2.
      split; [done|]. split.
      * exists p1, p2. rewrite <- Hs2, <- Hb1. done.
      * rewrite is_empty_app, andb_assoc, <- Hb1. done.
    + intros (pre & Hs & (p1 & p2 & -> & D1 & D2) & Hb).
      exists (bos && is_empty p1, p2 ++ q.2). split.
      * apply IH1. exists p1. cbn. rewrite <- app_assoc in Hs. done.
      * apply IH2. exists p2. cbn. rewrite is_empty_app, andb_assoc in Hb. done.
  - cbn [rmatch denote]. split.
    + destruct (rmatch r (bos, s)) as [|q' l] eqn:E; [done|].
      intros [<-|[]]. exists []. cbn. rewrite andb_true_r.
      split; [done|]. split; [|done]. split; [done|].
      assert (H : In q' (rmatch r (bos, s))) by (rewrite E; now left).
      apply IH in H as (p & Hs & D & _). eauto.
    + intros (pre & Hs & (-> & p & rest' & Hr & D) & Hb). cbn in Hs, Hb.
      rewrite andb_true_r in Hb.
      assert (H : In (bos && is_empty p, rest') (rmatch r (bos, s))).
      { apply IH. exists p. cbn. rewrite Hs, Hr. done. }
      destruct (rmatch r (bos, s)); [done|]. left.
      destruct q as [b t]; cbn in *. congruence.
  - cbn [rmatch denote]. apply IH.
Qed.

(** [test] on a pattern anchored at both ends: the whole input is what the
    body denotes. *)
Lemma test_anchored_denote r s :
  test (RSeq RBol (RSeq r REol)) s = true <-> denote r true s [].
Proof.
  rewrite test_anchored, matches_at_true. split.
  - intros (q & Hq). apply rmatch_denote in Hq as (pre & Hs & D & _).
    cbn in D. destruct D as (p1 & p2 & -> & D1 & -> & Hr).
    rewrite Hr, !app_nil_r in *. now subst.
  - intros D. exists (is_empty s, []). apply rmatch_denote.
    exists s. cbn. rewrite app_nil_r. split; [done|]. split; [|done].
    exists s, []. rewrite app_nil_r. done.
Qed.

End Adequacy.

(* ===================================================================== *)
(** ** trim                                                               *)
(* ===================================================================== *)

Section Trim.

Implicit Types (s w : jsstring).

Lemma forallb_rev {A} (f : A -> bool) (l : list A) :
  forallb f (rev l) = forallb f l.
Proof.
  induction l as [|x l IH]; [done|]. cbn [rev forallb].
  rewrite forallb_app, IH. cbn. rewrite andb_true_r. apply andb_comm.
Qed.

Lemma trimStart_blank s : is_empty (trimStart s) = forallb is_white_space s.
Proof.
  induction s as [|c s IH]; [done|]. cbn.
  destruct (is_white_space c); [exact IH | done].
Qed.

Lemma trimStart_keeps_content s :
  forallb is_white_space (trimStart s) = forallb is_white_space s.
Proof.
  induction s as [|c s IH]; [done|]. cbn.
  destruct (is_white_space c) eqn:E; [exact IH | cbn; now rewrite E].
Qed.

Lemma is_empty_rev s : is_empty (rev s) = is_empty s.
Proof.
  destruct s as [|c s]; [done|]. cbn. now destruct (rev s).
Qed.

(** A value trims to the empty string exactly when it is made of white
    space only. *)
Lemma trim_blank s : is_empty (trim s) = forallb is_white_space s.
Proof.
  unfold trim, trimEnd.
  now rewrite is_empty_rev, trimStart_blank, forallb_rev, trimStart_keeps_content.
Qed.

Lemma trimStart_app_blank w s :
  forallb is_white_space w = true -> trimStart (w ++ s) = trimStart s.
Proof.
  induction w as [|c w IH]; [done|]. cbn.
  intros H. apply andb_true_iff in H as [-> H]. auto.
Qed.

Lemma trimStart_app_content s w :
  forallb is_white_space s = false -> trimStart (s ++ w) = trimStart s ++ w.
Proof.
  induction s as [|c s IH]; [done|]. cbn.
  destruct (is_white_space c); [exact IH | done].
Qed.

(** White space around a value with some content does not survive [trim]. *)
Lemma trim_surrounded w1 s w2 :
  forallb is_white_space w1 = true -> forallb is_white_space w2 = true ->
  trim (w1 ++ s ++ w2) = trim s.
Proof.
  intros H1 H2. unfold trim, trimEnd. rewrite (trimStart_app_blank _ _ H1).
  destruct (forallb is_white_space s) eqn:Hs.
  - assert (Hall : forallb is_white_space (s ++ w2) = true)
      by (rewrite forallb_app, Hs, H2; done).
    pose proof (trimStart_blank (s ++ w2)) as E1. rewrite Hall in E1.
    pose proof (trimStart_blank s) as E2. rewrite Hs in E2.
    destruct (trimStart (s ++ w2)); [|done]. destruct (trimStart s); done.
  - rewrite (trimStart_app_content _ _ Hs), rev_app_distr.
    rewrite trimStart_app_blank by (now rewrite forallb_rev). done.
Qed.

End Trim.

(* ===================================================================== *)
(** ** The full-name, e-mail and phone patterns, read as predicates       *)
(* ===================================================================== *)

Section Patterns.

Implicit Types (s pre rest v : jsstring).

Lemma test_bol_denote r s :
  test (RSeq RBol r) s = true <->
  exists pre rest, s = pre ++ rest /\ denote r true pre rest.
Proof.
  rewrite test_anchored, matches_at_true. split.
  - intros (q & Hq). apply rmatch_denote in Hq as (pre & Hs & D & _). eauto.
  - intros (pre & rest & Hs & D). exists (is_empty pre, rest).
    apply rmatch_denote. exists pre. done.
Qed.

Lemma forallb_nonempty_length {A} (l : list A) : (1 <= length l)%nat <-> l <> [].
Proof. destruct l; cbn; split; try done; lia. Qed.

Lemma optional_length p s :
  optional p s <-> forallb p s = true /\ (length s <= 1)%nat.
Proof.
  unfold optional. split.
  - intros [->|(c & -> & Hc)]; cbn; [split; [done|lia]|].
    rewrite Hc. split; [done|lia].
  - intros [Hp Hl]. destruct s as [|c [|c' s]]; [now left | right | cbn in Hl; lia].
    cbn in Hp. rewrite andb_true_r in Hp. eauto.
Qed.

Lemma optional_ext p p' s :
  (forall c, p c = p' c) -> optional p s -> optional p' s.
Proof.
  intros E [->|(c & -> & Hc)]; [now left | right]. exists c. now rewrite <- E.
Qed.

Lemma name_class c :
  in_charset (CSet [CRange "a" "z"; CRange "A" "Z"; CSpace]) c = is_name_char c.
Proof. cbn. unfold is_name_char, is_lower, is_upper. now rewrite orb_false_r, orb_assoc. Qed.

Lemma email_class c :
  in_charset (CNot [CSpace; CChar "@"]) c = is_email_char c.
Proof. cbn. unfold is_email_char. now rewrite orb_false_r. Qed.

Lemma digit_class c : in_charset (CSet [CRange "0" "9"]) c = is_digit c.
Proof. cbn. unfold is_digit. now rewrite orb_false_r. Qed.

Lemma sep_class c :
  in_charset (CSet [CChar "-"; CChar "."; CChar " "]) c = is_phone_sep c.
Proof. cbn. unfold is_phone_sep. now rewrite orb_false_r, orb_assoc. Qed.

Lemma paren_class (x : ascii) c :
  in_charset (CSet [CChar x]) c = (chr x =? c)%N.
Proof. cbn. now rewrite orb_false_r, N.eqb_sym. Qed.

(** What [fullnameRegex.test] decides. *)
Lemma test_fullnameRegex s :
  test fullnameRegex s = negb (is_empty s) && forallb is_name_char s.
Proof.
  apply eq_true_iff_eq.
  change fullnameRegex with
    (RSeq RBol (RSeq (plus (CSet [CRange "a" "z"; CRange "A" "Z"; CSpace])) REol)).
  rewrite test_anchored_denote. cbn [denote plus].
  rewrite (forallb_congr _ _ s name_class), andb_true_iff, negb_true_iff.
  destruct s; cbn; split; try intros (? & ? & ?); try intros [? ?];
    try done; try lia.
  repeat split; [done | lia].
Qed.

(** What [emailRegex.test] decides. *)
Lemma test_emailRegex s : test emailRegex s = true <-> email_shape s.
Proof.
  change emailRegex with
    (RSeq RBol
       (RSeq (plus (CNot [CSpace; CChar "@"]))
          (RSeq (RChar "@")
             (RSeq (plus (CNot [CSpace; CChar "@"]))
                (RSeq (RChar ".")
                   (RSeq (plus (CNot [CSpace; CChar "@"])) REol)))))).
  rewrite test_bol_denote. unfold email_shape. cbn [denote plus]. split.
  - intros (pre & rest & -> &
            l & p2 & -> & (Hl & Hln & _) &
            at_ & p3 & -> & -> &
            d & p4 & -> & (Hd & Hdn & _) &
            dot & p5 & -> & -> &
            t & e & -> & (Ht & Htn & _) & -> & ->).
    exists l, d, t. rewrite !app_nil_r.
    rewrite (forallb_congr _ _ _ email_class) in Hl.
    rewrite (forallb_congr _ _ _ email_class) in Hd.
    rewrite (forallb_congr _ _ _ email_class) in Ht.
    apply forallb_nonempty_length in Hln, Hdn, Htn. done.
  - intros (l & d & t & -> & Hln & Hdn & Htn & Hl & Hd & Ht).
    rewrite <- (forallb_congr _ _ _ email_class) in Hl.
    rewrite <- (forallb_congr _ _ _ email_class) in Hd.
    rewrite <- (forallb_congr _ _ _ email_class) in Ht.
    apply forallb_nonempty_length in Hln, Hdn, Htn.
    exists (l ++ lit "@" ++ d ++ lit "." ++ t), []. rewrite app_nil_r.
    split; [done|].
    exists l, (lit "@" ++ d ++ lit "." ++ t). split; [done|]. split; [done|].
    exists (lit "@"), (d ++ lit "." ++ t). split; [done|]. split; [done|].
    exists d, (lit "." ++ t). split; [done|]. split; [done|].
    exists (lit "."), t. split; [done|]. split; [done|].
    exists t, []. rewrite app_nil_r. done.
Qed.

Lemma denote_opt cs bos pre rest :
  denote (opt cs) bos pre rest <-> optional (in_charset cs) pre.
Proof. cbn. rewrite optional_length. split; [tauto | intros [? ?]; repeat split; [done|lia|done]]. Qed.

Lemma denote_digits n bos pre rest :
  denote (RGroup (exactly n (CSet [CRange "0" "9"]))) bos pre rest
  <-> digit_run n pre.
Proof.
  cbn. unfold digit_run. rewrite (forallb_congr _ _ pre digit_class).
  split; [intros (? & ? & ?); split; [lia|done] | intros [? ?]; repeat split; [done|lia|lia]].
Qed.

(** What [phoneRegex.test] decides. *)
Lemma test_phoneRegex s : test phoneRegex s = true <-> phone_shape s.
Proof.
  change phoneRegex with
    (RSeq RBol
       (RSeq (opt (CSet [CChar "("]))
       (RSeq (RGroup (exactly 3 (CSet [CRange "0" "9"])))
       (RSeq (opt (CSet [CChar ")"]))
       (RSeq (opt (CSet [CChar "-"; CChar "."; CChar " "]))
       (RSeq (RGroup (exactly 3 (CSet [CRange "0" "9"])))
       (RSeq (opt (CSet [CChar "-"; CChar "."; CChar " "]))
       (RSeq (RGroup (exactly 4 (CSet [CRange "0" "9"]))) REol)))))))).
  rewrite test_bol_denote. unfold phone_shape. split.
  - intros (pre & rest & -> & D).
    destruct D as (op & p1 & -> & Dop & D). apply denote_opt in Dop.
    destruct D as (a & p2 & -> & Da & D). apply denote_digits in Da.
    destruct D as (cl & p3 & -> & Dcl & D). apply denote_opt in Dcl.
    destruct D as (s1 & p4 & -> & Ds1 & D). apply denote_opt in Ds1.
    destruct D as (b & p5 & -> & Db & D). apply denote_digits in Db.
    destruct D as (s2 & p6 & -> & Ds2 & D). apply denote_opt in Ds2.
    destruct D as (d & e & -> & Dd & -> & ->). apply denote_digits in Dd.
    exists op, a, cl, s1, b, s2, d. rewrite !app_nil_r.
    split; [done|].
    split; [eapply optional_ext; [apply paren_class | exact Dop]|].
    split; [done|].
    split; [eapply optional_ext; [apply paren_class | exact Dcl]|].
    split; [eapply optional_ext; [apply sep_class | exact Ds1]|].
    split; [done|].
    split; [eapply optional_ext; [apply sep_class | exact Ds2]|]. done.
  - intros (op & a & cl & s1 & b & s2 & d & -> & Hop & Ha & Hcl & Hs1 & Hb & Hs2 & Hd).
    exists (op ++ a ++ cl ++ s1 ++ b ++ s2 ++ d), []. rewrite app_nil_r.
    split; [done|].
    exists op, (a ++ cl ++ s1 ++ b ++ s2 ++ d). split; [done|]. split.
    { apply denote_opt. eapply optional_ext; [|exact Hop].
      intros c. symmetry. apply paren_class. }
    exists a, (cl ++ s1 ++ b ++ s2 ++ d). split; [done|].
    split; [now apply denote_digits|].
    exists cl, (s1 ++ b ++ s2 ++ d). split; [done|]. split.
    { apply denote_opt. eapply optional_ext; [|exact Hcl].
      intros c. symmetry. apply paren_class. }
    exists s1, (b ++ s2 ++ d). split; [done|]. split.
    { apply denote_opt. eapply optional_ext; [|exact Hs1].
      intros c. symmetry. apply sep_class. }
    exists b, (s2 ++ d). split; [done|]. split; [now apply denote_digits|].
    exists s2, d. split; [done|]. split.
    { apply denote_opt. eapply optional_ext; [|exact Hs2].
      intros c. symmetry. apply sep_class. }
    exists d, []. rewrite app_nil_r. split; [done|].
    split; [now apply denote_digits | done].
Qed.

End Patterns.

(* ===================================================================== *)
(** ** Further properties of the rules                                    *)
(* ===================================================================== *)

Section RuleFacts.

Implicit Types (v w s : jsstring).

Lemma count_if_app p s1 s2 :
  count_if p (s1 ++ s2) = (count_if p s1 + count_if p s2)%nat.
Proof. unfold count_if. now rewrite List.filter_app, length_app. Qed.

Lemma count_if_none p s :
  forallb (fun c => negb (p c)) s = true -> count_if p s = O.
Proof.
  unfold count_if. induction s as [|c s IH]; [done|]. cbn.
  intros H. apply andb_true_iff in H as [Hc H].
  apply negb_true_iff in Hc. rewrite Hc. auto.
Qed.

Lemma count_if_all p s : forallb p s = true -> count_if p s = length s.
Proof.
  unfold count_if. induction s as [|c s IH]; [done|]. cbn.
  intros H. apply andb_true_iff in H as [-> H]. cbn. now rewrite IH.
Qed.

Lemma forallb_impl {A} (f g : A -> bool) (l : list A) :
  (forall x, f x = true -> g x = true) ->
  forallb f l = true -> forallb g l = true.
Proof. rewrite !forallb_forall. auto. Qed.

Lemma email_char_plain c :
  is_email_char c = true ->
  negb (is_white_space c) = true /\ negb (c =? chr "@")%N = true.
Proof.
  unfold is_email_char. rewrite negb_true_iff, orb_false_iff.
  intros [-> ->]. done.
Qed.

Lemma email_shape_plain v :
  email_shape v ->
  forallb (fun c => negb (is_white_space c)) v = true /\
  count_if (N.eqb (chr "@")) v = 1%nat.
Proof.
  intros (l & d & t & -> & _ & _ & _ & Hl & Hd & Ht). split.
  - rewrite !forallb_app. cbn [lit list_ascii_of_string List.map forallb].
    rewrite !(forallb_impl _ _ _ (fun c H => proj1 (email_char_plain c H)))
      by done.
    reflexivity.
  - assert (Hno : forall s, forallb is_email_char s = true ->
                            count_if (N.eqb (chr "@")) s = O).
    { intros s Hs. apply count_if_none. revert Hs. apply forallb_impl.
      intros c Hc. rewrite N.eqb_sym. now apply email_char_plain. }
    rewrite !count_if_app, (Hno l Hl), (Hno d Hd), (Hno t Ht). reflexivity.
Qed.

Lemma not_all_blank v :
  v <> [] -> forallb (fun c => negb (is_white_space c)) v = true ->
  forallb is_white_space v = false.
Proof.
  destruct v as [|c v]; [done|]. cbn. intros _ H.
  apply andb_true_iff in H as [Hc _]. apply negb_true_iff in Hc.
  now rewrite Hc.
Qed.

Lemma email_shape_nonempty v : email_shape v -> v <> [].
Proof.
  intros (l & d & t & -> & Hl & _). destruct l; [done | discriminate].
Qed.

Lemma digit_run_count n s :
  digit_run n s -> count_if is_digit s = n /\ length s = n.
Proof. intros [Hl Hd]. now rewrite count_if_all. Qed.

Lemma optional_no_digit p s :
  (forall c, p c = true -> is_digit c = false) -> optional p s ->
  count_if is_digit s = O /\ (length s <= 1)%nat.
Proof.
  intros Hp [->|(c & -> & Hc)]; [cbn; split; [done|lia]|].
  unfold count_if. cbn. rewrite (Hp c Hc). cbn. split; [done|lia].
Qed.

Lemma paren_no_digit (x : N) c :
  is_digit x = false -> (x =? c)%N = true -> is_digit c = false.
Proof. intros Hx Hc. apply N.eqb_eq in Hc as <-. exact Hx. Qed.

Lemma sep_no_digit c : is_phone_sep c = true -> is_digit c = false.
Proof.
  unfold is_phone_sep. rewrite !orb_true_iff, !N.eqb_eq.
  intros [[->| ->]| ->]; reflexivity.
Qed.

Lemma age_blank_prefix w v :
  forallb is_white_space w = true -> parseInt (w ++ v) = parseInt v.
Proof. intros H. unfold parseInt. now rewrite (trimStart_app_blank _ _ H). Qed.

Lemma parseInt_blank w : forallb is_white_space w = true -> parseInt w = None.
Proof.
  intros H. unfold parseInt.
  pose proof (trimStart_blank w) as E. rewrite H in E.
  destruct (trimStart w); [reflexivity | done].
Qed.

End RuleFacts.

(** X1: the full-name rule.  After trimming, fewer than two code units give
    the length message; otherwise the name is valid exactly when every
    code unit is an ASCII letter or white space, and gets the letters
    message when not. *)
Theorem fullname_rule v :
  check_fullname v
  = (if (length (trim v) <? 2)%nat then
       (false, "Full name must be at least 2 characters long.")
     else if forallb is_name_char (trim v) then (true, "")
     else (false, "Full name can only contain letters and spaces.")).
Proof.
  unfold check_fullname. rewrite test_fullnameRegex.
  destruct (Nat.ltb_spec (length (trim v)) 2) as [|Hlen]; [done|].
  destruct (trim v) as [|c t]; [cbn in Hlen; lia|]. cbn [is_empty negb andb].
  now destruct (forallb is_name_char (c :: t)).
Qed.

(** X2: white space before and after the name plays no part in the
    full-name verdict or message. *)
Theorem fullname_ignores_padding w1 v w2 :
  forallb is_white_space w1 = true -> forallb is_white_space w2 = true ->
  check_fullname (w1 ++ v ++ w2) = check_fullname v.
Proof.
  intros H1 H2. unfold check_fullname. now rewrite (trim_surrounded _ _ _ H1 H2).
Qed.

Lemma fullname_ignores_padding_witness :
  check_fullname (lit "  " ++ lit "Mary Ann" ++ [9; 160]%N)
  = check_fullname (lit "Mary Ann") /\
  (check_fullname (lit "Mary Ann")).1 = true.
Proof.
  split; [|reflexivity].
  apply (fullname_ignores_padding (lit "  ") (lit "Mary Ann") [9; 160]%N);
    reflexivity.
Defined.

(** X3: the e-mail rule.  A value is valid exactly when it reads
    local@domain.tld with three non-empty runs free of white space and of
    [@]; an invalid value gets the "required" message when it is empty or
    all white space and the format message otherwise. *)
Theorem email_rule v :
  ((check_email v).1 = true <-> email_shape v) /\
  check_email v
  = (if forallb is_white_space v then (false, "Email address is required.")
     else if test emailRegex v then (true, "")
     else (false, "Please enter a valid email address.")).
Proof.
  assert (E : check_email v
    = (if forallb is_white_space v then (false, "Email address is required.")
       else if test emailRegex v then (true, "")
       else (false, "Please enter a valid email address."))).
  { unfold check_email. rewrite trim_blank.
    destruct (forallb is_white_space v); [done|].
    now destruct (test emailRegex v). }
  split; [|exact E]. rewrite E. split.
  - destruct (forallb is_white_space v); [done|].
    destruct (test emailRegex v) eqn:T; [|done].
    intros _. now apply test_emailRegex.
  - intros Hs. pose proof (proj2 (test_emailRegex v) Hs) as T.
    destruct (email_shape_plain v Hs) as [Hplain _].
    rewrite (not_all_blank v (email_shape_nonempty v Hs) Hplain), T. done.
Qed.

(** X4: a valid e-mail address holds no white space at all and exactly one
    [@]; the value is matched untrimmed, so a valid address with white
    space put before or after it is rejected with the format message. *)
Theorem email_valid_plain v :
  (check_email v).1 = true ->
  forallb (fun c => negb (is_white_space c)) v = true /\
  count_if (N.eqb (chr "@")) v = 1%nat /\
  forall w, w <> [] -> forallb is_white_space w = true ->
    check_email (v ++ w) = (false, "Please enter a valid email address.") /\
    check_email (w ++ v) = (false, "Please enter a valid email address.").
Proof.
  intros Hv. apply email_rule in Hv.
  destruct (email_shape_plain v Hv) as [Hplain Hat].
  split; [exact Hplain|]. split; [exact Hat|].
  intros w Hw Hblank.
  assert (Hnb : forallb is_white_space v = false)
    by (apply not_all_blank; [now apply email_shape_nonempty | done]).
  assert (Hbad : forall u, (exists c, In c u /\ is_white_space c = true) ->
                           forallb is_white_space u = false ->
                           check_email u
                           = (false, "Please enter a valid email address.")).
  { intros u (c & Hin & Hc) Hu. rewrite (proj2 (email_rule u)), Hu.
    destruct (test emailRegex u) eqn:T; [|done]. exfalso.
    apply test_emailRegex, email_shape_plain in T as [T _].
    rewrite forallb_forall in T. specialize (T c Hin). now rewrite Hc in T. }
  assert (Hc : exists c, In c w /\ is_white_space c = true).
  { destruct w as [|c w]; [done|]. exists c. cbn in Hblank.
    apply andb_true_iff in Hblank as [? _]. split; [now left | done]. }
  destruct Hc as (c & Hin & Hc). split; apply Hbad.
  - exists c. split; [apply in_or_app; now right | done].
  - rewrite forallb_app, Hnb. done.
  - exists c. split; [apply in_or_app; now left | done].
  - rewrite forallb_app, Hnb. apply andb_false_r.
Qed.

Lemma email_valid_plain_witness :
  (check_email (lit "a@b.co")).1 = true /\
  count_if (N.eqb (chr "@")) (lit "a@b.co") = 1%nat /\
  check_email (lit "a@b.co" ++ lit " ")
  = (false, "Please enter a valid email address.").
Proof.
  split; [reflexivity|].
  destruct (email_valid_plain (lit "a@b.co") eq_refl) as (_ & Hat & Hpad).
  split; [exact Hat|]. apply (Hpad (lit " ")); [discriminate | reflexivity].
Defined.

(** X5: the phone rule.  A value is valid exactly when it is empty or all
    white space, or reads: an optional [(], three digits, an optional [)],
    an optional separator, three digits, an optional separator, four
    digits; the two parentheses are independent of each other. *)
Theorem phone_rule v :
  ((check_phone v).1 = true <->
     forallb is_white_space v = true \/ phone_shape v) /\
  ((check_phone v).1 = false ->
     check_phone v
     = (false, "Please enter a valid phone number (e.g., (123) 456-7890).")).
Proof.
  assert (E : check_phone v
    = (if forallb is_white_space v then (true, "")
       else if test phoneRegex v then (true, "")
       else (false, "Please enter a valid phone number (e.g., (123) 456-7890)."))).
  { unfold check_phone, str_eq. rewrite <- trim_blank.
    destruct (trim v) as [|c t]; [done|].
    rewrite bool_decide_eq_false_2 by done. cbn [is_empty].
    now destruct (test phoneRegex v). }
  rewrite E. split.
  - destruct (forallb is_white_space v); [cbn; tauto|].
    destruct (test phoneRegex v) eqn:T; cbn.
    + split; [|done]. intros _. right. now apply test_phoneRegex.
    + split; [done|]. intros [?|Hs]; [done|].
      apply test_phoneRegex in Hs. congruence.
  - destruct (forallb is_white_space v); [done|].
    now destruct (test phoneRegex v).
Qed.

(** X6: a phone number of the accepted shape has exactly ten digits and
    between ten and fourteen code units. *)
Theorem phone_shape_ten_digits v :
  phone_shape v ->
  count_if is_digit v = 10%nat /\ (10 <= length v <= 14)%nat /\
  (check_phone v).1 = true.
Proof.
  intros Hs. pose proof Hs as (op & a & cl & s1 & b & s2 & d & -> &
                               Hop & Ha & Hcl & Hs1 & Hb & Hs2 & Hd).
  destruct (optional_no_digit _ _ (fun c => paren_no_digit (chr "(") c eq_refl) Hop)
    as [C1 L1].
  destruct (optional_no_digit _ _ (fun c => paren_no_digit (chr ")") c eq_refl) Hcl)
    as [C3 L3].
  destruct (optional_no_digit _ _ sep_no_digit Hs1) as [C4 L4].
  destruct (optional_no_digit _ _ sep_no_digit Hs2) as [C6 L6].
  destruct (digit_run_count _ _ Ha) as [C2 L2].
  destruct (digit_run_count _ _ Hb) as [C5 L5].
  destruct (digit_run_count _ _ Hd) as [C7 L7].
  rewrite !count_if_app, !length_app, C1, C2, C3, C4, C5, C6, C7, L2, L5, L7.
  split; [reflexivity|]. split; [lia|].
  apply phone_rule. now right.
Qed.

Lemma phone_shape_ten_digits_witness :
  phone_shape (lit "(123 456.7890") /\
  count_if is_digit (lit "(123 456.7890") = 10%nat /\
  (check_phone (lit "(123 456.7890")).1 = true.
Proof.
  assert (H : phone_shape (lit "(123 456.7890")).
  { exists (lit "("), (lit "123"), [], (lit " "), (lit "456"), (lit "."),
      (lit "7890").
    split; [reflexivity|].
    split; [right; exists (chr "("); done|].
    split; [done|]. split; [now left|].
    split; [right; exists (chr " "); done|].
    split; [done|].
    split; [right; exists (chr "."); done|]. done. }
  split; [exact H|].
  destruct (phone_shape_ten_digits _ H) as (C & _ & V).
  split; [exact C | exact V].
Defined.

(** X7: white space in front of an age is skipped: the verdict is that of
    the rest of the value, while a value of white space only gets the
    range message, not the "required" one. *)
Theorem age_leading_blank w v :
  forallb is_white_space w = true ->
  (v <> [] -> check_age (w ++ v) = check_age v) /\
  (w <> [] -> check_age w = (false, "Age must be between 13 and 120.")).
Proof.
  intros Hw. split.
  - intros Hv. unfold check_age. rewrite (age_blank_prefix _ _ Hw).
    destruct v as [|c v]; [done|]. now destruct w.
  - intros Hne. unfold check_age. rewrite (parseInt_blank _ Hw).
    now destruct w.
Qed.

Lemma age_leading_blank_witness :
  check_age (lit "  " ++ lit "42") = check_age (lit "42") /\
  (check_age (lit "42")).1 = true /\
  check_age (lit "  ") = (false, "Age must be between 13 and 120.").
Proof.
  destruct (age_leading_blank (lit "  ") (lit "42") eq_refl) as [H1 H2].
  split; [apply H1; discriminate|]. split; [reflexivity|].
  apply H2. discriminate.
Defined.

(* ===================================================================== *)
(** ** What the listeners leave alone                                     *)
(* ===================================================================== *)

Section Preserves.

Variable R : State -> State -> Prop.
Hypothesis R_refl : forall st, R st st.
Hypothesis R_trans : forall s1 s2 s3, R s1 s2 -> R s2 s3 -> R s1 s3.

Hypothesis R_validationState : forall st vs, R st (with_validationState vs st).
Hypothesis R_timers : forall st ts, R st (with_timers ts st).

Lemma preserves_ret {A} (a : A) : preserves R (ret a).
Proof. intros st. apply R_refl. Qed.

Lemma preserves_bind {A B} (m : M A) (k : A -> M B) :
  preserves R m -> (forall a, preserves R (k a)) -> preserves R (bind m k).
Proof.
  intros Hm Hk st. unfold bind. specialize (Hm st).
  destruct (m st) as [a s1|s1]; cbn in *; [|exact Hm].
  eapply R_trans; [exact Hm | apply Hk].
Qed.

Lemma preserves_read {A} r (prop : Element -> A) : preserves R (read r prop).
Proof. intros st. unfold read. destruct (r ≫= _); apply R_refl. Qed.

Lemma preserves_getElementById id {B} (k : ref -> M B) :
  preserves R (k (Some id)) -> preserves R (k None) ->
  preserves R (bind (getElementById id) k).
Proof.
  intros Hs Hn st. unfold bind, getElementById.
  destruct (document st !! id); [apply Hs | apply Hn].
Qed.

Lemma writes_ok_null : writes_ok R None.
Proof. intros f _ st. apply R_refl. Qed.

Lemma preserves_updateFieldAppearance field errorElement isValid msg :
  writes_ok R field -> writes_ok R errorElement ->
  preserves R (updateFieldAppearance field errorElement isValid msg).
Proof.
  intros Wf We. unfold updateFieldAppearance.
  apply preserves_bind; [now apply Wf|]. intros _.
  apply preserves_bind; [apply preserves_read|]. intros v.
  destruct (negb (is_empty (trim v))); [destruct isValid|].
  - apply preserves_bind; [now apply Wf|]. intros _. now apply We.
  - apply preserves_bind; [now apply Wf|]. intros _. now apply We.
  - now apply We.
Qed.

Lemma preserves_check name v : preserves R (check name v).
Proof.
  unfold check.
  repeat (match goal with
          | |- context [String.eqb ?a ?b] => destruct (String.eqb a b)
          end; try apply preserves_ret).
  all: try (apply preserves_bind; [apply preserves_read|]; intros pw;
            apply preserves_ret).
Qed.

Lemma preserves_validateField name v :
  writes_ok R (field_ref name) -> writes_ok R (Some (errorElementId name)) ->
  preserves R (validateField name v).
Proof.
  intros Wf We. unfold validateField.
  apply preserves_getElementById;
    (apply preserves_bind; [apply preserves_check|]; intros [b msg];
     apply preserves_bind;
     [apply preserves_updateFieldAppearance;
      [exact Wf | first [exact We | exact writes_ok_null]]|];
     intros _; apply preserves_bind; [|intros _; apply preserves_ret];
     intros st; apply R_validationState).
Qed.

Lemma preserves_updateSubmitButton :
  writes_ok R submitBtn -> preserves R updateSubmitButton.
Proof.
  intros Wb st. unfold updateSubmitButton.
  apply (preserves_bind (write submitBtn _) _); [now apply Wb|]. intros _.
  destruct (allRequiredValid (validationState st)); now apply Wb.
Qed.

Lemma preserves_on_field_event name :
  writes_ok R (field_ref name) -> writes_ok R (Some (errorElementId name)) ->
  writes_ok R submitBtn -> preserves R (on_field_event name).
Proof.
  intros Wf We Wb. unfold on_field_event.
  apply preserves_bind; [apply preserves_read|]. intros v.
  apply preserves_bind; [now apply preserves_validateField|]. intros _.
  now apply preserves_updateSubmitButton.
Qed.

Lemma preserves_validate_all names :
  (forall n, In n names ->
     writes_ok R (field_ref n) /\ writes_ok R (Some (errorElementId n))) ->
  forall acc, preserves R (validate_all names acc).
Proof.
  induction names as [|n names IH]; intros H acc; cbn [validate_all].
  - apply preserves_ret.
  - apply preserves_bind; [apply preserves_read|]. intros v.
    apply preserves_bind.
    + apply preserves_validateField; apply (H n); now left.
    + intros b. apply IH. intros m Hm. apply H. now right.
Qed.

Lemma preserves_on_submit :
  (forall n, In n (keys fields) ->
     writes_ok R (field_ref n) /\ writes_ok R (Some (errorElementId n))) ->
  writes_ok R form -> writes_ok R successMessage -> preserves R on_submit.
Proof.
  intros Hf Wform Ws. unfold on_submit.
  apply preserves_bind; [now apply preserves_validate_all|].
  intros [|].
  - unfold showSuccessMessage.
    apply preserves_bind; [now apply Wform|]. intros _.
    apply preserves_bind; [now apply Ws|]. intros _.
    intros st. apply R_timers.
  - apply preserves_bind; [now apply Wform|]. intros _.
    intros st. apply R_timers.
Qed.

End Preserves.

Section Frames.

Implicit Types (st : State) (id : string).

Lemma same_values_refl st : same_values st st.
Proof. intros id. done. Qed.

Lemma same_values_trans s1 s2 s3 :
  same_values s1 s2 -> same_values s2 s3 -> same_values s1 s3.
Proof. intros H1 H2 id. rewrite (H1 id). apply H2. Qed.

Lemma same_values_writes r : writes_ok same_values r.
Proof.
  intros f Hf st. destruct r as [id|]; [|apply same_values_refl].
  destruct (document st !! id) as [e|] eqn:He.
  - rewrite (write_returns _ _ _ _ He). intros id'. cbn.
    destruct (decide (id = id')) as [<-|Hne].
    + rewrite lookup_insert_eq, He. cbn. now rewrite Hf.
    + now rewrite lookup_insert_ne.
  - unfold write. rewrite He. apply same_values_refl.
Qed.

Lemma untouched_trans id s1 s2 s3 :
  untouched id s1 s2 -> untouched id s2 s3 -> untouched id s1 s3.
Proof. unfold untouched. congruence. Qed.

Lemma untouched_writes id r : r <> Some id -> writes_ok (untouched id) r.
Proof.
  intros Hr f _ st. unfold untouched. destruct r as [id'|]; [|done].
  unfold write. destruct (document st !! id') as [e|]; [|done]. cbn.
  apply lookup_insert_ne. congruence.
Qed.

(** No listener of the validator writes to anything but the six controls,
    their six message elements, the button, the form and the success box. *)
Lemma untouched_on_submit id :
  ~ In id ["fullname"; "email"; "password"; "confirm-password"; "age"; "phone";
           "fullname-error"; "email-error"; "password-error";
           "confirm-password-error"; "age-error"; "phone-error";
           "user-form"; "form-success"] ->
  preserves (untouched id) on_submit.
Proof.
  intros Hid. apply preserves_on_submit; try done.
  - apply untouched_trans.
  - intros n Hn. cbn in Hn.
    repeat (destruct Hn as [<-|Hn];
            [split; apply untouched_writes; intros [= <-]; apply Hid; in_list|]).
    destruct Hn.
  - apply untouched_writes. intros [= <-]. apply Hid. in_list.
  - apply untouched_writes. intros [= <-]. apply Hid. in_list.
Qed.

End Frames.

(** X8: the validation listeners never alter what a control holds: from
    any state and for any field name and value, [validateField], the
    'input'/'blur' listener and the 'submit' listener end (returning or
    throwing) with every control's value as it was. *)
Theorem validation_keeps_values name v st :
  same_values st (final (validateField name v st)) /\
  same_values st (final (on_field_event name st)) /\
  same_values st (final (on_submit st)).
Proof.
  split; [|split].
  - apply preserves_validateField;
      first [exact same_values_refl | exact same_values_trans
            | apply same_values_writes | (intros; intros ?; reflexivity)].
  - apply preserves_on_field_event;
      first [exact same_values_refl | exact same_values_trans
            | apply same_values_writes | (intros; intros ?; reflexivity)].
  - apply preserves_on_submit;
      first [exact same_values_refl | exact same_values_trans
            | apply same_values_writes
            | (intros; split; apply same_values_writes)
            | (intros; intros ?; reflexivity)].
Qed.

(** X9: the 'submit' listener never recomputes the submit button: whatever
    it does to the form state, the button element is as before.  So after
    a rejected submit that overwrote a stale entry the button can stay
    enabled while a required entry is false. *)
Theorem submit_leaves_button st :
  document (final (on_submit st)) !! "submit-btn" = document st !! "submit-btn" /\
  (button_disabled (final (on_submit password_edited)) = Some false /\
   allRequiredValid (validationState (final (on_submit password_edited)))
   = false).
Proof.
  split; [|by vm_compute].
  apply (untouched_on_submit "submit-btn").
  cbn. intros H. repeat (destruct H as [H|H]; [discriminate|]). done.
Qed.

(* ===================================================================== *)
(** ** Decorations, the button, the two branches of a submit              *)
(* ===================================================================== *)

Section Decorations.

Implicit Types (st : State) (id fid eid : string) (e : Element).




Lemma updateSubmitButton_result st e :
  document st !! "submit-btn" = Some e ->
  exists st', updateSubmitButton st = Returns tt st' /\
    document st' !! "submit-btn"
    = Some (set_textContent (label_for (allRequiredValid (validationState st)))
              (set_disabled (negb (allRequiredValid (validationState st))) e)) /\
    (forall id, id <> "submit-btn" -> document st' !! id = document st !! id) /\
    validationState st' = validationState st /\ timers st' = timers st.
Proof.
  intros He. unfold updateSubmitButton, submitBtn, label_for.
  set (ok := allRequiredValid (validationState st)).
  rewrite (bind_returns _ _ _ _ _ (write_returns "submit-btn" _ st e He)).
  set (s1 := with_document _ st).
  assert (H1 : document s1 !! "submit-btn" = Some (set_disabled (negb ok) e))
    by apply lookup_insert_eq.
  destruct ok; rewrite (write_returns "submit-btn" _ s1 _ H1);
    (eexists; split; [reflexivity|]; cbn; split; [apply lookup_insert_eq|];
     split; [|done]; intros id Hid; now rewrite !lookup_insert_ne).
Qed.

Lemma filter_not_in (x : string) (l : list string) :
  x ∉ l -> filter (fun c => c ∉ [x]) l = l.
Proof.
  induction l as [|y l IH]; [done|]. intros Hx.
  apply not_elem_of_cons in Hx as [Hxy Hx].
  rewrite filter_cons_True; [now rewrite IH|].
  intros Hy. apply list_elem_of_singleton in Hy. congruence.
Qed.

Lemma shake_round_trip e :
  "shake" ∉ classList e -> class_remove ["shake"] (class_add "shake" e) = e.
Proof.
  intros H. destruct e as [v dv cl tx di ds]. unfold class_remove, class_add.
  cbn in *. rewrite bool_decide_eq_false_2 by done.
  unfold set_classList. cbn. f_equal.
  rewrite list.filter_app, (filter_not_in _ _ H).
  rewrite filter_cons_False by set_solver. cbn. apply app_nil_r.
Qed.

Lemma form_untouched_by_validation names acc :
  (forall n, In n names -> In n (keys fields)) ->
  preserves (untouched "user-form") (validate_all names acc).
Proof.
  intros Hn. apply preserves_validate_all; try done.
  - apply untouched_trans.
  - intros n Hin. apply Hn in Hin. cbn in Hin.
    repeat (destruct Hin as [<-|Hin];
            [split; apply untouched_writes; discriminate|]).
    destruct Hin.
Qed.

End Decorations.



(** X11: one 'input' or 'blur' on a declared field stores that field's
    fresh verdict, leaves every other entry and the timers alone, and
    leaves the button in step with the stored entries: disabled exactly
    when some required entry is not true, with the matching label. *)
Theorem field_event_effect name st :
  page_ok st -> In name (keys fields) ->
  exists st', on_field_event name st = Returns tt st' /\
    stored name st' = Some (verdict name st) /\
    (forall n, n <> name -> stored n st' = stored n st) /\
    button_disabled st'
    = Some (negb (allRequiredValid (validationState st'))) /\
    button_label st'
    = Some (label_for (allRequiredValid (validationState st'))) /\
    timers st' = timers st.
Proof.
  intros Hp Hin.
  destruct (field_elements _ _ Hp Hin) as (fid & Hr & Hf & He).
  destruct (validateField_verdict name st Hp Hin) as (s1 & E1 & K1 & V1).
  destruct (page_ok_has s1 "submit-btn") as [eb Hb];
    [eauto using keeps_page_ok | in_list|].
  destruct (updateSubmitButton_result s1 eb Hb) as (s2 & E2 & B2 & _ & V2 & T2).
  exists s2. unfold on_field_event.
  rewrite (bind_returns _ _ _ _ _ (read_value_of _ _ _ Hr Hf)).
  rewrite (bind_returns _ _ _ _ _ E1).
  split; [exact E2|]. unfold stored, button_disabled, button_label.
  split; [rewrite V2, V1; apply obj_get_set_eq|].
  split; [intros n Hn; rewrite V2, V1; now apply obj_get_set_ne|].
  split; [rewrite B2, V2; reflexivity|].
  split; [rewrite B2, V2; reflexivity|]. rewrite T2. apply K1.
Qed.

Lemma field_event_effect_witness :
  page_ok filled /\ In "age" (keys fields) /\
  exists st', on_field_event "age" filled = Returns tt st' /\
    stored "age" st' = Some (verdict "age" filled) /\
    button_disabled st'
    = Some (negb (allRequiredValid (validationState st'))).
Proof.
  split; [exact filled_page_ok|]. split; [in_list|].
  destruct (field_event_effect "age" filled filled_page_ok) as (st' & E & S & _ & D & _);
    [in_list|].
  exists st'. split; [exact E|]. split; [exact S | exact D].
Defined.

(** X12: the rejection cue is transient.  When a submit is rejected on a
    form that was not shaking, the form gets the [shake] class and one
    timeout of 500 ms; once that timeout fires the form element is exactly
    as before the submit and the timer queue is as before, the form state
    staying as the submit left it. *)
Theorem shake_is_transient st e :
  page_ok st -> submit_allValid st = false ->
  document st !! "user-form" = Some e -> "shake" ∉ classList e ->
  exists st' st'',
    on_submit st = Returns tt st' /\
    document st' !! "user-form" = Some (class_add "shake" e) /\
    timers st' = timers st ++ [(500%nat, RemoveShake)] /\
    fire_timer (length (timers st)) st' = Returns tt st'' /\
    document st'' !! "user-form" = Some e /\
    timers st'' = timers st /\
    validationState st'' = validationState st'.
Proof.
  intros Hp Hrej He Hsh.
  destruct (validate_all_spec (keys fields) st Hp (fun n H => H) true)
    as (s1 & E1 & K1 & V1).
  assert (Hb : forallb (fun n => verdict n st) (keys fields) = false)
    by (now rewrite <- submit_allValid_spec).
  rewrite Hb in E1. cbn [andb] in E1.
  pose proof (form_untouched_by_validation (keys fields) true (fun n H => H) st)
    as Hform.
  rewrite E1 in Hform. unfold untouched in Hform. cbn in Hform. rewrite He in Hform.
  unfold on_submit. rewrite (bind_returns _ _ _ _ _ E1). unfold form.
  rewrite (bind_returns _ _ _ _ _ (write_returns "user-form" _ s1 e Hform)).
  eexists _, _. split; [reflexivity|]. cbn.
  rewrite lookup_insert_eq. split; [reflexivity|].
  destruct K1 as [T1 _]. rewrite T1. split; [reflexivity|].
  unfold fire_timer. cbn [timers with_timers].
  rewrite (list_lookup_middle (timers st) [] (500%nat, RemoveShake)) by done.
  cbn [run_task]. unfold form. cbn.
  rewrite lookup_insert_eq.
  split; [reflexivity|]. cbn. rewrite lookup_insert_eq, shake_round_trip by done.
  split; [reflexivity|]. split; [|reflexivity].
  rewrite (delete_middle (timers st) [] (500%nat, RemoveShake)).
  apply app_nil_r.
Qed.

Lemma shake_is_transient_witness :
  page_ok mount /\ submit_allValid mount = false /\
  exists st' st'',
    on_submit mount = Returns tt st' /\
    document st' !! "user-form" = Some (class_add "shake" blank) /\
    fire_timer 0 st' = Returns tt st'' /\
    document st'' !! "user-form" = Some blank /\ timers st'' = [].
Proof.
  split; [exact mount_page_ok|]. split; [reflexivity|].
  destruct (shake_is_transient mount blank mount_page_ok eq_refl eq_refl)
    as (st' & st'' & E & D & _ & F & D' & T & _).
  { cbn. apply not_elem_of_nil. }
  exists st', st''.
  split; [exact E|]. split; [exact D|]. split; [exact F|].
  split; [exact D' | exact T].
Defined.

(** X13: an accepted submit.  When every field revalidates as valid, the
    listener returns with all six entries true, the form hidden, the
    success box shown, the control values untouched and exactly one new
    timeout, the reset after 5000 ms. *)
Theorem accepted_submit st :
  page_ok st -> submit_allValid st = true ->
  exists st', on_submit st = Returns tt st' /\
    (forall n, In n (keys fields) -> stored n st' = Some true) /\
    display <$> (document st' !! "user-form") = Some "none" /\
    display <$> (document st' !! "form-success") = Some "block" /\
    timers st' = timers st ++ [(5000%nat, ResetForm)] /\
    same_values st st'.
Proof.
  intros Hp Hok.
  destruct (validate_all_spec (keys fields) st Hp (fun n H => H) true)
    as (s1 & E1 & K1 & V1).
  assert (Hb : forallb (fun n => verdict n st) (keys fields) = true)
    by (now rewrite <- submit_allValid_spec).
  rewrite Hb in E1. cbn [andb] in E1.
  pose proof (keeps_page_ok _ _ K1 Hp) as Hp1.
  destruct (page_ok_has s1 "user-form" Hp1) as [ef Hf]; [in_list|].
  destruct (page_ok_has s1 "form-success" Hp1) as [es Hs]; [in_list|].
  unfold on_submit. rewrite (bind_returns _ _ _ _ _ E1).
  unfold showSuccessMessage, form, successMessage.
  rewrite (bind_returns _ _ _ _ _ (write_returns "user-form" _ s1 ef Hf)).
  erewrite bind_returns
    by (apply (write_returns "form-success" _ _ es); cbn;
        now rewrite lookup_insert_ne).
  eexists. split; [reflexivity|]. cbn.
  split.
  { intros n Hn. unfold stored. cbn. rewrite V1, revalidated_get by done.
    rewrite forallb_forall in Hb. now rewrite (Hb n Hn). }
  rewrite lookup_insert_ne, !lookup_insert_eq by done.
  split; [reflexivity|]. split; [reflexivity|].
  destruct K1 as [T1 S1]. rewrite T1. split; [reflexivity|].
  intros id. rewrite (S1 id). cbn.
  destruct (decide (id = "form-success")) as [->|N1].
  { now rewrite lookup_insert_eq, Hs. }
  rewrite lookup_insert_ne by done.
  destruct (decide (id = "user-form")) as [->|N2].
  { now rewrite lookup_insert_eq, Hf. }
  now rewrite lookup_insert_ne.
Qed.

Lemma accepted_submit_witness :
  page_ok filled /\ submit_allValid filled = true /\
  exists st', on_submit filled = Returns tt st' /\
    (forall n, In n (keys fields) -> stored n st' = Some true) /\
    display <$> (document st' !! "form-success") = Some "block".
Proof.
  split; [exact filled_page_ok|]. split; [reflexivity|].
  destruct (accepted_submit filled filled_page_ok eq_refl)
    as (st' & E & S & _ & D & _).
  exists st'. split; [exact E|]. split; [exact S | exact D].
Defined.

(** X14: the age rule reads hexadecimal.  A value that opens with [0x] or
    [0X] is valid exactly when hexadecimal digits follow and their value is
    from 13 to 120: "0x10" is the age 16. *)
Theorem age_accepts_hex s :
  (check_age (lit "0x" ++ s)).1
  = match digits_prefix 16 s with
    | [] => false
    | _ => (13 <=? hex_value s) && (hex_value s <=? 120)
    end /\
  check_age (lit "0X" ++ s) = check_age (lit "0x" ++ s) /\
  check_age (lit "0x10") = (true, "") /\ hex_value (lit "10") = 16.
Proof.
  assert (P : forall x, x = 120%N \/ x = 88%N ->
    parseInt (48%N :: x :: s)
    = match digits_prefix 16 s with
      | [] => None
      | ds => Some (digits_value 16 ds)
      end).
  { intros x Hx.
    assert (E : parseInt (48%N :: x :: s)
                = match digits_prefix 16 s with
                  | [] => None
                  | d :: ds => Some (1 * digits_value 16 (d :: ds))
                  end) by (destruct Hx as [-> | ->]; reflexivity).
    rewrite E. destruct (digits_prefix 16 s); [done|].
    now rewrite Z.mul_1_l. }
  assert (C : forall x, x = 120%N \/ x = 88%N ->
    check_age (48%N :: x :: s)
    = match digits_prefix 16 s with
      | [] => (false, "Age must be between 13 and 120.")
      | _ => if (hex_value s <? 13) || (hex_value s >? 120)
             then (false, "Age must be between 13 and 120.") else (true, "")
      end).
  { intros x Hx. unfold check_age. rewrite (P x Hx). cbn [is_empty].
    unfold hex_value. now destruct (digits_prefix 16 s). }
  split; [|split; [|by vm_compute]].
  - change (lit "0x" ++ s) with (48%N :: 120%N :: s).
    rewrite (C 120%N) by now left.
    destruct (digits_prefix 16 s); [done|].
    destruct (Z.ltb_spec (hex_value s) 13), (Z.gtb_spec (hex_value s) 120),
      (Z.leb_spec 13 (hex_value s)), (Z.leb_spec (hex_value s) 120);
      cbn; done || lia.
  - change (lit "0X" ++ s) with (48%N :: 88%N :: s).
    change (lit "0x" ++ s) with (48%N :: 120%N :: s).
    rewrite (C 88%N), (C 120%N) by tauto. done.
Qed.

(* ===================================================================== *)
(** ** PART 1: the theme toggle                                           *)
(* ===================================================================== *)

Section ThemeFacts.

Import Theme.

Lemma setTheme_agrees t s : t <> "" -> agrees (setTheme t s) t.
Proof.
  intros Ht. unfold agrees, setTheme. cbn.
  rewrite lookup_insert_eq. done.
Qed.

Lemma savedTheme_nonempty s : savedTheme s <> "".
Proof.
  unfold savedTheme. destruct (localStorage s !! "theme") as [t|]; [|done].
  destruct (String.eqb_spec t ""); done.
Qed.

Lemma step_agrees s e :
  (exists t, agrees s t) -> exists t, agrees (step s e) t.
Proof.
  intros (t & Hd & Hs & Ht & Hl). destruct e as [|i]; cbn.
  - unfold on_click. rewrite Hd.
    destruct (String.eqb t "dark"); eexists; unfold agrees; cbn;
      rewrite lookup_insert_eq; done.
  - unfold fire. destruct (pending s !! i); [|by exists t].
    exists t. unfold agrees. cbn. done.
Qed.

Lemma run_agrees evs s :
  (exists t, agrees s t) -> exists t, agrees (run evs s) t.
Proof.
  unfold run. revert s. induction evs as [|e evs IH]; intros s H; cbn; [done|].
  apply IH. now apply step_agrees.
Qed.

End ThemeFacts.

(** X15: the theme stays consistent.  After [initializeThemeToggle] and any
    sequence of clicks and timeouts, the [data-theme] attribute, the stored
    [theme] item and the button label agree: the stored item is the theme
    shown, and the label offers the light mode exactly when the theme is
    [dark]. *)
Theorem theme_consistent evs s0 :
  let s := Theme.run evs (Theme.initializeThemeToggle s0) in
  exists t, Theme.data_theme s = Some t /\
    Theme.localStorage s !! "theme" = Some t /\ t <> "" /\
    Theme.toggle_text s
    = (if String.eqb t "dark" then "☀️ Light Mode" else "🌙 Dark Mode").
Proof.
  cbn zeta. apply run_agrees. exists (Theme.savedTheme s0).
  apply setTheme_agrees, savedTheme_nonempty.
Qed.

(** X16: the preference survives a reload.  Whatever was clicked, loading
    the page again over the same storage shows the same theme and label. *)
Theorem theme_survives_reload evs s0 page :
  let s := Theme.run evs (Theme.initializeThemeToggle s0) in
  Theme.data_theme (Theme.reload page s) = Theme.data_theme s /\
  Theme.toggle_text (Theme.reload page s) = Theme.toggle_text s /\
  Theme.localStorage (Theme.reload page s) = Theme.localStorage s.
Proof.
  cbn zeta. destruct (theme_consistent evs s0) as (t & Hd & Hs & Ht & Hl).
  cbn zeta in *. set (s := Theme.run evs _) in *.
  unfold Theme.reload, Theme.initializeThemeToggle, Theme.savedTheme. cbn.
  rewrite Hs. destruct (String.eqb_spec t ""); [done|].
  rewrite Hd, Hl. split; [done|]. split; [done|]. now apply insert_id.
Qed.

(** X17: a click makes the theme [light] when it was [dark] and [dark] in
    every other case (also when the attribute is missing or holds another
    name); so two clicks bring a [light] or [dark] theme, its stored item
    and its label back. *)
Theorem theme_toggle s t :
  Theme.data_theme s = Some t -> t = "light" \/ t = "dark" ->
  Theme.data_theme (Theme.on_click s)
  = Some (if String.eqb t "dark" then "light" else "dark") /\
  Theme.data_theme (Theme.on_click (Theme.on_click s)) = Some t /\
  Theme.localStorage (Theme.on_click (Theme.on_click s)) !! "theme" = Some t /\
  (forall s', Theme.data_theme s' <> Some "dark" ->
              Theme.data_theme (Theme.on_click s') = Some "dark").
Proof.
  intros Hd Ht. split; [|split; [|split]].
  - unfold Theme.on_click. rewrite Hd. cbn. now destruct (String.eqb t "dark").
  - unfold Theme.on_click. cbn. rewrite Hd. destruct Ht as [-> | ->]; reflexivity.
  - unfold Theme.on_click. cbn. rewrite Hd, lookup_insert_eq.
    destruct Ht as [-> | ->]; reflexivity.
  - intros s' Hs'. unfold Theme.on_click. cbn.
    destruct (Theme.data_theme s') as [u|]; [|done].
    destruct (String.eqb_spec u "dark") as [->|]; done.
Qed.

Lemma theme_toggle_witness :
  let s := Theme.initializeThemeToggle (Theme.mk None ∅ "" [] []) in
  Theme.data_theme s = Some "light" /\
  Theme.data_theme (Theme.on_click (Theme.on_click s)) = Some "light".
Proof.
  cbn zeta. split; [reflexivity|].
  exact (proj1 (proj2 (theme_toggle
                         (Theme.initializeThemeToggle (Theme.mk None ∅ "" [] []))
                         "light" eq_refl (or_introl eq_refl)))).
Defined.

(* ===================================================================== *)
(** ** PART 3: the counter                                                *)
(* ===================================================================== *)

Section CounterFacts.

Import Counter.











Lemma elem_of_delete_other {A} (l : list A) i x y :
  x ∈ l -> l !! i = Some y -> x <> y -> x ∈ delete i l.
Proof.
  intros Hx Hi Hne. rewrite <- (take_drop_middle l i y Hi) in Hx.
  rewrite delete_take_drop. rewrite !elem_of_app in *.
  rewrite elem_of_cons in Hx. tauto.
Qed.

Lemma not_in_tokens_remove c cs l : c ∈ cs -> c ∉ tokens_remove cs l.
Proof. intros Hc H. apply list_elem_of_filter in H. tauto. Qed.

Lemma cleanup_step s e : cleanup_pending s -> cleanup_pending (step s e).
Proof.
  intros [Hc Ht]. destruct e as [| | |i]; cbn.
  - split; cbn.
    + intros _. exists 500%nat. apply elem_of_app. right. now left.
    + intros H. destruct (Ht H) as [d Hd]. exists d.
      apply elem_of_app. now left.
  - split; cbn.
    + intros _. exists 500%nat. apply elem_of_app. right. now left.
    + intros H. destruct (Ht H) as [d Hd]. exists d.
      apply elem_of_app. now left.
  - split; cbn.
    + intros _. exists 500%nat. apply elem_of_app. right. now left.
    + intros _. exists 200%nat. rewrite !elem_of_app, !list_elem_of_singleton.
      auto.
  - unfold fire. destruct (pending s !! i) as [[d t]|] eqn:Hi; [|done].
    destruct t; split; cbn.
    + intros H. destruct (Hc H) as [d' Hd']. exists d'.
      now apply (elem_of_delete_other _ i _ (d, ScaleBack)).
    + done.
    + intros [H|H]; exfalso; revert H; apply not_in_tokens_remove; set_solver.
    + intros H. destruct (Ht H) as [d' Hd']. exists d'.
      now apply (elem_of_delete_other _ i _ (d, ClearAnimation)).
Qed.

End CounterFacts.



(** X19: no animation state is left behind.  If each animation class and
    each enlarged transform of the display has its clean-up timeout
    pending, this stays so through any clicks and timeouts in any order;
    hence once no timeout is pending, the display has neither [bounce] nor
    [shake] and is not stuck at scale(1.2). *)
Theorem counter_cleanup evs s :
  Counter.cleanup_pending s ->
  Counter.cleanup_pending (Counter.run evs s) /\
  (Counter.pending (Counter.run evs s) = [] ->
   ("bounce" ∉ Counter.display_classes (Counter.run evs s)) /\
   ("shake" ∉ Counter.display_classes (Counter.run evs s)) /\
   Counter.display_transform (Counter.run evs s) <> "scale(1.2)").
Proof.
  intros H.
  assert (Hinv : Counter.cleanup_pending (Counter.run evs s)).
  { unfold Counter.run. revert s H.
    induction evs as [|e evs IH]; intros s H; [done|].
    cbn. apply IH. now apply cleanup_step. }
  split; [exact Hinv|]. intros Hq. destruct Hinv as [Hc Ht].
  rewrite Hq in Hc, Ht.
  repeat split.
  - intros Hb. destruct Hc as [d Hd]; [now left|]. now apply not_elem_of_nil in Hd.
  - intros Hb. destruct Hc as [d Hd]; [now right|]. now apply not_elem_of_nil in Hd.
  - intros Hb. destruct (Ht Hb) as [d Hd]. now apply not_elem_of_nil in Hd.
Qed.

Lemma counter_cleanup_witness :
  let s0 := Counter.mk 0 "0" "#3498db" [] "" [] in
  let s := Counter.run [Counter.Increment; Counter.Reset; Counter.Timeout 0;
                        Counter.Timeout 0; Counter.Timeout 0] s0 in
  Counter.cleanup_pending s0 /\ Counter.pending s = [] /\
  ("bounce" ∉ Counter.display_classes s) /\
  Counter.display_transform s <> "scale(1.2)".
Proof.
  cbn zeta.
  assert (H0 : Counter.cleanup_pending (Counter.mk 0 "0" "#3498db" [] "" [])).
  { split; cbn; [intros [H|H]; now apply not_elem_of_nil in H | done]. }
  split; [exact H0|]. split; [reflexivity|].
  destruct (counter_cleanup
              [Counter.Increment; Counter.Reset; Counter.Timeout 0;
               Counter.Timeout 0; Counter.Timeout 0] _ H0) as [_ Hq].
  destruct (Hq eq_refl) as (Hb & _ & Ht). split; [exact Hb | exact Ht].
Defined.

(* ===================================================================== *)
(** ** PART 2: the event log                                              *)
(* ===================================================================== *)

Section EventDemoFacts.

Import EventDemo.

Lemma prune_after_first_last rest : prune_after_first rest = last_n 10 rest.
Proof.
  unfold last_n. induction rest as [|c rest IH]; [done|].
  cbn [prune_after_first]. destruct (Nat.ltb_spec 11 (S (length (c :: rest)))) as [H|H];
    cbn [length] in *.
  - rewrite IH. replace (S (length rest) - 10)%nat with (S (length rest - 10)) by lia.
    reflexivity.
  - replace (S (length rest) - 10)%nat with O by lia. reflexivity.
Qed.

Lemma length_last_n {A} n (l : list A) : length (last_n n l) = Nat.min (length l) n.
Proof. unfold last_n. rewrite length_drop. lia. Qed.

Lemma last_n_snoc {A} n (l : list A) x :
  n <> O -> list.last (last_n n (l ++ [x])) = Some x.
Proof.
  intros Hn. unfold last_n. rewrite length_app. cbn [length].
  rewrite drop_app_le by lia. apply last_snoc.
Qed.

Lemma last_n_last_n {A} n (l k : list A) :
  last_n n (last_n n l ++ k) = last_n n (l ++ k).
Proof.
  unfold last_n. rewrite !length_app, length_drop.
  destruct (Nat.le_gt_cases (length l) n) as [H|H].
  - replace (length l - n)%nat with O by lia. cbn [drop].
    now rewrite Nat.sub_0_r.
  - replace (length l + length k - n)%nat
      with ((length l - n) + length k)%nat by lia.
    rewrite <- drop_drop, (drop_app_le l k) by lia.
    f_equal. lia.
Qed.

Lemma children_add ts m s :
  children (addEventMessage ts m s)
  = match children s with
    | [] => [line ts m]
    | c0 :: rest => c0 :: last_n 10 (rest ++ [line ts m])
    end.
Proof.
  unfold addEventMessage. cbn [children].
  destruct (children s) as [|c0 rest]; [reflexivity|].
  cbn [app prune]. now rewrite prune_after_first_last.
Qed.




End EventDemoFacts.

(** X20: one call of [addEventMessage].  The new line goes last; the first
    child of the output is kept and of the others only the ten most recent
    stay, so the output ends with at most eleven children (one, if it was
    empty). *)
Theorem log_line_added ts m s :
  let s' := EventDemo.addEventMessage ts m s in
  EventDemo.children s'
  = match EventDemo.children s with
    | [] => [EventDemo.line ts m]
    | c0 :: rest => c0 :: EventDemo.last_n 10 (rest ++ [EventDemo.line ts m])
    end /\
  length (EventDemo.children s')
  = Nat.min (S (length (EventDemo.children s))) 11 /\
  list.last (EventDemo.children s') = Some (EventDemo.line ts m).
Proof.
  cbn zeta. rewrite children_add.
  destruct (EventDemo.children s) as [|c0 rest]; [done|].
  split; [reflexivity|]. split.
  - cbn [length]. rewrite length_last_n, length_app. cbn [length]. lia.
  - rewrite last_cons, last_n_snoc by done. reflexivity.
Qed.



(** X22: the log keeps the ten most recent lines.  Logging a sequence of
    messages into an output with a first child and at most ten more leaves
    the first child followed by the last ten of all the lines, old and new,
    in order. *)
Theorem log_keeps_recent msgs s c0 rest :
  EventDemo.children s = c0 :: rest -> (length rest <= 10)%nat ->
  EventDemo.children
    (fold_left (fun s m => EventDemo.addEventMessage m.1 m.2 s) msgs s)
  = c0 :: EventDemo.last_n 10
            (rest ++ List.map (fun m => EventDemo.line m.1 m.2) msgs).
Proof.
  intros Hc Hl.
  assert (G : forall msgs s r,
    EventDemo.children s = c0 :: EventDemo.last_n 10 r ->
    EventDemo.children
      (fold_left (fun s m => EventDemo.addEventMessage m.1 m.2 s) msgs s)
    = c0 :: EventDemo.last_n 10
              (r ++ List.map (fun m => EventDemo.line m.1 m.2) msgs)).
  { clear. induction msgs as [|[ts m] msgs IH]; intros s r Hs; cbn [fold_left List.map].
    - now rewrite app_nil_r.
    - rewrite (IH _ (r ++ [EventDemo.line ts m])).
      + now rewrite <- app_assoc.
      + cbn [fst snd]. rewrite children_add, Hs. now rewrite last_n_last_n. }
  apply G. rewrite Hc. unfold EventDemo.last_n.
  replace (length rest - 10)%nat with O by lia. reflexivity.
Qed.

Lemma log_keeps_recent_witness :
  let s0 := EventDemo.mk 0 [lit "first"] "" "" [] in
  let msgs := List.map (fun n => (lit "t", [n])) [1; 2; 3; 4; 5; 6; 7; 8; 9; 10; 11; 12]%N in
  EventDemo.children
    (fold_left (fun s m => EventDemo.addEventMessage m.1 m.2 s) msgs s0)
  = lit "first" :: List.map (fun n => EventDemo.line (lit "t") [n])
                     [3; 4; 5; 6; 7; 8; 9; 10; 11; 12]%N.
Proof.
  cbn zeta.
  rewrite (log_keeps_recent _ _ (lit "first") []); [reflexivity | reflexivity | cbn; lia].
Defined.

(* ===================================================================== *)
(** ** PART 5: the tabs                                                   *)
(* ===================================================================== *)

Section TabsFacts.

Import Tabs.

Lemma active_add k s j :
  is_active (add_active k s) j <-> j = k \/ is_active s j.
Proof.
  unfold is_active, add_active. cbn.
  destruct (decide (k = j)) as [->|Hne].
  - rewrite fn_lookup_insert. unfold tokens_add. case_bool_decide.
    + tauto.
    + rewrite elem_of_app, list_elem_of_singleton. tauto.
  - rewrite fn_lookup_insert_ne by done. split; [tauto|].
    intros [->|H]; [done | exact H].
Qed.

Lemma active_remove k s j :
  is_active (remove_active k s) j <-> j <> k /\ is_active s j.
Proof.
  unfold is_active, remove_active. cbn.
  destruct (decide (k = j)) as [->|Hne].
  - rewrite fn_lookup_insert. unfold tokens_remove.
    rewrite list_elem_of_filter. split; [|tauto].
    intros [H _]. exfalso. apply H. now left.
  - rewrite fn_lookup_insert_ne by done. split; [|tauto].
    intros H. split; [congruence | exact H].
Qed.

Lemma active_remove_all ks s j :
  is_active (fold_left (fun s k => remove_active k s) ks s) j
  <-> ~ In j ks /\ is_active s j.
Proof.
  revert s. induction ks as [|k ks IH]; intros s; cbn [fold_left].
  - cbn. tauto.
  - rewrite IH, active_remove. cbn. split.
    + intros (H1 & H2 & H3). split; [|exact H3]. intros [->|H]; done.
    + intros (H1 & H2). repeat split; [tauto | | exact H2].
      intros ->. apply H1. now left.
Qed.

Lemma untouched_remove_all ks s :
  transform (fold_left (fun s k => remove_active k s) ks s) = transform s /\
  pending (fold_left (fun s k => remove_active k s) ks s) = pending s.
Proof.
  revert s. induction ks as [|k ks IH]; intros s; cbn [fold_left]; [done|].
  destruct (IH (remove_active k s)) as [-> ->]. done.
Qed.

End TabsFacts.

(** X23: a click on a tab button whose [data-tab] names an existing
    element.  The listener returns and, of all the tab buttons, all the tab
    panels and the target, exactly the clicked button and the target are
    active; one timeout is added for the button's transform. *)
Theorem tabs_click p this s target :
  Tabs.element_by_id p (default "null" (Tabs.data_tab p this)) = Some target ->
  exists s', Tabs.on_click p this s = Tabs.Returns s' /\
    (forall k, In k (Tabs.tabButtons p ++ Tabs.tabPanels p) \/ k = target ->
               (Tabs.is_active s' k <-> k = this \/ k = target)) /\
    (forall k, ~ In k (Tabs.tabButtons p ++ Tabs.tabPanels p) ->
               k <> this -> k <> target ->
               (Tabs.is_active s' k <-> Tabs.is_active s k)) /\
    Tabs.pending s' = Tabs.pending s ++ [(100%nat, this)].
Proof.
  intros Ht. unfold Tabs.on_click. rewrite Ht.
  eexists. split; [reflexivity|].
  assert (A : forall k,
    Tabs.is_active
      (Tabs.add_active target
         (Tabs.add_active this
            (fold_left (fun s panel => Tabs.remove_active panel s) (Tabs.tabPanels p)
               (fold_left (fun s btn => Tabs.remove_active btn s)
                  (Tabs.tabButtons p) s)))) k
    <-> k = target \/ k = this \/
        (~ In k (Tabs.tabPanels p) /\ ~ In k (Tabs.tabButtons p) /\
         Tabs.is_active s k)).
  { intros k. now rewrite !active_add, !active_remove_all. }
  split; [|split].
  - intros k Hk. unfold Tabs.is_active in *. cbn [Tabs.classes]. rewrite (A k).
    rewrite in_app_iff in Hk. tauto.
  - intros k Hk H1 H2. unfold Tabs.is_active in *. cbn [Tabs.classes].
    rewrite (A k). rewrite in_app_iff in Hk. tauto.
  - cbn [Tabs.pending Tabs.add_active].
    now rewrite (proj2 (untouched_remove_all _ _)), (proj2 (untouched_remove_all _ _)).
Qed.

Lemma tabs_click_witness :
  let p := Tabs.mkPage ["b1"; "b2"] ["tab1"; "tab2"]
             (fun k => if String.eqb k "b1" then Some "tab1"
                       else if String.eqb k "b2" then Some "tab2" else None)
             (fun id => if String.eqb id "tab1" then Some "tab1"
                        else if String.eqb id "tab2" then Some "tab2" else None) in
  let s := Tabs.mk (fun k => if String.eqb k "b1" then ["tab-btn"; "active"]
                             else if String.eqb k "tab1" then ["tab-panel"; "active"]
                             else []) (fun _ => "") [] in
  exists s', Tabs.on_click p "b2" s = Tabs.Returns s' /\
    (Tabs.is_active s' "b1" <-> "b1" = "b2" \/ "b1" = "tab2") /\
    (Tabs.is_active s' "tab2" <-> "tab2" = "b2" \/ "tab2" = "tab2").
Proof.
  cbn zeta.
  edestruct (tabs_click
    (Tabs.mkPage ["b1"; "b2"] ["tab1"; "tab2"]
       (fun k => if String.eqb k "b1" then Some "tab1"
                 else if String.eqb k "b2" then Some "tab2" else None)
       (fun id => if String.eqb id "tab1" then Some "tab1"
                  else if String.eqb id "tab2" then Some "tab2" else None))
    "b2"
    (Tabs.mk (fun k => if String.eqb k "b1" then ["tab-btn"; "active"]
                       else if String.eqb k "tab1" then ["tab-panel"; "active"]
                       else []) (fun _ => "") [])
    "tab2" eq_refl) as (s' & E & H & _).
  exists s'. split; [exact E|]. split; apply H; cbn; tauto.
Defined.

(** X24: a click on a tab button whose [data-tab] names no element (or
    that has no [data-tab]).  The listener throws after it cleared every
    button and panel and activated the button: no panel is shown, the
    clicked button is the only active one, and neither the transform nor
    the timeouts were touched. *)
Theorem tabs_click_missing_target p this s :
  Tabs.element_by_id p (default "null" (Tabs.data_tab p this)) = None ->
  exists s', Tabs.on_click p this s = Tabs.Throws s' /\
    (forall k, In k (Tabs.tabButtons p ++ Tabs.tabPanels p) ->
               (Tabs.is_active s' k <-> k = this)) /\
    Tabs.transform s' = Tabs.transform s /\ Tabs.pending s' = Tabs.pending s.
Proof.
  intros Ht. unfold Tabs.on_click. rewrite Ht.
  eexists. split; [reflexivity|]. split; [|split].
  - intros k Hk. rewrite active_add, !active_remove_all.
    rewrite in_app_iff in Hk. tauto.
  - cbn [Tabs.transform Tabs.add_active].
    now rewrite (proj1 (untouched_remove_all _ _)), (proj1 (untouched_remove_all _ _)).
  - cbn [Tabs.pending Tabs.add_active].
    now rewrite (proj2 (untouched_remove_all _ _)), (proj2 (untouched_remove_all _ _)).
Qed.

Lemma tabs_click_missing_target_witness :
  let p := Tabs.mkPage ["b1"] ["tab1"] (fun _ => None)
             (fun id => if String.eqb id "tab1" then Some "tab1" else None) in
  let s := Tabs.mk (fun k => if String.eqb k "tab1" then ["active"] else [])
             (fun _ => "") [] in
  exists s', Tabs.on_click p "b1" s = Tabs.Throws s' /\
    (Tabs.is_active s' "tab1" <-> "tab1" = "b1").
Proof.
  cbn zeta.
  edestruct (tabs_click_missing_target
    (Tabs.mkPage ["b1"] ["tab1"] (fun _ => None)
       (fun id => if String.eqb id "tab1" then Some "tab1" else None))
    "b1"
    (Tabs.mk (fun k => if String.eqb k "tab1" then ["active"] else [])
       (fun _ => "") []) eq_refl) as (s' & E & H & _).
  exists s'. split; [exact E|]. apply H. cbn. tauto.
Defined.

(* ===================================================================== *)
(** ** PART 4: the FAQ accordion                                          *)
(* ===================================================================== *)

Section FAQFacts.

Import FAQ.

Lemma faq_active_add k s j :
  is_active (add_active k s) j <-> j = k \/ is_active s j.
Proof.
  unfold is_active, add_active. cbn.
  destruct (decide (k = j)) as [->|Hne].
  - rewrite fn_lookup_insert. unfold tokens_add. case_bool_decide.
    + tauto.
    + rewrite elem_of_app, list_elem_of_singleton. tauto.
  - rewrite fn_lookup_insert_ne by done. split; [tauto|].
    intros [->|H]; [done | exact H].
Qed.

Lemma faq_active_remove k s j :
  is_active (remove_active k s) j <-> j <> k /\ is_active s j.
Proof.
  unfold is_active, remove_active. cbn.
  destruct (decide (k = j)) as [->|Hne].
  - rewrite fn_lookup_insert. unfold tokens_remove.
    rewrite list_elem_of_filter. split; [|tauto].
    intros [H _]. exfalso. apply H. now left.
  - rewrite fn_lookup_insert_ne by done. split; [|tauto].
    intros H. split; [congruence | exact H].
Qed.

Lemma faq_active_set_text i t s j :
  is_active (set_text i t s) j <-> is_active s j.
Proof. reflexivity. Qed.

(** The inner loop on a page where every question has an answer and an
    icon: it returns, never opens anything, closes every other item and its
    answer, and sets every other icon to [+]. *)
Lemma close_others_spec p item qs : forall s,
  (forall q, In q qs ->
     is_Some (faq_answer p (parentElement p q)) /\ is_Some (faq_icon p q)) ->
  exists s', close_others p item qs s = Returns s' /\
    (forall k, is_active s' k -> is_active s k) /\
    (forall q, In q qs -> parentElement p q <> item ->
       ~ is_active s' (parentElement p q) /\
       (forall a, faq_answer p (parentElement p q) = Some a -> ~ is_active s' a) /\
       (forall i, faq_icon p q = Some i -> text s' i = "+")) /\
    (forall k, text s' k = text s k \/ text s' k = "+").
Proof.
  induction qs as [|q0 qs IH]; intros s Hall.
  - exists s. cbn. repeat split; try done. now left.
  - cbn [close_others].
    destruct (Hall q0 (or_introl eq_refl)) as [[a0 Ha0] [i0 Hi0]].
    assert (Hall' : forall q, In q qs ->
              is_Some (faq_answer p (parentElement p q)) /\ is_Some (faq_icon p q))
      by (intros q Hq; apply Hall; now right).
    case_bool_decide as Hne.
    + rewrite Ha0, Hi0.
      destruct (IH (set_text i0 "+"
                      (remove_active a0 (remove_active (parentElement p q0) s)))
                  Hall') as (s' & E & Hmono & Hclosed & Htext).
      exists s'. split; [exact E|].
      assert (Hmono' : forall k, is_active s' k ->
                ~ (k = a0) /\ ~ (k = parentElement p q0) /\ is_active s k).
      { intros k Hk. apply Hmono in Hk.
        rewrite faq_active_set_text, !faq_active_remove in Hk. tauto. }
      split; [intros k Hk; now apply Hmono'|]. split.
      * intros q [<-|Hq] Hq'; [|now apply Hclosed].
        split; [intros H; apply Hmono' in H; tauto|].
        split.
        -- intros a Ha H. rewrite Ha0 in Ha. injection Ha as <-.
           apply Hmono' in H. tauto.
        -- intros i Hi. rewrite Hi0 in Hi. injection Hi as <-.
           destruct (Htext i0) as [-> | ->]; [|done].
           cbn. now rewrite fn_lookup_insert.
      * intros k. destruct (Htext k) as [-> | ->]; [|now right].
        cbn. destruct (decide (i0 = k)) as [->|Hk].
        -- right. now rewrite fn_lookup_insert.
        -- left. now rewrite fn_lookup_insert_ne.
    + destruct (IH s Hall') as (s' & E & Hmono & Hclosed & Htext).
      exists s'. split; [exact E|]. split; [exact Hmono|]. split; [|exact Htext].
      intros q [<-|Hq] Hq'; [|now apply Hclosed].
      exfalso. first [exact (Hq' Hne) | exact (Hne Hq')].
Qed.

End FAQFacts.

(** X25: the accordion.  On a page where every question has its own answer
    and icon, a click on a question returns; the clicked item is open
    exactly when it was closed before, its answer is open exactly when the
    item is, and its icon shows [−] when open and [+] when closed; every
    other item and its answer are closed and its icon shows [+].  So at
    most one item is open after any click. *)
Theorem faq_accordion p this s :
  FAQ.well_formed p -> In this (FAQ.faqQuestions p) ->
  let item := FAQ.parentElement p this in
  exists s', FAQ.on_click p this s = FAQ.Returns s' /\
    (FAQ.is_active s' item <-> ~ FAQ.is_active s item) /\
    (forall a, FAQ.faq_answer p item = Some a ->
       (FAQ.is_active s' a <-> FAQ.is_active s' item)) /\
    (forall i, FAQ.faq_icon p this = Some i ->
       (FAQ.is_active s' item -> FAQ.text s' i = "−") /\
       (~ FAQ.is_active s' item -> FAQ.text s' i = "+")) /\
    (forall q, In q (FAQ.faqQuestions p) -> FAQ.parentElement p q <> item ->
       ~ FAQ.is_active s' (FAQ.parentElement p q) /\
       (forall a, FAQ.faq_answer p (FAQ.parentElement p q) = Some a ->
          ~ FAQ.is_active s' a) /\
       (forall i, FAQ.faq_icon p q = Some i -> FAQ.text s' i = "+")).
Proof.
  intros (Hall & Hitem & Hdist) Hin. cbn zeta.
  destruct (Hall this Hin) as [[a Ha] [i Hi]].
  unfold FAQ.on_click.
  remember (FAQ.parentElement p this) as item eqn:Hitm in *.
  destruct (close_others_spec p item (FAQ.faqQuestions p) s Hall)
    as (s0 & E0 & Hmono & Hclosed & Htext).
  assert (Hai : a <> item).
  { intros ->. apply (Hitem this this Hin Hin). now rewrite <- Hitm. }
  assert (Hother : forall q, In q (FAQ.faqQuestions p) ->
            FAQ.parentElement p q <> item ->
            FAQ.parentElement p q <> a /\
            (forall a', FAQ.faq_answer p (FAQ.parentElement p q) = Some a' ->
                        a' <> item /\ a' <> a) /\
            (forall i', FAQ.faq_icon p q = Some i' -> i' <> i)).
  { intros q Hq Hne. split; [|split].
    - intros Heq. apply (Hitem this q Hin Hq). now rewrite <- Hitm, Ha, Heq.
    - intros a' Ha'. split.
      + intros ->. apply (Hitem q this Hq Hin). now rewrite <- Hitm.
      + intros ->. destruct (Hdist q this Hq Hin) as [H _];
          [now rewrite <- Hitm|]. rewrite <- Hitm in H. congruence.
    - intros i' Hi' ->. destruct (Hdist q this Hq Hin) as [_ H];
        [now rewrite <- Hitm|]. congruence. }
  rewrite E0, Ha, Hi.
  case_bool_decide as Hact; cbn [negb].
  - (* the item was open: it is closed *)
    eexists. split; [reflexivity|].
    assert (A : forall k,
      FAQ.is_active
        (FAQ.set_text i "+" (FAQ.remove_active a (FAQ.remove_active item s0))) k
      <-> k <> a /\ k <> item /\ FAQ.is_active s0 k).
    { intros k. now rewrite faq_active_set_text, !faq_active_remove. }
    change (FAQ.is_active s item) in Hact.
    split; [rewrite A; tauto|].
    split.
    { intros a' Ha'. injection Ha' as <-. rewrite !A. tauto. }
    split.
    { intros i' Hi'. injection Hi' as <-. split.
      - rewrite A. tauto.
      - intros _. cbn. now rewrite fn_lookup_insert. }
    intros q Hq Hne. destruct (Hclosed q Hq Hne) as (C1 & C2 & C3).
    destruct (Hother q Hq Hne) as (O1 & O2 & O3).
    split; [rewrite A; tauto|]. split.
    + intros a' Ha'. rewrite A. specialize (C2 a' Ha'). tauto.
    + intros i' Hi'. cbn. rewrite fn_lookup_insert_ne by (apply not_eq_sym, (O3 i' Hi')).
      now apply C3.
  - (* the item was closed: it is opened *)
    eexists. split; [reflexivity|].
    assert (A : forall k,
      FAQ.is_active
        (FAQ.set_text i "−" (FAQ.add_active a (FAQ.add_active item s0))) k
      <-> k = a \/ k = item \/ FAQ.is_active s0 k).
    { intros k. now rewrite faq_active_set_text, !faq_active_add. }
    change (~ FAQ.is_active s item) in Hact.
    split; [rewrite A; tauto|].
    split.
    { intros a' Ha'. injection Ha' as <-. rewrite !A. tauto. }
    split.
    { intros i' Hi'. injection Hi' as <-. split.
      - intros _. cbn. now rewrite fn_lookup_insert.
      - rewrite A. tauto. }
    intros q Hq Hne. destruct (Hclosed q Hq Hne) as (C1 & C2 & C3).
    destruct (Hother q Hq Hne) as (O1 & O2 & O3).
    split; [rewrite A; tauto|]. split.
    + intros a' Ha'. rewrite A. specialize (C2 a' Ha').
      destruct (O2 a' Ha'). tauto.
    + intros i' Hi'. cbn. rewrite fn_lookup_insert_ne by (apply not_eq_sym, (O3 i' Hi')).
      now apply C3.
Qed.

Lemma faq_example_well_formed : FAQ.well_formed faq_example.
Proof.
  split; [|split].
  - intros q Hq. cbn in Hq.
    destruct Hq as [<-|[<-|[<-|[]]]]; cbn; split; eexists; reflexivity.
  - intros q1 q2 H1 H2. cbn in H1, H2.
    destruct H1 as [<-|[<-|[<-|[]]]], H2 as [<-|[<-|[<-|[]]]]; cbn; discriminate.
  - intros q1 q2 H1 H2. cbn in H1, H2.
    destruct H1 as [<-|[<-|[<-|[]]]], H2 as [<-|[<-|[<-|[]]]]; cbn;
      intros H; try done; split; discriminate.
Qed.

Lemma faq_accordion_witness :
  let s := FAQ.mk (fun k => if String.eqb k "item1" then ["faq-item"; "active"]
                            else []) (fun _ => "+") in
  FAQ.well_formed faq_example /\ In "q2" (FAQ.faqQuestions faq_example) /\
  exists s', FAQ.on_click faq_example "q2" s = FAQ.Returns s' /\
    (FAQ.is_active s' "item2" <-> ~ FAQ.is_active s "item2") /\
    ~ FAQ.is_active s' "item1".
Proof.
  cbn zeta. split; [exact faq_example_well_formed|].
  assert (Hin : In "q2" (FAQ.faqQuestions faq_example)) by in_list.
  split; [exact Hin|].
  destruct (faq_accordion faq_example "q2"
    (FAQ.mk (fun k => if String.eqb k "item1" then ["faq-item"; "active"] else [])
       (fun _ => "+")) faq_example_well_formed Hin) as (s' & E & H1 & _ & _ & H4).
  exists s'. split; [exact E|]. split; [exact H1|].
  destruct (H4 "q1") as [H _]; [in_list | cbn; discriminate | exact H].
Defined.

(* ===================================================================== *)
(** ** The reset closure and the form's controls                          *)
(* ===================================================================== *)

Section ResetValues.

Implicit Types (st : State) (id : string).

Lemma lookup_alter_all (f : Element -> Element) ids (d : gmap string Element) id :
  (forall e, f (f e) = f e) ->
  fold_right (fun i m => alter f i m) d ids !! id
  = if bool_decide (id ∈ ids) then f <$> d !! id else d !! id.
Proof.
  intros Hf. induction ids as [|i ids IH]; [done|]. cbn [fold_right].
  destruct (decide (i = id)) as [->|Hne].
  - rewrite lookup_alter_eq, IH.
    rewrite (bool_decide_eq_true_2 (id ∈ id :: ids)) by apply list_elem_of_here.
    case_bool_decide; [|done].
    destruct (d !! id); cbn; [now rewrite Hf | done].
  - rewrite lookup_alter_ne by done. rewrite IH.
    case_bool_decide as H1; case_bool_decide as H2; try done.
    + exfalso. apply H2. now apply list_elem_of_further.
    + exfalso. apply elem_of_cons in H2 as [?|?]; [congruence | done].
Qed.

Lemma preserves_forEach R {A} (xs : list A) (body : A -> M unit) :
  (forall st, R st st) -> (forall s1 s2 s3, R s1 s2 -> R s2 s3 -> R s1 s3) ->
  (forall x, preserves R (body x)) -> preserves R (forEach xs body).
Proof.
  intros Hr Ht Hb. induction xs as [|x xs IH]; cbn [forEach].
  - now apply preserves_ret.
  - apply (preserves_bind R Ht); [apply Hb | intros _; exact IH].
Qed.

Lemma values_reset_entry field : preserves same_values (reset_entry field).
Proof.
  unfold reset_entry.
  apply (preserves_bind same_values same_values_trans).
  { intros st id. reflexivity. }
  intros _. apply (preserves_bind same_values same_values_trans).
  { apply same_values_writes. done. }
  intros _. apply preserves_getElementById; apply same_values_writes; done.
Qed.

Lemma values_after_form_reset :
  preserves same_values
    (write form (set_display "block") ;;
     write successMessage (set_display "none") ;;
     ks <- (fun st => Returns (keys (validationState st)) st) ;;
     forEach ks reset_entry ;;
     updateSubmitButton).
Proof.
  apply (preserves_bind same_values same_values_trans).
  { apply same_values_writes. done. }
  intros _. apply (preserves_bind same_values same_values_trans).
  { apply same_values_writes. done. }
  intros _. apply (preserves_bind same_values same_values_trans).
  { intros st. apply same_values_refl. }
  intros ks. apply (preserves_bind same_values same_values_trans).
  { apply preserves_forEach;
      [apply same_values_refl | apply same_values_trans | apply values_reset_entry]. }
  intros _. apply (preserves_updateSubmitButton same_values same_values_trans).
  apply same_values_writes.
Qed.

End ResetValues.

(** X26: the reset closure empties the form even when it goes on to throw.
    Whenever the form element exists, the closure ends (returning or
    throwing) with every control of the form holding its default value. *)
Theorem reset_restores_defaults st name :
  is_Some (document st !! "user-form") -> In name (keys fields) ->
  is_Some (field_ref name ≫= fun id => document st !! id) ->
  value_of name (final (resetForm st)) = default_of name st.
Proof.
  intros [ef Hf] Hin Hfield.
  set (s1 := with_document
               (fold_right (fun id d => alter (fun e => set_value (defaultValue e) e) id d)
                  (<["user-form" := ef]> (document st)) (List.map snd fields)) st).
  assert (E1 : form_reset st = Returns tt s1).
  { unfold form_reset, form.
    rewrite (bind_returns _ _ _ _ _ (write_returns "user-form" _ st ef Hf)).
    reflexivity. }
  unfold resetForm. rewrite (bind_returns _ _ _ _ _ E1).
  pose proof (values_after_form_reset s1) as V.
  unfold value_of, default_of.
  destruct (field_ref name) as [fid|] eqn:Hr; [|now destruct Hfield].
  cbn [mbind option_bind] in *. destruct Hfield as [e He].
  rewrite <- (V fid). unfold s1. cbn [document with_document].
  rewrite lookup_alter_all by done.
  rewrite bool_decide_eq_true_2.
  - assert (Hne : "user-form" <> fid).
    { intros <-. cbn in Hin. unfold field_ref in Hr.
      destruct Hin as [<-|[<-|[<-|[<-|[<-|[<-|[]]]]]]]; discriminate. }
    rewrite lookup_insert_ne by done. rewrite He. reflexivity.
  - apply list_elem_of_In. cbn in Hin. unfold field_ref in Hr.
    destruct Hin as [<-|[<-|[<-|[<-|[<-|[<-|[]]]]]]]; injection Hr as <-; in_list.
Qed.

Lemma reset_restores_defaults_witness :
  value_of "fullname" submitted = lit "Jo" /\
  returned (resetForm submitted) = false /\
  value_of "fullname" (final (resetForm submitted)) = [].
Proof.
  split; [reflexivity|]. split; [reflexivity|].
  rewrite (reset_restores_defaults submitted "fullname").
  - reflexivity.
  - vm_compute. eexists; reflexivity.
  - in_list.
  - vm_compute. eexists; reflexivity.
Defined.

Section Entries.

Lemma keys_obj_set_present {V} k (v : V) (o : object V) :
  In k (keys o) -> keys (obj_set k v o) = keys o.
Proof.
  induction o as [|[k' v'] o IH]; cbn; [done|].
  destruct (String.eqb k k') eqn:E; cbn; [done|].
  intros [->|H]; [now rewrite String.eqb_refl in E | f_equal; now apply IH].
Qed.

Lemma keys_revalidated names st vs :
  (forall n, In n names -> In n (keys vs)) ->
  keys (revalidated names st vs) = keys vs.
Proof.
  unfold revalidated. revert vs. induction names as [|n names IH]; intros vs H.
  - reflexivity.
  - cbn [fold_left]. rewrite IH.
    + apply keys_obj_set_present, H. now left.
    + intros m Hm. rewrite keys_obj_set_present by (apply H; now left).
      apply H. now right.
Qed.

End Entries.

(** X27: the form state keeps its six entries in declaration order.  From
    a state whose entries are the six declared ones in order, an 'input' or
    'blur' on any field and a submit return with the same keys in the same
    order: no listener adds, drops or reorders an entry. *)
Theorem entries_stay_declared st :
  page_ok st -> keys (validationState st) = keys fields ->
  (forall name, In name (keys fields) ->
     exists st', on_field_event name st = Returns tt st' /\
                 keys (validationState st') = keys fields) /\
  (exists st', on_submit st = Returns tt st' /\
               keys (validationState st') = keys fields).
Proof.
  intros Hp Hk. split.
  - intros name Hin.
    destruct (on_field_event_spec name st Hp Hin) as (st' & E & _ & V & _).
    exists st'. split; [exact E|]. rewrite V, keys_obj_set_present; [exact Hk|].
    now rewrite Hk.
  - destruct (on_submit_spec st Hp) as (st' & E & _ & V & _).
    exists st'. split; [exact E|]. rewrite V, keys_revalidated; [exact Hk|].
    intros n Hn. now rewrite Hk.
Qed.

Lemma entries_stay_declared_witness :
  page_ok mount /\ keys (validationState mount) = keys fields /\
  exists st', on_submit mount = Returns tt st' /\
              keys (validationState st') = keys fields.
Proof.
  split; [exact mount_page_ok|]. split; [reflexivity|].
  exact (proj2 (entries_stay_declared mount mount_page_ok eq_refl)).
Defined.
